(** * MetaPilot: condition monitoring, queueing and execution pipeline

    A shallow embedding of the rule-driven task pipeline of the MetaPilot
    backends, and the properties of it that the specification states.

    - [Js]: the fragment of JavaScript semantics the code relies on
      (truthiness of optional strings, [BigInt] conversion of strings,
      asynchronous code with exceptions over a mutable world);
    - [EthTransfer]: the ETH transfer backend - the condition evaluators
      [handleETHTransferCondition] (TaskMonitorProcessor.ts) and
      [isETHTransferConditionMet] (BlockchainService.ts), the poller
      [monitorTaskConditions] and the worker [executeTask]
      (TaskExecutionProcessor.ts);
    - [MultiTask]: the multi-type backend - [scheduleTask] and
      [scheduleTasksByType] (the cron scheduler), [enqueueTask]
      (queue.provider.ts) and [processTokenPurchaseTask] (task.processor.ts);
    - [Pipeline]: the predicates the statements are written with;
    - [Scenario]: concrete tasks, stores and surroundings;
    - [RateLimiter]: the in-memory rate limiter (utils/rate-limit.ts);
    - [SessionKeys]: the session key service and the middleware built on
      it (SessionKeyService.ts, middleware/dtkAuth.ts), with
      [SessionScenario] for concrete delegations;
    - [Signing]: signing and sending a transfer with a session key
      ([getSessionKeySigner], [getDelegatorFromSessionKey] and
      [executeETHTransfer] of BlockchainService.ts);
    - [WorkerKeys]: the session key service as the collaborator of the
      worker;
    - [Scheduling]: the jobs the multi-type scheduler leaves on the queues;
    - [Placeholders]: [simulateTaskExecution] and the placeholder
      processors built on it (task.processor.ts);
    - [ApiKeys]: API keys and their validation, rate limiting and
      revocation (apikey.model.ts and the API key service);
    - [TaskRoutes]: the handlers of the task routes that write to stored
      tasks, [updateTaskStatusHandler] and [deleteTaskHandler]
      (api/routes/taskRoutes.ts);
    - [Backend]: runs of poller jobs, worker jobs and requests to these
      routes, with [RouteScenario] for concrete requests.

    Asynchronous functions are state-passing computations that run to
    completion without interleaving. What lies outside the process (clock,
    price feed, RPC node, database and queue connections, transaction
    sender) is a record of answers indexed by the number of interactions so
    far. Logging is not modelled. *)

From Stdlib Require Import ZArith List String Ascii Bool Lia.
Import ListNotations.

Local Open Scope string_scope.
Local Open Scope Z_scope.

(* ===================================================================== *)
(** * JavaScript fragment *)
(* ===================================================================== *)

Module Js.

(** ** Truthiness *)

(** An optional string property ([string | undefined]): truthy when it is
    defined and not the empty string. *)
Definition truthy (v : option string) : bool :=
  match v with
  | Some s => negb (s =? "")%string
  | None => false
  end.

(** [a || b] on optional strings. *)
Definition or_else (a b : option string) : option string :=
  if truthy a then a else b.

(** [a === 'lit'] for an optional string [a]. *)
Definition strict_eq (a : option string) (lit : string) : bool :=
  match a with
  | Some s => (s =? lit)%string
  | None => false
  end.

(** ** BigInt(value)

    [StringToBigInt] of ECMAScript: surrounding white space is trimmed, the
    empty string is [0n], a decimal literal may carry a sign, binary, octal
    and hexadecimal literals carry a prefix and no sign; anything else is a
    SyntaxError, [None] here. Strings are sequences of 8-bit characters, so
    only the ASCII white space characters are recognised. *)

Definition isStrWhiteSpaceChar (c : ascii) : bool :=
  let n := nat_of_ascii c in
  ((n =? 9) || (n =? 10) || (n =? 11) || (n =? 12) || (n =? 13) || (n =? 32))%nat.

Fixpoint dropWhile {A : Type} (p : A -> bool) (l : list A) : list A :=
  match l with
  | [] => []
  | x :: l' => if p x then dropWhile p l' else l
  end.

Definition trim (l : list ascii) : list ascii :=
  rev (dropWhile isStrWhiteSpaceChar (rev (dropWhile isStrWhiteSpaceChar l))).

Definition digitValue (c : ascii) : option Z :=
  let n := Z.of_nat (nat_of_ascii c) in
  if (48 <=? n) && (n <=? 57) then Some (n - 48)
  else if (97 <=? n) && (n <=? 102) then Some (n - 87)
  else if (65 <=? n) && (n <=? 70) then Some (n - 55)
  else None.

Fixpoint digits (radix : Z) (l : list ascii) (acc : Z) : option Z :=
  match l with
  | [] => Some acc
  | c :: l' =>
      match digitValue c with
      | Some d => if d <? radix then digits radix l' (acc * radix + d) else None
      | None => None
      end
  end.

(** A numeral has at least one digit. *)
Definition numeral (radix : Z) (l : list ascii) : option Z :=
  match l with
  | [] => None
  | _ => digits radix l 0
  end.

Definition is_char (c : ascii) (s : string) : bool :=
  match s with
  | String d EmptyString => Ascii.eqb c d
  | _ => false
  end.

Definition StrIntegerLiteral (l : list ascii) : option Z :=
  match l with
  | c0 :: c1 :: ds =>
      if is_char c0 "0" && (is_char c1 "x" || is_char c1 "X") then numeral 16 ds
      else if is_char c0 "0" && (is_char c1 "o" || is_char c1 "O") then numeral 8 ds
      else if is_char c0 "0" && (is_char c1 "b" || is_char c1 "B") then numeral 2 ds
      else if is_char c0 "+" then numeral 10 (c1 :: ds)
      else if is_char c0 "-" then option_map Z.opp (numeral 10 (c1 :: ds))
      else numeral 10 l
  | _ => numeral 10 l
  end.

Definition StringToBigInt (s : string) : option Z :=
  match trim (list_ascii_of_string s) with
  | [] => Some 0
  | l => StrIntegerLiteral l
  end.

(** [BigInt(v)] for a string property [v]; [BigInt(undefined)] is a
    TypeError. [None] stands for the exception. *)
Definition BigInt (v : option string) : option Z :=
  match v with
  | Some s => StringToBigInt s
  | None => None
  end.

(** ** Asynchronous code with exceptions

    A computation transforms the world and either completes normally or
    throws; what it did to the world before throwing stays done. *)

Inductive Error : Type :=
  | Err (message : string).

Definition message (e : Error) : string :=
  match e with Err m => m end.

Inductive Completion (A : Type) : Type :=
  | Normal (a : A)
  | Throw (e : Error).
Arguments Normal {A} a.
Arguments Throw {A} e.

Definition Async (W A : Type) : Type := W -> Completion A * W.

Definition ret {W A : Type} (a : A) : Async W A :=
  fun w => (Normal a, w).

Definition throw {W A : Type} (e : Error) : Async W A :=
  fun w => (Throw e, w).

Definition bind {W A B : Type} (m : Async W A) (k : A -> Async W B) : Async W B :=
  fun w =>
    match m w with
    | (Normal a, w') => k a w'
    | (Throw e, w') => (Throw e, w')
    end.

(** [try { m } catch (error) { h error }] *)
Definition try_catch {W A : Type} (m : Async W A) (h : Error -> Async W A) : Async W A :=
  fun w =>
    match m w with
    | (Normal a, w') => (Normal a, w')
    | (Throw e, w') => h e w'
    end.

(** [for (const x of l) { body x }] *)
Fixpoint for_of {W A : Type} (l : list A) (body : A -> Async W unit) : Async W unit :=
  match l with
  | [] => ret tt
  | x :: l' => bind (body x) (fun _ => for_of l' body)
  end.

(** [BigInt(v)] inside a computation. *)
Definition toBigInt {W : Type} (v : option string) : Async W Z :=
  match BigInt v with
  | Some z => ret z
  | None => throw (Err "Cannot convert value to a BigInt")
  end.

End Js.

Declare Scope async_scope.
Delimit Scope async_scope with async.
Bind Scope async_scope with Js.Async.
Notation "x <- m ;; k" := (Js.bind m (fun x => k))
  (at level 61, m at next level, right associativity) : async_scope.
Notation "m ;;; k" := (Js.bind m (fun _ => k))
  (at level 61, right associativity) : async_scope.


(* ===================================================================== *)
(** * ETH transfer backend *)
(* ===================================================================== *)

Module EthTransfer.
Import Js.
Local Open Scope async_scope.

(** ** Data model (models/Task.ts, types/model.ts, taskTypes/ETHTransferTask.ts) *)

Inductive TaskStatus : Type :=
  | active | paused | completed | pending | failed.

Definition TaskStatus_eqb (a b : TaskStatus) : bool :=
  match a, b with
  | active, active | paused, paused | completed, completed
  | pending, pending | failed, failed => true
  | _, _ => false
  end.

(** [status] of an execution history entry: 'success' | 'failed' | 'pending'. *)
Inductive ExecutionStatus : Type :=
  | h_success | h_failed | h_pending.

(** Dates are milliseconds since the epoch. *)
Definition Date : Type := Z.

Record PriceCondition : Type := {
  price_type : option string;          (* priceCondition.type *)
  priceThreshold : option string;
  referencePrice : option string
}.

Record BalanceCondition : Type := {
  balance_type : option string;        (* balanceCondition.type *)
  balanceThreshold : option string
}.

Record GasPriceCondition : Type := {
  gas_type : option string;            (* gasPriceCondition.type *)
  gasPriceThreshold : option string
}.

Record Conditions : Type := {
  conditionType : option string;
  priceCondition : option PriceCondition;
  balanceCondition : option BalanceCondition;
  gasPriceCondition : option GasPriceCondition
}.

Record Configuration : Type := {
  recipientAddress : option string;
  recipient : option string;
  amount : option string;
  executionType : option string
}.

Record Details : Type := {
  d_recipientAddress : string;
  d_amount : string;
  d_network : string
}.

Record HistoryEntry : Type := {
  timestamp : Date;
  action : string;
  h_status : ExecutionStatus;
  transactionHash : option string;
  error : option string;
  details : option Details             (* None is the empty object *)
}.

Record Task : Type := {
  _id : string;
  userId : string;
  type : string;
  sessionKeyId : option string;
  configuration : Configuration;
  conditions : Conditions;
  network : string;
  status : TaskStatus;
  lastExecutedAt : option Date;
  nextCheckAt : option Date;
  lastCheckedAt : option Date;
  executionHistory : option (list HistoryEntry)
}.

Record User : Type := {
  user_id : string;                    (* user._id *)
  address : string;
  agentId : option string
}.

(** Execution job message and the options it is enqueued with. *)
Record Job : Type := {
  taskId : string;
  taskType : string;
  job_network : string
}.

Record JobOptions : Type := {
  attempts : Z;
  backoff_type : string;
  backoff_delay : Z
}.

(** What [executeETHTransfer] returns. *)
Record ExecutionResult : Type := {
  success : bool;
  r_transactionHash : option string;
  r_error : option string;
  r_details : option Details
}.

Record SessionKey : Type := {
  privateKey : option string
}.

(** The world the processors act on: the two collections, the execution
    queue, and the number of interactions with the outside so far. *)
Record World : Type := {
  tasks : list Task;
  users : list User;
  executionQueue : list (Job * JobOptions);
  events : nat
}.

(** The outside, as seen at the n-th interaction: the clock, whether a store
    or queue call is rejected, and the answers of the collaborators (the
    price feed and RPC node behind BlockchainService, the session key
    service, the AI bridge, the transaction sender). *)
Record Env : Type := {
  clock : nat -> Date;
  fault : nat -> bool;
  price_feed : nat -> option string;
  rpc_balance : nat -> string -> option string;
  rpc_gasPrice : nat -> option string;
  session_keys : nat -> string -> option SessionKey;
  ai_bridge : nat -> string -> string -> string -> string -> option (option string);
  ETH_TRANSFER_EXECUTOR_ADDRESS : option string;
  chain_transfer : nat -> string -> string -> string -> string -> ExecutionResult;
  NODE_ENV : option string;
  random_hex : nat -> string
}.

(** The price the repository's own BlockchainService.getETHPrice returns:
    a constant, $3000.00 with 8 decimals. *)
Definition mock_ETH_price : string := "300000000000".

Definition set_events (n : nat) (w : World) : World :=
  {| tasks := tasks w; users := users w;
     executionQueue := executionQueue w; events := n |}.

Definition set_tasks (l : list Task) (w : World) : World :=
  {| tasks := l; users := users w;
     executionQueue := executionQueue w; events := events w |}.

Definition set_executionQueue (q : list (Job * JobOptions)) (w : World) : World :=
  {| tasks := tasks w; users := users w;
     executionQueue := q; events := events w |}.

Definition tick (w : World) : World := set_events (S (events w)) w.

Definition set_lastCheckedAt (d : Date) (t : Task) : Task :=
  {| _id := _id t; userId := userId t; type := type t;
     sessionKeyId := sessionKeyId t; configuration := configuration t;
     conditions := conditions t; network := network t; status := status t;
     lastExecutedAt := lastExecutedAt t; nextCheckAt := nextCheckAt t;
     lastCheckedAt := Some d; executionHistory := executionHistory t |}.

Definition set_nextCheckAt (d : Date) (t : Task) : Task :=
  {| _id := _id t; userId := userId t; type := type t;
     sessionKeyId := sessionKeyId t; configuration := configuration t;
     conditions := conditions t; network := network t; status := status t;
     lastExecutedAt := lastExecutedAt t; nextCheckAt := Some d;
     lastCheckedAt := lastCheckedAt t; executionHistory := executionHistory t |}.

Definition set_lastExecutedAt (d : Date) (t : Task) : Task :=
  {| _id := _id t; userId := userId t; type := type t;
     sessionKeyId := sessionKeyId t; configuration := configuration t;
     conditions := conditions t; network := network t; status := status t;
     lastExecutedAt := Some d; nextCheckAt := nextCheckAt t;
     lastCheckedAt := lastCheckedAt t; executionHistory := executionHistory t |}.

Definition set_status (s : TaskStatus) (t : Task) : Task :=
  {| _id := _id t; userId := userId t; type := type t;
     sessionKeyId := sessionKeyId t; configuration := configuration t;
     conditions := conditions t; network := network t; status := s;
     lastExecutedAt := lastExecutedAt t; nextCheckAt := nextCheckAt t;
     lastCheckedAt := lastCheckedAt t; executionHistory := executionHistory t |}.

Definition set_executionHistory (h : list HistoryEntry) (t : Task) : Task :=
  {| _id := _id t; userId := userId t; type := type t;
     sessionKeyId := sessionKeyId t; configuration := configuration t;
     conditions := conditions t; network := network t; status := status t;
     lastExecutedAt := lastExecutedAt t; nextCheckAt := nextCheckAt t;
     lastCheckedAt := lastCheckedAt t; executionHistory := Some h |}.

(** [task.executionHistory || []] *)
Definition history (t : Task) : list HistoryEntry :=
  match executionHistory t with
  | Some h => h
  | None => []
  end.

Section Processors.

Variable env : Env.

(** ** Interactions with the outside *)

(** [new Date()] and [Date.now()] *)
Definition now : Async World Date :=
  fun w => (Normal (clock env (events w)), tick w).

(** A call of the store or of the queue: rejected when the outside says so,
    otherwise [op] is applied to the world. *)
Definition call {A : Type} (op : World -> A * World) : Async World A :=
  fun w =>
    if fault env (events w) then (Throw (Err "connection error"), tick w)
    else let (a, w') := op w in (Normal a, tick w').

(** A collaborator that answers or rejects. *)
Definition ask {A : Type} (answer : nat -> option A) (msg : string) : Async World A :=
  fun w =>
    match answer (events w) with
    | Some a => (Normal a, tick w)
    | None => (Throw (Err msg), tick w)
    end.

(** A collaborator that always answers. *)
Definition consult {A : Type} (answer : nat -> A) : Async World A :=
  fun w => (Normal (answer (events w)), tick w).

(** *** Task store (Mongoose model Task) *)

(** [Task.find(query)], the query given as a predicate *)
Definition Task_find (query : Task -> bool) : Async World (list Task) :=
  call (fun w => (filter query (tasks w), w)).

(** [Task.findById(id)] *)
Definition Task_findById (id : string) : Async World (option Task) :=
  call (fun w => (find (fun t => (_id t =? id)%string) (tasks w), w)).

(** [task.save()]: the stored document of that id becomes [task]. Processors
    run without interleaving, so the document differs from the stored one
    only in the paths assigned since it was fetched. *)
Definition Task_save (task : Task) : Async World unit :=
  call (fun w =>
    (tt, set_tasks (map (fun d => if (_id d =? _id task)%string then task else d)
                        (tasks w)) w)).

(** [User.findById(id)] *)
Definition User_findById (id : string) : Async World (option User) :=
  call (fun w => (find (fun u => (user_id u =? id)%string) (users w), w)).

(** [executionQueue.add(data, opts)] *)
Definition executionQueue_add (data : Job) (opts : JobOptions) : Async World unit :=
  call (fun w => (tt, set_executionQueue (executionQueue w ++ [(data, opts)]) w)).

(** *** BlockchainService: the external data gateway

    Each method returns a decimal string or rejects; the condition
    evaluators convert the string with [BigInt]. *)

(** [getETHPrice()]: the price oracle. The repository's stand-in for it
    always answers [mock_ETH_price]; that is the feed
    [fun _ => Some mock_ETH_price]. *)
Definition getETHPrice : Async World string :=
  ask (price_feed env) "Error getting ETH price".

(** [getBalance(address)]: [provider.getBalance(address)] as a string; an
    error of the provider is logged and thrown again. *)
Definition getBalance (addr : string) : Async World string :=
  ask (fun n => rpc_balance env n addr) "Error getting balance".

(** [getGasPrice()]: [gasPrice], else [maxFeePerGas], of the fee data of the
    provider as a string; rejects when the provider does or has neither. *)
Definition getGasPrice : Async World string :=
  ask (rpc_gasPrice env) "Could not retrieve gas price".

(** ** Condition evaluation *)

(** TaskMonitorProcessor.ts, [handleETHTransferCondition(task)] *)
Definition handleETHTransferCondition (task : Task) : Async World bool :=
  try_catch
    (let conditions := conditions task in
     (* Skip if we don't have a session key *)
     if negb (truthy (sessionKeyId task)) then ret false
     else
       let conditionType := conditionType conditions in
       if strict_eq conditionType "price_threshold" then
         match priceCondition conditions with
         | None => ret false
         | Some priceCondition =>
             ethPrice <- getETHPrice ;;
             if strict_eq (price_type priceCondition) "above" then
               a <- toBigInt (Some ethPrice) ;;
               b <- toBigInt (priceThreshold priceCondition) ;;
               ret (a >=? b)
             else if strict_eq (price_type priceCondition) "below" then
               a <- toBigInt (Some ethPrice) ;;
               b <- toBigInt (priceThreshold priceCondition) ;;
               ret (a <=? b)
             else ret false
         end
       else if strict_eq conditionType "balance_threshold" then
         match balanceCondition conditions with
         | None => ret false
         | Some balanceCondition =>
             delegator <- User_findById (userId task) ;;
             match delegator with
             | None => ret false
             | Some delegator =>
                 balance <- getBalance (address delegator) ;;
                 if strict_eq (balance_type balanceCondition) "above" then
                   a <- toBigInt (Some balance) ;;
                   b <- toBigInt (balanceThreshold balanceCondition) ;;
                   ret (a >=? b)
                 else if strict_eq (balance_type balanceCondition) "below" then
                   a <- toBigInt (Some balance) ;;
                   b <- toBigInt (balanceThreshold balanceCondition) ;;
                   ret (a <=? b)
                 else ret false
             end
         end
       else if strict_eq conditionType "gas_price" then
         match gasPriceCondition conditions with
         | None => ret false
         | Some gasPriceCondition =>
             gasPrice <- getGasPrice ;;
             if strict_eq (gas_type gasPriceCondition) "below" then
               a <- toBigInt (Some gasPrice) ;;
               b <- toBigInt (gasPriceThreshold gasPriceCondition) ;;
               ret (a <=? b)
             else ret false
         end
       else if strict_eq conditionType "time_based" then
         (* handled by the scheduler *)
         ret false
       else ret false)
    (fun _ => ret false).

(** BlockchainService.ts, [isETHTransferConditionMet(taskId, conditionType, conditions)] *)
Definition isETHTransferConditionMet
    (taskId : string) (conditionType : option string) (conditions : Conditions)
    : Async World bool :=
  try_catch
    (if strict_eq conditionType "price_threshold" then
       match priceCondition conditions with
       | None => ret false
       | Some priceCondition =>
           currentPrice <- getETHPrice ;;
           currentPriceBigInt <- toBigInt (Some currentPrice) ;;
           (* reference price when the task was created; only logged *)
           referencePriceBigInt <-
             (if truthy (referencePrice priceCondition)
              then toBigInt (referencePrice priceCondition)
              else ret currentPriceBigInt) ;;
           if strict_eq (price_type priceCondition) "above" then
             threshold <- toBigInt (priceThreshold priceCondition) ;;
             ret (currentPriceBigInt >=? threshold)
           else if strict_eq (price_type priceCondition) "below" then
             threshold <- toBigInt (priceThreshold priceCondition) ;;
             ret (currentPriceBigInt <=? threshold)
           else ret false
       end
     else if strict_eq conditionType "balance_threshold" then
       match balanceCondition conditions with
       | None => ret false
       | Some balanceCondition =>
           task <- Task_findById taskId ;;
           match task with
           | None => ret false
           | Some task =>
               user <- User_findById (userId task) ;;
               match user with
               | None => ret false
               | Some user =>
                   balance <- getBalance (address user) ;;
                   balanceBigInt <- toBigInt (Some balance) ;;
                   if strict_eq (balance_type balanceCondition) "above" then
                     threshold <- toBigInt (balanceThreshold balanceCondition) ;;
                     ret (balanceBigInt >=? threshold)
                   else if strict_eq (balance_type balanceCondition) "below" then
                     threshold <- toBigInt (balanceThreshold balanceCondition) ;;
                     ret (balanceBigInt <=? threshold)
                   else ret false
               end
           end
       end
     else if strict_eq conditionType "gas_price" then
       match gasPriceCondition conditions with
       | None => ret false
       | Some gasPriceCondition =>
           gasPrice <- getGasPrice ;;
           gasPriceBigInt <- toBigInt (Some gasPrice) ;;
           if strict_eq (gas_type gasPriceCondition) "below" then
             threshold <- toBigInt (gasPriceThreshold gasPriceCondition) ;;
             ret (gasPriceBigInt <=? threshold)
           else ret false
       end
     else if strict_eq conditionType "time_based" then
       ret false
     else ret false)
    (fun _ => ret false).

(** ** Scheduler / poller *)

(** The job the poller is started with; its fields are not used. *)
Record MonitorJob : Type := {
  m_taskType : string;
  m_network : string
}.

Definition minutes (n : Z) : Z := n * 60 * 1000.

(** The query [{ type, status: 'active', network, nextCheckAt: { $lte: date } }] *)
Definition due_query (type_ network_ : string) (date : Date) (t : Task) : bool :=
  (type t =? type_)%string
  && TaskStatus_eqb (status t) active
  && (network t =? network_)%string
  && match nextCheckAt t with
     | Some d => d <=? date
     | None => false
     end.

(** The body of the loop over the due tasks. *)
Definition check_task (type_ networkToMonitor : string) (task : Task) : Async World unit :=
  try_catch
    (conditionMet <- handleETHTransferCondition task ;;
     if conditionMet then
       executionQueue_add
         {| taskId := _id task; taskType := type_; job_network := networkToMonitor |}
         {| attempts := 3; backoff_type := "exponential"; backoff_delay := 5000 |} ;;;
       (* Update task with condition check *)
       d <- now ;;
       let task := set_lastCheckedAt d task in
       Task_save task
     else
       (* Update next check time *)
       d <- now ;;
       let task := set_lastCheckedAt d task in
       n <- now ;;
       let task := set_nextCheckAt (n + minutes 5) task in
       Task_save task)
    (fun _ =>
       (* Update task with error; both paths the try block may have
          assigned are assigned again *)
       d <- now ;;
       let task := set_lastCheckedAt d task in
       n <- now ;;
       let task := set_nextCheckAt (n + minutes 15) task in
       Task_save task).

(** TaskMonitorProcessor.ts, [monitorTaskConditions(job)] *)
Definition monitorTaskConditions (job : MonitorJob) : Async World unit :=
  try_catch
    (let type_ := "eth-transfer" in
     let networkToMonitor := "sepolia" in
     date <- now ;;
     tasks <- Task_find (due_query type_ networkToMonitor date) ;;
     for_of tasks (check_task type_ networkToMonitor))
    (fun error => throw error).

(** ** Execution worker *)

Definition failure (msg : string) : ExecutionResult :=
  {| success := false; r_transactionHash := None;
     r_error := Some msg; r_details := None |}.

(** [error.message || 'Unknown error'] *)
Definition message_or_unknown (e : Error) : string :=
  if (message e =? "")%string then "Unknown error" else message e.

(** TaskExecutionProcessor.ts, [executeETHTransfer(task, user)] *)
Definition executeETHTransfer (task : Task) (user : User) : Async World ExecutionResult :=
  try_catch
    (let configuration := configuration task in
     let sessionKeyId_ := match sessionKeyId task with Some k => k | None => "" end in
     sessionKey <- consult (fun n => session_keys env n sessionKeyId_) ;;
     match sessionKey with
     | None => ret (failure "Session key not found or missing private key")
     | Some sessionKey =>
       if negb (truthy (privateKey sessionKey)) then
         ret (failure "Session key not found or missing private key")
       else
         let recipientAddress_ :=
           or_else (recipientAddress configuration) (recipient configuration) in
         let amount_ := amount configuration in
         match recipientAddress_, amount_ with
         | Some to_, Some amount_ =>
           if negb (truthy recipientAddress_) || negb (truthy (Some amount_)) then
             ret (failure "Missing required parameters: recipientAddress or amount")
           else
             let network_ := "sepolia" in
             let details_ :=
               {| d_recipientAddress := to_; d_amount := amount_; d_network := network_ |} in
             let direct : Async World ExecutionResult :=
               match ETH_TRANSFER_EXECUTOR_ADDRESS env with
               | None => ret (failure "ETH transfer executor address not configured")
               | Some executorAddress =>
                 if negb (truthy (Some executorAddress)) then
                   ret (failure "ETH transfer executor address not configured")
                 else
                   result <- consult (fun n =>
                     chain_transfer env n sessionKeyId_ executorAddress to_ amount_) ;;
                   (* For testnet demo, simulate a successful transaction *)
                   if strict_eq (NODE_ENV env) "development" then
                     r <- consult (random_hex env) ;;
                     ret {| success := true;
                            r_transactionHash := Some (String.append "0x" r);
                            r_error := None;
                            r_details := Some details_ |}
                   else ret result
               end in
             if truthy (agentId user) then
               let agentId_ := match agentId user with Some a => a | None => "" end in
               try_catch
                 (result <- ask (fun n =>
                     ai_bridge env n agentId_ sessionKeyId_ to_ amount_)
                     "Error executing ETH transfer via AI agent" ;;
                  ret {| success := true;
                         r_transactionHash := result;
                         r_error := None;
                         r_details := Some details_ |})
                 (fun _ => (* Fall back to direct execution *) direct)
             else direct
         | _, _ => ret (failure "Missing required parameters: recipientAddress or amount")
         end
     end)
    (fun error => ret (failure (message_or_unknown error))).

(** TaskExecutionProcessor.ts, [executeTask(job)] *)
Definition executeTask (job : Job) : Async World unit :=
  try_catch
    (let taskId_ := taskId job in
     let taskType_ := taskType job in
     task <- Task_findById taskId_ ;;
     match task with
     | None => throw (Err (String.append "Task " (String.append taskId_ " not found")))
     | Some task =>
       (* Check task is still active *)
       if negb (TaskStatus_eqb (status task) active) then ret tt
       else
         user <- User_findById (userId task) ;;
         match user with
         | None =>
             throw (Err (String.append "User for task "
                           (String.append taskId_ " not found")))
         | Some user =>
           if negb (truthy (sessionKeyId task)) then
             throw (Err (String.append "Task " (String.append taskId_ " has no session key")))
           else
             executionResult <-
               (if (taskType_ =? "eth-transfer")%string
                then executeETHTransfer task user
                else throw (Err (String.append "Unsupported task type: " taskType_))) ;;
             t <- now ;;
             let historyEntry :=
               {| timestamp := t;
                  action := String.append "Execute " taskType_;
                  h_status := if success executionResult then h_success else h_failed;
                  transactionHash := r_transactionHash executionResult;
                  error := r_error executionResult;
                  details := r_details executionResult |} in
             let task := set_executionHistory (history task ++ [historyEntry]) task in
             t' <- now ;;
             let task := set_lastExecutedAt t' task in
             (* For one-time tasks, mark as completed *)
             let task :=
               if strict_eq (executionType (configuration task)) "one-time"
                  && success executionResult
               then set_status completed task else task in
             Task_save task
         end
     end)
    (fun error => throw error).

End Processors.

End EthTransfer.

(* ===================================================================== *)
(** * Multi-type backend *)
(* ===================================================================== *)

Module MultiTask.
Import Js.
Local Open Scope async_scope.

(** ** Data model (models/task.model.ts) *)

Inductive TaskStatus : Type :=
  | ACTIVE | PAUSED | COMPLETED | FAILED | PENDING.

Definition TaskStatus_eqb (a b : TaskStatus) : bool :=
  match a, b with
  | ACTIVE, ACTIVE | PAUSED, PAUSED | COMPLETED, COMPLETED
  | FAILED, FAILED | PENDING, PENDING => true
  | _, _ => false
  end.

Inductive ExecutionStatus : Type :=
  | EXEC_PENDING | EXEC_PROCESSING | EXEC_SUCCESSFUL | EXEC_FAILED | EXEC_NO_ACTION.

Definition Date : Type := Z.

Record TaskRule : Type := {
  rule_type : string;
  condition : string;
  parameters : list (string * string)
}.

Record ExecutionRecord : Type := {
  timestamp : Date;
  exec_status : ExecutionStatus;
  details : option string;
  txHash : option string;
  errorMessage : option string
}.

Record Task : Type := {
  taskId : string;
  userId : string;
  walletAddress : string;
  type : string;
  status : TaskStatus;
  rules : list TaskRule;
  metadata : list (string * string);
  lastExecuted : option Date;
  executionHistory : list ExecutionRecord
}.

(** The queues of queue.provider.ts. *)
Inductive QueueName : Type :=
  | DAO_VOTE | TOKEN_PURCHASE | TOKEN_SWAP | STAKING
  | LIQUIDITY | NFT_PURCHASE | YIELD_OPTIMIZATION | REWARD_CLAIM.

(** [taskQueueMap[taskType]] *)
Definition taskQueueMap (taskType : string) : option QueueName :=
  if (taskType =? "dao_vote")%string then Some DAO_VOTE
  else if (taskType =? "buy_token")%string then Some TOKEN_PURCHASE
  else if (taskType =? "token_swap")%string then Some TOKEN_SWAP
  else if (taskType =? "staking")%string then Some STAKING
  else if (taskType =? "liquidity_provision")%string then Some LIQUIDITY
  else if (taskType =? "nft_purchase")%string then Some NFT_PURCHASE
  else if (taskType =? "yield_optimization")%string then Some YIELD_OPTIMIZATION
  else if (taskType =? "claim_rewards")%string then Some REWARD_CLAIM
  else None.

(** The data a task is enqueued with. *)
Record JobData : Type := {
  job_taskId : string;
  job_walletAddress : string;
  job_userId : string;
  job_rules : list TaskRule;
  job_metadata : list (string * string);
  job_type : string
}.

Record QueuedJob : Type := {
  queue : QueueName;
  job_name : string;
  data : JobData
}.

(** An activity record handed to the activity log. *)
Record Activity : Type := {
  activity_taskId : string;
  activity_details : string;
  activity_error : string
}.

Record World : Type := {
  tasks : list Task;
  queued : list QueuedJob;
  activities : list Activity;
  events : nat
}.

Record Env : Type := {
  clock : nat -> Date;
  fault : nat -> bool
}.

(** What a processor returns to the worker. *)
Record Result : Type := {
  result_status : ExecutionStatus;
  result_message : string
}.

Definition tick (w : World) : World :=
  {| tasks := tasks w; queued := queued w;
     activities := activities w; events := S (events w) |}.

Definition set_tasks (l : list Task) (w : World) : World :=
  {| tasks := l; queued := queued w;
     activities := activities w; events := events w |}.

Definition set_queued (q : list QueuedJob) (w : World) : World :=
  {| tasks := tasks w; queued := q;
     activities := activities w; events := events w |}.

Definition set_activities (a : list Activity) (w : World) : World :=
  {| tasks := tasks w; queued := queued w;
     activities := a; events := events w |}.

Definition push_record (r : ExecutionRecord) (t : Task) : Task :=
  {| taskId := taskId t; userId := userId t; walletAddress := walletAddress t;
     type := type t; status := status t; rules := rules t;
     metadata := metadata t; lastExecuted := lastExecuted t;
     executionHistory := executionHistory t ++ [r] |}.

Definition set_lastExecuted (d : Date) (t : Task) : Task :=
  {| taskId := taskId t; userId := userId t; walletAddress := walletAddress t;
     type := type t; status := status t; rules := rules t;
     metadata := metadata t; lastExecuted := Some d;
     executionHistory := executionHistory t |}.

Section Scheduler.

Variable env : Env.

Definition now : Async World Date :=
  fun w => (Normal (clock env (events w)), tick w).

Definition call {A : Type} (op : World -> A * World) : Async World A :=
  fun w =>
    if fault env (events w) then (Throw (Err "connection error"), tick w)
    else let (a, w') := op w in (Normal a, tick w').

(** [Task.find(query)] *)
Definition Task_find (query : Task -> bool) : Async World (list Task) :=
  call (fun w => (filter query (tasks w), w)).

(** [Task.findOne({ taskId })] *)
Definition Task_findOne (id : string) : Async World (option Task) :=
  call (fun w => (find (fun t => (taskId t =? id)%string) (tasks w), w)).

(** [task.save()] *)
Definition Task_save (task : Task) : Async World unit :=
  call (fun w =>
    (tt, set_tasks (map (fun d => if (taskId d =? taskId task)%string then task else d)
                        (tasks w)) w)).

(** [createActivity(data)] of the activity service *)
Definition createActivity (a : Activity) : Async World unit :=
  call (fun w => (tt, set_activities (activities w ++ [a]) w)).

(** queue.provider.ts, [enqueueTask(taskType, data)] *)
Definition enqueueTask (taskType : string) (data : JobData) : Async World unit :=
  match taskQueueMap taskType with
  | None => throw (Err (String.append "No queue found for task type: " taskType))
  | Some q =>
      call (fun w =>
        (tt, set_queued (queued w ++
               [{| queue := q;
                   job_name := String.append "task-" (job_taskId data);
                   data := data |}]) w))
  end.

(** The scheduler's [scheduleTask(task)]; the result is [true], [false] or
    [undefined] ([None]). *)
Definition scheduleTask (task : Task) : Async World (option bool) :=
  (* Skip if task is not active *)
  if negb (TaskStatus_eqb (status task) ACTIVE) then ret None
  else
    try_catch
      (enqueueTask (type task)
         {| job_taskId := taskId task;
            job_walletAddress := walletAddress task;
            job_userId := userId task;
            job_rules := rules task;
            job_metadata := metadata task;
            job_type := type task |} ;;;
       ret (Some true))
      (fun _ => ret (Some false)).

(** The scheduler's [scheduleTasksByType(taskType)] *)
Definition scheduleTasksByType (taskType : string) : Async World bool :=
  try_catch
    (tasks <- Task_find (fun t => (type t =? taskType)%string
                                  && TaskStatus_eqb (status t) ACTIVE) ;;
     for_of tasks (fun task => scheduleTask task ;;; ret tt) ;;;
     ret true)
    (fun _ => ret false).

(** The scheduler's [forceRecheckAllTasks()]; the result is its [success] flag. *)
Definition forceRecheckAllTasks : Async World bool :=
  try_catch
    (tasks <- Task_find (fun t => TaskStatus_eqb (status t) ACTIVE) ;;
     for_of tasks (fun task => scheduleTask task ;;; ret tt) ;;;
     ret true)
    (fun _ => ret false).

(** The part of [processTokenPurchaseTask] that follows the check that the
    task is active: rule lookup, price check on floating point prices and the
    simulated purchase. Beside its completion it yields the task object as
    its assignments left it, which is what the error handler sees. *)
Variable purchase : Task -> World -> Completion Result * Task * World.

(** The [catch] block of [processTokenPurchaseTask]; [task] is the local
    variable of that name, undefined ([None]) until the fetch has returned. *)
Definition purchase_failed (task : option Task) (error : Error) : Async World Result :=
  match task with
  | Some task =>
      (* Record error in task history if task exists *)
      t <- now ;;
      let task :=
        push_record {| timestamp := t; exec_status := EXEC_FAILED;
                       details := Some "Failed to process token purchase task";
                       txHash := None;
                       errorMessage := Some (message error) |} task in
      t' <- now ;;
      let task := set_lastExecuted t' task in
      Task_save task ;;;
      createActivity {| activity_taskId := taskId task;
                        activity_details := "Failed to process token purchase task";
                        activity_error := message error |}
  | None => ret tt
  end ;;;
  ret {| result_status := EXEC_FAILED;
         result_message := String.append "Error processing task: " (message error) |}.

(** task.processor.ts, [processTokenPurchaseTask(taskData)] *)
Definition processTokenPurchaseTask (taskData_taskId : string) : Async World Result :=
  let taskId_ := taskData_taskId in
  fun w =>
    match Task_findOne taskId_ w with
    | (Throw error, w1) => purchase_failed None error w1
    | (Normal None, w1) =>
        purchase_failed None
          (Err (String.append "Task " (String.append taskId_ " not found"))) w1
    | (Normal (Some task), w1) =>
        (* Skip if task is not active *)
        if negb (TaskStatus_eqb (status task) ACTIVE) then
          (Normal {| result_status := EXEC_NO_ACTION;
                     result_message := "Task is not active" |}, w1)
        else
          match purchase task w1 with
          | (Normal r, _, w2) => (Normal r, w2)
          | (Throw error, task', w2) => purchase_failed (Some task') error w2
          end
    end.

End Scheduler.

End MultiTask.


(* ===================================================================== *)
(** * Vocabulary of the statements *)
(* ===================================================================== *)

Module Pipeline.
Import Js.
Import EthTransfer.

(** A computation that leaves the collections and the queue alone. *)
Definition same_store (w w' : World) : Prop :=
  tasks w' = tasks w /\ users w' = users w /\
  executionQueue w' = executionQueue w /\ (events w <= events w')%nat.

(** A computation that only reads. *)
Definition read_only {A : Type} (m : Async World A) : Prop :=
  forall w, same_store w (snd (m w)).

(** [t'] is [t] up to the scheduling bookkeeping [lastCheckedAt] and
    [nextCheckAt]. *)
Definition rescheduled (t t' : Task) : Prop :=
  _id t' = _id t /\ userId t' = userId t /\ type t' = type t /\
  sessionKeyId t' = sessionKeyId t /\ configuration t' = configuration t /\
  conditions t' = conditions t /\ network t' = network t /\
  status t' = status t /\ lastExecutedAt t' = lastExecutedAt t /\
  executionHistory t' = executionHistory t.

(** What a poll changes: jobs are appended for selected tasks only, and
    every stored task is a stored task of before, up to its bookkeeping. *)
Definition polled (selected : list Task) (w w' : World) : Prop :=
  users w' = users w /\
  (exists jobs,
      executionQueue w' = (executionQueue w ++ jobs)%list /\
      forall j, In j jobs -> exists t, In t selected /\ taskId (fst j) = _id t) /\
  (forall t', In t' (tasks w') -> exists t, In t (tasks w) /\ rescheduled t t').

(** The store after [task.save()]. *)
Definition saved (task : Task) (l : list Task) : list Task :=
  map (fun d => if (_id d =? _id task)%string then task else d) l.

(** [nextCheckAt >= lastCheckedAt] on a stored task, both dates set. *)
Definition schedule_ordered (t : Task) : Prop :=
  match nextCheckAt t, lastCheckedAt t with
  | Some n, Some c => n >= c
  | _, _ => False
  end.

(** The task the worker saves after an execution with result [r], the
    history entry stamped [t] and the execution stamped [t']. *)
Definition executed (task : Task) (r : ExecutionResult) (t t' : Date) : Task :=
  let entry :=
    {| timestamp := t;
       action := "Execute eth-transfer";
       h_status := if success r then h_success else h_failed;
       transactionHash := r_transactionHash r;
       error := r_error r;
       details := r_details r |} in
  let task' := set_lastExecutedAt t' (set_executionHistory (history task ++ [entry]) task) in
  if strict_eq (executionType (configuration task)) "one-time" && success r
  then set_status completed task' else task'.

(** Number of 'success' entries of an execution history. *)
Definition is_success (e : HistoryEntry) : bool :=
  match h_status e with
  | h_success => true
  | _ => false
  end.

Definition successes (t : Task) : nat :=
  List.length (filter is_success (history t)).

Definition one_time (t : Task) : Prop :=
  executionType (configuration t) = Some "one-time".

(** What the worker maintains on a one-time task: no success is recorded
    while the task is active, and never more than one. *)
Definition one_time_ok (t : Task) : Prop :=
  one_time t ->
  (successes t <= 1)%nat /\ (status t = active -> successes t = 0%nat).

End Pipeline.

(* ===================================================================== *)
(** * Concrete tasks, stores and surroundings *)
(* ===================================================================== *)

Module Scenario.
Import Js.
Import EthTransfer.

Definition delegator : User :=
  {| user_id := "u1"; address := "0x00000000000000000000000000000000000000d1";
     agentId := None |}.

Definition transfer (kind : string) : Configuration :=
  {| recipientAddress := Some "0x00000000000000000000000000000000000000a1";
     recipient := None;
     amount := Some "10000000000000000";
     executionType := Some kind |}.

(** Gas price below 20 gwei. *)
Definition gas_below_20_gwei : Conditions :=
  {| conditionType := Some "gas_price";
     priceCondition := None;
     balanceCondition := None;
     gasPriceCondition :=
       Some {| gas_type := Some "below"; gasPriceThreshold := Some "20000000000" |} |}.

(** Price below 3000, reference price 3150. *)
Definition price_below_3000 : Conditions :=
  {| conditionType := Some "price_threshold";
     priceCondition :=
       Some {| price_type := Some "below"; priceThreshold := Some "3000";
               referencePrice := Some "3150" |};
     balanceCondition := None;
     gasPriceCondition := None |}.

(** Balance of the delegator above or below one ether. *)
Definition balance_one_ether (direction : string) : Conditions :=
  {| conditionType := Some "balance_threshold";
     priceCondition := None;
     balanceCondition :=
       Some {| balance_type := Some direction;
               balanceThreshold := Some "1000000000000000000" |};
     gasPriceCondition := None |}.

(** Price at the threshold, in either direction. *)
Definition price_at (direction threshold : string) : Conditions :=
  {| conditionType := Some "price_threshold";
     priceCondition :=
       Some {| price_type := Some direction; priceThreshold := Some threshold;
               referencePrice := None |};
     balanceCondition := None;
     gasPriceCondition := None |}.

(** A rule type the scheduler does not know. *)
Definition custom_text : Conditions :=
  {| conditionType := Some "custom-text";
     priceCondition := None;
     balanceCondition := None;
     gasPriceCondition := None |}.

(** A task of the delegator, due since time 1000, never checked or executed. *)
Definition task_of (id : string) (st : TaskStatus) (kind : string) (c : Conditions) : Task :=
  {| _id := id; userId := "u1"; type := "eth-transfer";
     sessionKeyId := Some "0x00000000000000000000000000000000000000c1";
     configuration := transfer kind;
     conditions := c;
     network := "sepolia";
     status := st;
     lastExecutedAt := None;
     nextCheckAt := Some 1000;
     lastCheckedAt := None;
     executionHistory := Some [] |}.

Definition store (l : list Task) : World :=
  {| tasks := l; users := [delegator]; executionQueue := []; events := 0 |}.

(** Surroundings without rejected calls: the n-th interaction happens at time
    2000 + n, the feeds answer as given, transactions confirm. *)
Definition outside (price gas balance : option string) : Env :=
  {| clock := fun n => 2000 + Z.of_nat n;
     fault := fun _ => false;
     price_feed := fun _ => price;
     rpc_balance := fun _ _ => balance;
     rpc_gasPrice := fun _ => gas;
     session_keys := fun _ _ => Some {| privateKey := Some "5e55104" |};
     ai_bridge := fun _ _ _ _ _ => None;
     ETH_TRANSFER_EXECUTOR_ADDRESS := Some "0x00000000000000000000000000000000000000e1";
     chain_transfer := fun _ _ _ _ _ =>
       {| success := true; r_transactionHash := Some "0xfeed";
          r_error := None; r_details := None |};
     NODE_ENV := Some "production";
     random_hex := fun _ => "0" |}.

(** The same surroundings with the store or queue call made at interaction
    [n] rejected. *)
Definition outside_rejecting (n : nat) (price gas balance : option string) : Env :=
  {| clock := clock (outside price gas balance);
     fault := fun k => (k =? n)%nat;
     price_feed := price_feed (outside price gas balance);
     rpc_balance := rpc_balance (outside price gas balance);
     rpc_gasPrice := rpc_gasPrice (outside price gas balance);
     session_keys := session_keys (outside price gas balance);
     ai_bridge := ai_bridge (outside price gas balance);
     ETH_TRANSFER_EXECUTOR_ADDRESS :=
       ETH_TRANSFER_EXECUTOR_ADDRESS (outside price gas balance);
     chain_transfer := chain_transfer (outside price gas balance);
     NODE_ENV := NODE_ENV (outside price gas balance);
     random_hex := random_hex (outside price gas balance) |}.

(** What the price feed of the repository answers. *)
Definition mock_feed : string := mock_ETH_price.

Definition poll : MonitorJob :=
  {| m_taskType := "eth-transfer"; m_network := "sepolia" |}.

Definition job_for (id : string) : Job :=
  {| taskId := id; taskType := "eth-transfer"; job_network := "sepolia" |}.

(** The multi-type backend: a paused token purchase task. *)
Definition paused_purchase : MultiTask.Task :=
  {| MultiTask.taskId := "p1"; MultiTask.userId := "u1";
     MultiTask.walletAddress := "0x00000000000000000000000000000000000000d1";
     MultiTask.type := "buy_token";
     MultiTask.status := MultiTask.PAUSED;
     MultiTask.rules := [];
     MultiTask.metadata := [];
     MultiTask.lastExecuted := None;
     MultiTask.executionHistory := [] |}.

Definition multi_store (l : list MultiTask.Task) : MultiTask.World :=
  {| MultiTask.tasks := l; MultiTask.queued := [];
     MultiTask.activities := []; MultiTask.events := 0 |}.

Definition multi_outside : MultiTask.Env :=
  {| MultiTask.clock := fun n => 2000 + Z.of_nat n;
     MultiTask.fault := fun _ => false |}.

(** A remainder of the token purchase processor that reports no action. *)
Definition no_purchase (t : MultiTask.Task) (w : MultiTask.World)
    : Completion MultiTask.Result * MultiTask.Task * MultiTask.World :=
  (Normal {| MultiTask.result_status := MultiTask.EXEC_NO_ACTION;
             MultiTask.result_message := "Price condition not met" |}, t, w).

End Scenario.

(* ===================================================================== *)
(** * In-memory rate limiter (utils/rate-limit.ts) *)
(* ===================================================================== *)

Module RateLimiter.

(** Times, window lengths, counts and limits are JavaScript numbers that
    hold integers (milliseconds from [Date.now()], request counts), on which
    the arithmetic used here is exact; they are integers below. *)

Record Counter : Type := {
  count : Z;
  resetAt : Z
}.

(** [Map<string, Counter>]: the entries in insertion order, one per key. *)
Definition Limits : Type := list (string * Counter).

(** [limits.get(key)] *)
Fixpoint Map_get (key : string) (m : Limits) : option Counter :=
  match m with
  | [] => None
  | (k, c) :: m' => if (k =? key)%string then Some c else Map_get key m'
  end.

(** [limits.set(key, counter)]: an existing key keeps its place. *)
Fixpoint Map_set (key : string) (c : Counter) (m : Limits) : Limits :=
  match m with
  | [] => [(key, c)]
  | (k, c') :: m' =>
      if (k =? key)%string then (k, c) :: m' else (k, c') :: Map_set key c m'
  end.

(** [limits.delete(key)] *)
Fixpoint Map_delete (key : string) (m : Limits) : Limits :=
  match m with
  | [] => []
  | (k, c) :: m' => if (k =? key)%string then m' else (k, c) :: Map_delete key m'
  end.

Record RateLimit : Type := {
  limits : Limits;
  defaultWindowMs : Z;
  defaultMax : Z
}.

(** A parameter with a default value. *)
Definition or_default (v : option Z) (d : Z) : Z :=
  match v with
  | Some x => x
  | None => d
  end.

(** [new RateLimit({ windowMs = 60000, max = 100 })]; the timer it starts
    calls [cleanup] every minute. *)
Definition create (windowMs max : option Z) : RateLimit :=
  {| limits := [];
     defaultWindowMs := or_default windowMs 60000;
     defaultMax := or_default max 100 |}.

Definition set_limits (m : Limits) (r : RateLimit) : RateLimit :=
  {| limits := m; defaultWindowMs := defaultWindowMs r; defaultMax := defaultMax r |}.

(** [increment(key, windowMs = defaultWindowMs, max = defaultMax)] at time
    [now]; the result tells whether the limit is exceeded. *)
Definition increment (now : Z) (key : string) (windowMs max : option Z) (r : RateLimit)
    : bool * RateLimit :=
  let windowMs := or_default windowMs (defaultWindowMs r) in
  let max := or_default max (defaultMax r) in
  let fresh := {| count := 0; resetAt := now + windowMs |} in
  let counter :=
    match Map_get key (limits r) with
    | Some c => if resetAt c <? now then fresh else c
    | None => fresh
    end in
  let counter := {| count := count counter + 1; resetAt := resetAt counter |} in
  (count counter >? max, set_limits (Map_set key counter (limits r)) r).

(** [Math.ceil(x / 1000)] for an integer [x] *)
Definition ceil_seconds (x : Z) : Z := - ((- x) / 1000).

(** [getRetryAfter(key)] at time [now] *)
Definition getRetryAfter (now : Z) (key : string) (r : RateLimit) : Z :=
  match Map_get key (limits r) with
  | None => 0
  | Some counter => Z.max 0 (ceil_seconds (resetAt counter - now))
  end.

(** [clear(key)] *)
Definition clear (key : string) (r : RateLimit) : RateLimit :=
  set_limits (Map_delete key (limits r)) r.

(** [cleanup()] at time [now]: the expired entries are deleted. *)
Definition cleanup (now : Z) (r : RateLimit) : RateLimit :=
  set_limits (filter (fun kc => negb (resetAt (snd kc) <? now)) (limits r)) r.

(** A series of [increment] calls for one key, at the given times. *)
Fixpoint increments (times : list Z) (key : string) (windowMs max : option Z)
    (r : RateLimit) : list bool * RateLimit :=
  match times with
  | [] => ([], r)
  | t :: times' =>
      let (b, r1) := increment t key windowMs max r in
      let (bs, r2) := increments times' key windowMs max r1 in
      (b :: bs, r2)
  end.

End RateLimiter.

(* ===================================================================== *)
(** * Session keys and delegations (SessionKeyService.ts, dtkAuth.ts) *)
(* ===================================================================== *)

Module SessionKeys.
Import Js.
Local Open Scope async_scope.

(** ** Data model (models/User.ts) *)

Definition Date : Type := Z.

Inductive DelegationStatus : Type :=
  | active | expired | revoked.

Definition DelegationStatus_eqb (a b : DelegationStatus) : bool :=
  match a, b with
  | active, active | expired, expired | revoked, revoked => true
  | _, _ => false
  end.

Record Permission : Type := {
  contractAddress : string;
  functionSelectors : list string;
  tokenIds : list Z
}.

Record Delegation : Type := {
  sessionKeyAddress : string;
  privateKey : option string;
  createdAt : Date;
  expiresAt : Date;
  permissions : list Permission;
  status : DelegationStatus
}.

(** A user document; [address] carries a unique index and identifies it. *)
Record User : Type := {
  address : string;
  delegations : list Delegation
}.

(** The permission of a delegation request, before it is stored. *)
Record RequestedPermission : Type := {
  target : string;
  req_functionSelectors : list string;
  req_tokenIds : option (list Z)
}.

Record DelegationRequest : Type := {
  delegatorAddress : string;
  req_sessionKeyAddress : string;
  req_permissions : list RequestedPermission;
  expiryTimestamp : Z                      (* unix time, in seconds *)
}.

Record World : Type := {
  users : list User;
  events : nat
}.

(** The outside: the clock, whether a database call is rejected, and the
    cipher the private keys are stored with (encryption draws a random
    initialisation vector and may fail, decryption may fail). *)
Record Env : Type := {
  clock : nat -> Date;
  fault : nat -> bool;
  encryptPrivateKey : nat -> string -> option string;
  decryptPrivateKey : string -> option string
}.

Definition set_users (l : list User) (w : World) : World :=
  {| users := l; events := events w |}.

Definition tick (w : World) : World :=
  {| users := users w; events := S (events w) |}.

Definition set_status (s : DelegationStatus) (d : Delegation) : Delegation :=
  {| sessionKeyAddress := sessionKeyAddress d; privateKey := privateKey d;
     createdAt := createdAt d; expiresAt := expiresAt d;
     permissions := permissions d; status := s |}.

Definition set_privateKey (k : option string) (d : Delegation) : Delegation :=
  {| sessionKeyAddress := sessionKeyAddress d; privateKey := k;
     createdAt := createdAt d; expiresAt := expiresAt d;
     permissions := permissions d; status := status d |}.

Definition set_delegations (l : list Delegation) (u : User) : User :=
  {| address := address u; delegations := l |}.

(** [s.toLowerCase()] on strings of ASCII characters (addresses). *)
Definition lower_char (c : ascii) : ascii :=
  let n := nat_of_ascii c in
  if ((65 <=? n) && (n <=? 90))%nat then ascii_of_nat (n + 32) else c.

Fixpoint toLowerCase (s : string) : string :=
  match s with
  | EmptyString => EmptyString
  | String c s' => String (lower_char c) (toLowerCase s')
  end.

(** [d.sessionKeyAddress === key] *)
Definition has_key (key : string) (d : Delegation) : bool :=
  (sessionKeyAddress d =? key)%string.

(** A document as a query without [select] returns it: [privateKey] is
    declared [select: false] and left out. *)
Definition selected (u : User) : User :=
  set_delegations (map (set_privateKey None) (delegations u)) u.

(** The query [{ address: a.toLowerCase() }]. *)
Definition by_address (a : string) (u : User) : bool :=
  (address u =? toLowerCase a)%string.

(** The first element of [l] that satisfies [p] replaced by its image. *)
Fixpoint update_first {A : Type} (p : A -> bool) (f : A -> A) (l : list A) : list A :=
  match l with
  | [] => []
  | x :: l' => if p x then f x :: l' else x :: update_first p f l'
  end.

(** The collection after the delegations of the document of address [a]
    were changed by [f] and written back. *)
Definition saved_delegations (a : string)
    (f : list Delegation -> list Delegation) (l : list User) : list User :=
  map (fun u => if (address u =? a)%string
                then set_delegations (f (delegations u)) u else u) l.

Section Service.

Variable env : Env.

Definition now : Async World Date :=
  fun w => (Normal (clock env (events w)), tick w).

Definition call {A : Type} (op : World -> A * World) : Async World A :=
  fun w =>
    if fault env (events w) then (Throw (Err "connection error"), tick w)
    else let (a, w') := op w in (Normal a, tick w').

(** [User.findOne(query)] *)
Definition User_findOne (query : User -> bool) : Async World (option User) :=
  call (fun w => (option_map selected (find query (users w)), w)).

(** [User.create({ address })] *)
Definition User_create (addr : string) : Async World User :=
  call (fun w =>
    let user := {| address := addr; delegations := [] |} in
    (user, set_users (users w ++ [user]) w)).

(** [user.save()]: the paths assigned on the document, given as the change
    [f] of the delegations, are written to the stored document. *)
Definition User_save (user : User) (f : list Delegation -> list Delegation)
    : Async World unit :=
  call (fun w => (tt, set_users (saved_delegations (address user) f (users w)) w)).

(** ** SessionKeyService *)

(** The query of [hasPermission]: each condition on a field of the
    [delegations] array holds when some element satisfies it. *)
Definition permission_query (key : string) (date : Date) (u : User) : bool :=
  existsb (has_key key) (delegations u)
  && existsb (fun d => DelegationStatus_eqb (status d) active) (delegations u)
  && existsb (fun d => date <? expiresAt d) (delegations u).

(** [p.contractAddress.toLowerCase() === contractAddress.toLowerCase() &&
     p.functionSelectors.includes(functionSelector)] *)
Definition permits (contract selector : string) (p : Permission) : bool :=
  (toLowerCase (contractAddress p) =? toLowerCase contract)%string
  && existsb (fun s => (s =? selector)%string) (functionSelectors p).

(** [hasPermission(sessionKeyAddress, contractAddress, functionSelector)] *)
Definition hasPermission (key contract selector : string) : Async World bool :=
  try_catch
    (date <- now ;;
     user <- User_findOne (permission_query key date) ;;
     match user with
     | None => ret false
     | Some user =>
         (* Find the delegation *)
         match find (has_key key) (delegations user) with
         | None => ret false
         | Some delegation =>
             (* Check if the delegation has the required permission *)
             ret (existsb (permits contract selector) (permissions delegation))
         end
     end)
    (fun _ => ret false).

(** Mark a delegation expired when it is active and past its expiry. *)
Definition expire (date : Date) (d : Delegation) : Delegation :=
  if DelegationStatus_eqb (status d) active && (expiresAt d <? date)
  then set_status expired d else d.

Definition is_active (d : Delegation) : bool :=
  DelegationStatus_eqb (status d) active.

(** [getUserDelegations(userAddress)] *)
Definition getUserDelegations (userAddress : string) : Async World (list Delegation) :=
  try_catch
    (user <- User_findOne (by_address userAddress) ;;
     match user with
     | None => ret []
     | Some user =>
         (* Update expired delegations *)
         date <- now ;;
         let modified :=
           existsb (fun d => is_active d && (expiresAt d <? date)) (delegations user) in
         let user' := set_delegations (map (expire date) (delegations user)) user in
         (* Save if we updated any *)
         (if modified then User_save user (map (expire date)) else ret tt) ;;;
         (* Filter to only active delegations *)
         ret (filter is_active (delegations user'))
     end)
    (fun _ => ret []).

(** [revokeDelegation(userAddress, sessionKeyAddress)] *)
Definition revokeDelegation (userAddress key : string) : Async World bool :=
  try_catch
    (user <- User_findOne (by_address userAddress) ;;
     match user with
     | None => ret false
     | Some user =>
         (* Find and update the delegation *)
         if negb (existsb (has_key key) (delegations user)) then ret false
         else
           User_save user (update_first (has_key key) (set_status revoked)) ;;;
           ret true
     end)
    (fun _ => ret false).

(** The stored form of a requested permission. *)
Definition dbPermission (perm : RequestedPermission) : Permission :=
  {| contractAddress := toLowerCase (target perm);
     functionSelectors := req_functionSelectors perm;
     tokenIds := match req_tokenIds perm with Some l => l | None => [] end |}.

(** An existing delegation of the session key is replaced, else the new one
    is pushed. *)
Definition upsert (delegation : Delegation) (l : list Delegation) : list Delegation :=
  if existsb (has_key (sessionKeyAddress delegation)) l
  then update_first (has_key (sessionKeyAddress delegation)) (fun _ => delegation) l
  else l ++ [delegation].

(** [if (storePrivateKey && privateKey)
      delegation.privateKey = this.encryptPrivateKey(privateKey)] *)
Definition attach_private_key (storePrivateKey : bool)
    (privateKey_ : option string) (delegation : Delegation)
    : Async World Delegation :=
  match privateKey_ with
  | Some pk =>
      if storePrivateKey && truthy privateKey_ then
        fun w =>
          match encryptPrivateKey env (events w) pk with
          | Some enc => (Normal (set_privateKey (Some enc) delegation), tick w)
          | None => (Throw (Err "Failed to encrypt session key"), tick w)
          end
      else ret delegation
  | None => ret delegation
  end.

(** [saveDelegation(delegationRequest, storePrivateKey = false, privateKey)];
    the check that the permissions include the executor contract only logs a
    warning. *)
Definition saveDelegation (request : DelegationRequest)
    (storePrivateKey : bool) (privateKey_ : option string) : Async World bool :=
  try_catch
    ((* Find or create user *)
     found <- User_findOne (by_address (delegatorAddress request)) ;;
     user <- match found with
             | Some user => ret user
             | None => User_create (toLowerCase (delegatorAddress request))
             end ;;
     (* Convert permissions to our DB format *)
     let dbPermissions := map dbPermission (req_permissions request) in
     created <- now ;;
     let delegation :=
       {| sessionKeyAddress := req_sessionKeyAddress request;
          privateKey := None;
          createdAt := created;
          expiresAt := expiryTimestamp request * 1000;
          permissions := dbPermissions;
          status := active |} in
     (* If we're storing the private key (for managed keys) *)
     delegation <- attach_private_key storePrivateKey privateKey_ delegation ;;
     (* Check for existing delegation with this session key and update it *)
     User_save user (upsert delegation) ;;;
     ret true)
    (fun _ => ret false).

(** The delegation the query [{ 'delegations.sessionKeyAddress': key }] with
    the projection [{ 'delegations.$': 1 }] yields: the first element of that
    key of the first user that has one, with its private key. *)
Definition first_delegation (key : string) (l : list User) : option Delegation :=
  match find (fun u => existsb (has_key key) (delegations u)) l with
  | Some u => find (has_key key) (delegations u)
  | None => None
  end.

(** [User.updateOne({ 'delegations.sessionKeyAddress': key },
                    { $set: { 'delegations.$.status': 'expired' } })] *)
Definition User_expire_first (key : string) : Async World unit :=
  call (fun w =>
    (tt, set_users
           (update_first (fun u => existsb (has_key key) (delegations u))
              (fun u => set_delegations
                          (update_first (has_key key) (set_status expired)
                             (delegations u)) u)
              (users w)) w)).

(** The stored private key replaced by its decryption, or by [undefined]
    when the decryption fails. *)
Definition with_decrypted_key (delegation : Delegation) : Delegation :=
  match privateKey delegation with
  | Some enc =>
      if truthy (privateKey delegation)
      then set_privateKey (decryptPrivateKey env enc) delegation
      else delegation
  | None => delegation
  end.

(** [getSessionKey(sessionKeyAddress)]; [None] is [null]. *)
Definition getSessionKey (key : string) : Async World (option Delegation) :=
  try_catch
    (found <- call (fun w => (first_delegation key (users w), w)) ;;
     match found with
     | None => ret None
     | Some delegation =>
         (* If expired, update status *)
         date <- now ;;
         delegation <-
           (if (expiresAt delegation <? date) && is_active delegation then
              User_expire_first key ;;;
              ret (set_status expired delegation)
            else ret delegation) ;;
         (* If private key exists, decrypt it *)
         ret (Some (with_decrypted_key delegation))
     end)
    (fun _ => ret None).

(** ** dtkAuthMiddleware *)

Record Headers : Type := {
  x_session_key : option string;
  x_contract_address : option string;
  x_function_selector : option string
}.

(** What the middleware does with the request: an error response, or
    [next()] with [req.sessionKey] set. *)
Inductive Outcome : Type :=
  | Unauthorized401
  | Forbidden403
  | ServerError500
  | Next (sessionKey : string).

(** middleware/dtkAuth.ts, [dtkAuthMiddleware(req, res, next)] *)
Definition dtkAuthMiddleware (headers : Headers) : Async World Outcome :=
  try_catch
    (match x_session_key headers with
     | None => ret Unauthorized401
     | Some sessionKeyAddress =>
         if negb (truthy (x_session_key headers)) then ret Unauthorized401
         else
           (* If contract access is being requested, verify permissions *)
           match x_contract_address headers, x_function_selector headers with
           | Some contractAddress, Some functionSelector =>
               if truthy (x_contract_address headers)
                  && truthy (x_function_selector headers) then
                 allowed <- hasPermission sessionKeyAddress contractAddress
                              functionSelector ;;
                 if negb allowed then ret Forbidden403
                 else ret (Next sessionKeyAddress)
               else ret (Next sessionKeyAddress)
           | _, _ => ret (Next sessionKeyAddress)
           end
     end)
    (fun _ => ret ServerError500).

End Service.

(** ** Vocabulary of the statements *)

(** The stored delegations that are active and not past their expiry at
    [date], as a query returns them (without the private key). *)
Definition live (date : Date) (l : list Delegation) : list Delegation :=
  map (set_privateKey None)
      (filter (fun d => is_active d && negb (expiresAt d <? date)) l).

(** No user holds two delegations of one session key. *)
Definition keys_unique (l : list User) : Prop :=
  forall u, In u l -> NoDup (map sessionKeyAddress (delegations u)).

(** No stored delegation is of session key [key]. *)
Definition key_unknown (key : string) (l : list User) : Prop :=
  forall u d, In u l -> In d (delegations u) -> sessionKeyAddress d <> key.

End SessionKeys.

(** Concrete delegations: one delegator and the keys issued to her. *)
Module SessionScenario.
Import SessionKeys.

Definition executor : string := "0x00000000000000000000000000000000000000E1".

Definition transfer_selector : string := "executeTransfer(address,address,uint256)".

Definition transfer_permission : Permission :=
  {| contractAddress := "0x00000000000000000000000000000000000000e1";
     functionSelectors := [transfer_selector];
     tokenIds := [] |}.

(** Revoked, and past its expiry since time 500. *)
Definition revoked_key : Delegation :=
  {| sessionKeyAddress := "0x00000000000000000000000000000000000000c1";
     privateKey := None; createdAt := 0; expiresAt := 500;
     permissions := [transfer_permission]; status := revoked |}.

(** Active until time 9000, without any permission. *)
Definition live_key : Delegation :=
  {| sessionKeyAddress := "0x00000000000000000000000000000000000000c2";
     privateKey := None; createdAt := 0; expiresAt := 9000;
     permissions := []; status := active |}.

(** Past its expiry since time 800 and still stored as active. *)
Definition stale_key : Delegation :=
  {| sessionKeyAddress := "0x00000000000000000000000000000000000000c3";
     privateKey := None; createdAt := 0; expiresAt := 800;
     permissions := [transfer_permission]; status := active |}.

(** A revoked managed key: its private key is stored, encrypted. *)
Definition revoked_managed_key : Delegation :=
  {| sessionKeyAddress := "0x00000000000000000000000000000000000000c1";
     privateKey := Some "iv:5e55104"; createdAt := 0; expiresAt := 9000;
     permissions := [transfer_permission]; status := revoked |}.

Definition alice : User :=
  {| address := "0x00000000000000000000000000000000000000d1";
     delegations := [revoked_key; live_key; stale_key] |}.

Definition store : World := {| users := [alice]; events := 0 |}.

(** A delegator holding the revoked managed key and a live key. *)
Definition managed_store : World :=
  {| users :=
       [{| address := "0x00000000000000000000000000000000000000d1";
           delegations := [revoked_managed_key; live_key] |}];
     events := 0 |}.

(** Surroundings without rejected calls: the n-th interaction happens at
    time 1000 + n; the cipher prefixes a marker and removes it again. *)
Definition outside : Env :=
  {| clock := fun n => 1000 + Z.of_nat n;
     fault := fun _ => false;
     encryptPrivateKey := fun _ s => Some (String.append "iv:" s);
     decryptPrivateKey := fun e =>
       match e with
       | String _ (String _ (String _ s)) => Some s
       | _ => None
       end |}.

(** A delegation of a new key by a delegator not yet known, until time
    5000 (5 seconds). *)
Definition request : DelegationRequest :=
  {| delegatorAddress := "0x00000000000000000000000000000000000000D2";
     req_sessionKeyAddress := "0x00000000000000000000000000000000000000c4";
     req_permissions :=
       [{| target := executor;
           req_functionSelectors := [transfer_selector];
           req_tokenIds := None |}];
     expiryTimestamp := 5 |}.

End SessionScenario.

(** Surroundings of the worker in which the transaction fails. *)
Module WorkerScenario.
Import Js.
Import EthTransfer.

Definition reverted : ExecutionResult :=
  {| success := false; r_transactionHash := None;
     r_error := Some "insufficient funds for gas * price + value";
     r_details := None |}.

(** As [Scenario.outside], with every transfer failing; [mode] is the value
    of NODE_ENV. *)
Definition outside_reverting (mode : string) : Env :=
  {| clock := clock (Scenario.outside None None None);
     fault := fault (Scenario.outside None None None);
     price_feed := price_feed (Scenario.outside None None None);
     rpc_balance := rpc_balance (Scenario.outside None None None);
     rpc_gasPrice := rpc_gasPrice (Scenario.outside None None None);
     session_keys := session_keys (Scenario.outside None None None);
     ai_bridge := ai_bridge (Scenario.outside None None None);
     ETH_TRANSFER_EXECUTOR_ADDRESS :=
       ETH_TRANSFER_EXECUTOR_ADDRESS (Scenario.outside None None None);
     chain_transfer := fun _ _ _ _ _ => reverted;
     NODE_ENV := Some mode;
     random_hex := fun _ => "8f3a" |}.

End WorkerScenario.

(* ===================================================================== *)
(** * Signing and sending a transfer (BlockchainService.ts) *)
(* ===================================================================== *)

Module Signing.
Import Js.
Import SessionKeys.
Local Open Scope async_scope.

(** The chain as the service meets it: whether [new ethers.Wallet] accepts a
    private key, and what creating the executor contract, sending
    [executeTransfer(delegator, recipient, amount)] signed by the wallet and
    waiting for the receipt yield at the n-th interaction: the hash of the
    receipt, or the message of the error thrown. *)
Record Chain : Type := {
  wallet : string -> bool;
  executeTransfer :
    nat -> string -> string -> string -> string -> string -> string + string
}.

(** What [executeETHTransfer] answers: [{ success, transactionHash?, error? }] *)
Definition sent (hash : string) : EthTransfer.ExecutionResult :=
  {| EthTransfer.success := true;
     EthTransfer.r_transactionHash := Some hash;
     EthTransfer.r_error := None;
     EthTransfer.r_details := None |}.

Section Service.

Variable env : Env.
Variable chain : Chain.

(** [getSessionKeySigner(sessionKeyAddress)]; the signer is given by the
    private key it signs with, [None] is [null]. *)
Definition getSessionKeySigner (key : string) : Async World (option string) :=
  try_catch
    (* Get session key from DB *)
    (sessionKey <- getSessionKey env key ;;
     match sessionKey with
     | None => ret None
     | Some sessionKey =>
         match privateKey sessionKey with
         | None => ret None
         | Some pk =>
             if negb (truthy (privateKey sessionKey)) then ret None
             else
               (* Create signer *)
               if wallet chain pk then ret (Some pk)
               else throw (Err "invalid private key")
         end
     end)
    (fun _ => ret None).

(** The query [{ 'delegations.sessionKeyAddress': key,
                 'delegations.status': 'active' }]: each condition holds
    when some element of the array satisfies it. *)
Definition delegator_query (key : string) (u : User) : bool :=
  existsb (has_key key) (delegations u) && existsb is_active (delegations u).

(** [getDelegatorFromSessionKey(sessionKeyAddress)] *)
Definition getDelegatorFromSessionKey (key : string) : Async World (option string) :=
  try_catch
    (* Find user with this session key *)
    (user <- User_findOne env (delegator_query key) ;;
     match user with
     | None => ret None
     | Some user => ret (Some (address user))
     end)
    (fun _ => ret None).

(** [executeETHTransfer(sessionKeyAddress, executorAddress,
                        { recipientAddress, amount })] *)
Definition executeETHTransfer (key executorAddress recipientAddress amount : string)
    : Async World EthTransfer.ExecutionResult :=
  try_catch
    ((* Get signer from session key *)
     signer <- getSessionKeySigner key ;;
     match signer with
     | None => ret (EthTransfer.failure "Failed to get signer from session key")
     | Some signer =>
         (* Get delegator address from the session key *)
         delegator <- getDelegatorFromSessionKey key ;;
         match delegator with
         | None =>
             ret (EthTransfer.failure "Failed to get delegator address from session key")
         | Some delegator_ =>
             if negb (truthy delegator) then
               ret (EthTransfer.failure
                      "Failed to get delegator address from session key")
             else
               (* Execute the transfer *)
               fun w =>
                 match executeTransfer chain (events w) signer executorAddress
                         delegator_ recipientAddress amount with
                 | inl hash => (Normal (sent hash), tick w)
                 | inr msg => (Throw (Err msg), tick w)
                 end
         end
     end)
    (fun error => ret (EthTransfer.failure (EthTransfer.message_or_unknown error))).

End Service.

End Signing.

(** A chain on which every key is well formed and every transfer confirms. *)
Module SigningScenario.

Definition confirming : Signing.Chain :=
  {| Signing.wallet := fun _ => true;
     Signing.executeTransfer := fun _ _ _ _ _ _ => inl "0xfeed" |}.

End SigningScenario.

(** The session key service as the worker's collaborator: of the delegation
    that [getSessionKey] returns, [executeETHTransfer] reads the private
    key. *)
Module WorkerKeys.

Definition session_key_of (d : SessionKeys.Delegation) : EthTransfer.SessionKey :=
  {| EthTransfer.privateKey := SessionKeys.privateKey d |}.

(** The answer to the worker when the service runs on the store [sw]. *)
Definition answered_by (senv : SessionKeys.Env) (sw : SessionKeys.World)
    (key : string) : option EthTransfer.SessionKey :=
  match fst (SessionKeys.getSessionKey senv key sw) with
  | Js.Normal (Some d) => Some (session_key_of d)
  | _ => None
  end.

End WorkerKeys.

(** The worker's session key lookups answered by the service on the store
    of the revoked managed key. *)
Module RevokedScenario.
Import EthTransfer.

Definition outside : Env :=
  {| clock := clock (Scenario.outside None None None);
     fault := fault (Scenario.outside None None None);
     price_feed := price_feed (Scenario.outside None None None);
     rpc_balance := rpc_balance (Scenario.outside None None None);
     rpc_gasPrice := rpc_gasPrice (Scenario.outside None None None);
     session_keys := fun _ key =>
       WorkerKeys.answered_by SessionScenario.outside
         SessionScenario.managed_store key;
     ai_bridge := ai_bridge (Scenario.outside None None None);
     ETH_TRANSFER_EXECUTOR_ADDRESS :=
       ETH_TRANSFER_EXECUTOR_ADDRESS (Scenario.outside None None None);
     chain_transfer := chain_transfer (Scenario.outside None None None);
     NODE_ENV := NODE_ENV (Scenario.outside None None None);
     random_hex := random_hex (Scenario.outside None None None) |}.

End RevokedScenario.

(** The job that scheduling a task leaves on its queue when the queue
    accepts it: none for a task that is not active or whose type has no
    queue. *)
Module Scheduling.
Import MultiTask.

Definition job_data (task : Task) : JobData :=
  {| job_taskId := taskId task;
     job_walletAddress := walletAddress task;
     job_userId := userId task;
     job_rules := rules task;
     job_metadata := metadata task;
     job_type := type task |}.

Definition scheduled_job (task : Task) : list QueuedJob :=
  if TaskStatus_eqb (status task) ACTIVE then
    match taskQueueMap (type task) with
    | Some q => [{| queue := q;
                    job_name := String.append "task-" (taskId task);
                    data := job_data task |}]
    | None => []
    end
  else [].

End Scheduling.

(* ===================================================================== *)
(** * Placeholder processors (task.processor.ts) *)
(* ===================================================================== *)

Module Placeholders.
Import Js.
Import MultiTask.
Local Open Scope async_scope.

(** What a placeholder processor returns: [{ status, message, txHash? }] *)
Record Outcome : Type := {
  out_status : ExecutionStatus;
  out_message : string;
  out_txHash : option string
}.

Section Simulation.

Variable env : Env.

(** [Math.random().toString(16).substr(2, 64)] when n interactions have
    happened. *)
Variable random_hex : nat -> string.

(** The [catch] block of [simulateTaskExecution]; [task] is the local
    variable of that name as the [try] block left it: undefined ([None])
    until the fetch has returned, and the fetched document with what was
    pushed to its history afterwards. An activity without an error has the
    empty string as its error. *)
Definition simulation_failed (taskName : string) (task : option Task) (error : Error)
    : Async World Outcome :=
  match task with
  | Some task =>
      (* Record error in task history if task exists *)
      t <- now env ;;
      let task :=
        push_record {| timestamp := t; exec_status := EXEC_FAILED;
                       details := Some (String.append "Failed to process "
                                          (String.append taskName " task"));
                       txHash := None;
                       errorMessage := Some (message error) |} task in
      t' <- now env ;;
      let task := set_lastExecuted t' task in
      Task_save env task ;;;
      (* Create activity record for failure *)
      createActivity env
        {| activity_taskId := taskId task;
           activity_details := String.append "Failed to process "
                                 (String.append taskName " task");
           activity_error := message error |}
  | None => ret tt
  end ;;;
  ret {| out_status := EXEC_FAILED;
         out_message := String.append "Error processing task: " (message error);
         out_txHash := None |}.

(** [simulateTaskExecution(taskData, taskName)]. The dates are taken before
    the first call that can throw, so the [try] block is entered, in this
    rendering, once they are known. *)
Definition simulateTaskExecution (taskData_taskId taskName : string)
    : Async World Outcome :=
  let taskId_ := taskData_taskId in
  fun w =>
    (* Fetch the task from database *)
    match Task_findOne env taskId_ w with
    | (Throw error, w1) => simulation_failed taskName None error w1
    | (Normal None, w1) =>
        simulation_failed taskName None
          (Err (String.append "Task " (String.append taskId_ " not found"))) w1
    | (Normal (Some task), w1) =>
        (* Skip if task is not active *)
        if negb (TaskStatus_eqb (status task) ACTIVE) then
          (Normal {| out_status := EXEC_NO_ACTION;
                     out_message := "Task is not active";
                     out_txHash := None |}, w1)
        else
          (* Generate a fake transaction hash *)
          let txHash_ := String.append "0x" (random_hex (events w1)) in
          (t <- now env ;;
           (* Update task history *)
           let task :=
             push_record {| timestamp := t; exec_status := EXEC_SUCCESSFUL;
                            details := Some (String.append "Simulated "
                                               (String.append taskName
                                                  " task execution"));
                            txHash := Some txHash_;
                            errorMessage := None |} task in
           (* Update task with last execution time *)
           t' <- now env ;;
           let task := set_lastExecuted t' task in
           try_catch
             (Task_save env task ;;;
              (* Create activity record *)
              createActivity env
                {| activity_taskId := taskId task;
                   activity_details := String.append "Executed "
                                         (String.append taskName " task successfully");
                   activity_error := "" |} ;;;
              ret {| out_status := EXEC_SUCCESSFUL;
                     out_message := String.append "Simulated "
                                      (String.append taskName " task execution");
                     out_txHash := Some txHash_ |})
             (simulation_failed taskName (Some task))) w1
    end.

(** The placeholder processors. *)
Definition processTokenSwapTask (taskData_taskId : string) : Async World Outcome :=
  simulateTaskExecution taskData_taskId "token swap".

Definition processStakingTask (taskData_taskId : string) : Async World Outcome :=
  simulateTaskExecution taskData_taskId "staking".

Definition processLiquidityTask (taskData_taskId : string) : Async World Outcome :=
  simulateTaskExecution taskData_taskId "liquidity provision".

Definition processNftPurchaseTask (taskData_taskId : string) : Async World Outcome :=
  simulateTaskExecution taskData_taskId "NFT purchase".

Definition processYieldOptimizationTask (taskData_taskId : string)
    : Async World Outcome :=
  simulateTaskExecution taskData_taskId "yield optimization".

Definition processRewardClaimTask (taskData_taskId : string) : Async World Outcome :=
  simulateTaskExecution taskData_taskId "reward claim".

End Simulation.

(** ** Vocabulary of the statements *)

(** [t'] is [t] with [more] appended to its history and a new date of last
    execution: the status and everything else are those of [t]. *)
Definition ran (more : list ExecutionRecord) (t t' : Task) : Prop :=
  taskId t' = taskId t /\ userId t' = userId t /\
  walletAddress t' = walletAddress t /\ type t' = type t /\
  status t' = status t /\ rules t' = rules t /\ metadata t' = metadata t /\
  executionHistory t' = (executionHistory t ++ more)%list.

(** The store after [task.save()]. *)
Definition saved (task : Task) (l : list Task) : list Task :=
  map (fun d => if (taskId d =? taskId task)%string then task else d) l.

End Placeholders.

(** An active token swap task, and surroundings in which the call made at
    interaction [n] is rejected. *)
Module PlaceholderScenario.

Definition active_swap : MultiTask.Task :=
  {| MultiTask.taskId := "s1"; MultiTask.userId := "u1";
     MultiTask.walletAddress := "0x00000000000000000000000000000000000000d1";
     MultiTask.type := "token_swap";
     MultiTask.status := MultiTask.ACTIVE;
     MultiTask.rules := [];
     MultiTask.metadata := [];
     MultiTask.lastExecuted := None;
     MultiTask.executionHistory := [] |}.

Definition rejecting (n : nat) : MultiTask.Env :=
  {| MultiTask.clock := fun k => 2000 + Z.of_nat k;
     MultiTask.fault := fun k => (k =? n)%nat |}.

Definition hex (n : nat) : string := "8f3a".

End PlaceholderScenario.

(* ===================================================================== *)
(** * API keys (models/apikey.model.ts, the API key service) *)
(* ===================================================================== *)

Module ApiKeys.
Import Js.
Local Open Scope async_scope.

Definition Date : Type := Z.

Inductive ApiKeyStatus : Type :=
  | ACTIVE | REVOKED | EXPIRED.

Definition ApiKeyStatus_eqb (a b : ApiKeyStatus) : bool :=
  match a, b with
  | ACTIVE, ACTIVE | REVOKED, REVOKED | EXPIRED, EXPIRED => true
  | _, _ => false
  end.

Inductive ApiKeyScope : Type :=
  | READ | WRITE | EXECUTE | ADMIN.

Definition ApiKeyScope_eqb (a b : ApiKeyScope) : bool :=
  match a, b with
  | READ, READ | WRITE, WRITE | EXECUTE, EXECUTE | ADMIN, ADMIN => true
  | _, _ => false
  end.

Record RateLimits : Type := {
  requestsPerMinute : Z;
  requestsPerHour : Z;
  requestsPerDay : Z
}.

(** An API key document; [ipWhitelist] is an array, empty by default. *)
Record ApiKey : Type := {
  keyId : string;
  key : string;
  userId : option string;
  status : ApiKeyStatus;
  scopes : list ApiKeyScope;
  expiresAt : option Date;
  lastUsed : option Date;
  ipWhitelist : list string;
  rateLimits : option RateLimits
}.

(** The collection, the rate limit cache of the service and the number of
    interactions so far. *)
Record World : Type := {
  apiKeys : list ApiKey;
  rateLimitCache : RateLimiter.RateLimit;
  events : nat
}.

Record Env : Type := {
  clock : nat -> Date;
  fault : nat -> bool
}.

(** What [validateApiKey] answers; of the description of a valid key only
    [keyId] is kept. *)
Record Validation : Type := {
  valid : bool;
  reason : option string;
  v_keyId : option string;
  retryAfter : option Z
}.

Definition tick (w : World) : World :=
  {| apiKeys := apiKeys w; rateLimitCache := rateLimitCache w;
     events := S (events w) |}.

Definition set_apiKeys (l : list ApiKey) (w : World) : World :=
  {| apiKeys := l; rateLimitCache := rateLimitCache w; events := events w |}.

Definition set_rateLimitCache (r : RateLimiter.RateLimit) (w : World) : World :=
  {| apiKeys := apiKeys w; rateLimitCache := r; events := events w |}.

Definition set_status (s : ApiKeyStatus) (k : ApiKey) : ApiKey :=
  {| keyId := keyId k; key := key k; userId := userId k; status := s;
     scopes := scopes k; expiresAt := expiresAt k; lastUsed := lastUsed k;
     ipWhitelist := ipWhitelist k; rateLimits := rateLimits k |}.

Definition set_lastUsed (d : Date) (k : ApiKey) : ApiKey :=
  {| keyId := keyId k; key := key k; userId := userId k; status := status k;
     scopes := scopes k; expiresAt := expiresAt k; lastUsed := Some d;
     ipWhitelist := ipWhitelist k; rateLimits := rateLimits k |}.

(** The collection after [apiKey.save()]; a document is identified by its
    [keyId], which carries a unique index. *)
Definition saved (k : ApiKey) (l : list ApiKey) : list ApiKey :=
  map (fun d => if (keyId d =? keyId k)%string then k else d) l.

(** [`${keyId}_minute`] *)
Definition minuteRateKey (k : ApiKey) : string := String.append (keyId k) "_minute".

(** [apiKey.rateLimits || { requestsPerMinute: 60, ... }] *)
Definition limits_of (k : ApiKey) : RateLimits :=
  match rateLimits k with
  | Some r => r
  | None => {| requestsPerMinute := 60; requestsPerHour := 1000;
               requestsPerDay := 10000 |}
  end.

(** [apiKey.isIpAllowed(ip)] *)
Definition isIpAllowed (ip : string) (k : ApiKey) : bool :=
  match ipWhitelist k with
  | [] => true
  | l => existsb (fun x => (x =? ip)%string) l
  end.

(** [hasScope(apiKey, requiredScope)] *)
Definition hasScope (k : ApiKey) (requiredScope : ApiKeyScope) : bool :=
  if existsb (fun s => ApiKeyScope_eqb s ADMIN) (scopes k) then true
  else existsb (fun s => ApiKeyScope_eqb s requiredScope) (scopes k).

Section Service.

Variable env : Env.

(** [new Date()] and [Date.now()] *)
Definition now : Async World Date :=
  fun w => (Normal (clock env (events w)), tick w).

Definition call {A : Type} (op : World -> A * World) : Async World A :=
  fun w =>
    if fault env (events w) then (Throw (Err "connection error"), tick w)
    else let (a, w') := op w in (Normal a, tick w').

(** [ApiKey.findOne(query)] *)
Definition ApiKey_findOne (query : ApiKey -> bool) : Async World (option ApiKey) :=
  call (fun w => (find query (apiKeys w), w)).

(** [apiKey.save()] *)
Definition ApiKey_save (k : ApiKey) : Async World unit :=
  call (fun w => (tt, set_apiKeys (saved k (apiKeys w)) w)).

(** [apiKey.isValid()]; the date is read only for an active key that has an
    expiry. *)
Definition isValid (k : ApiKey) : Async World bool :=
  (* Check if key is active *)
  if negb (ApiKeyStatus_eqb (status k) ACTIVE) then ret false
  else
    (* Check if key is expired *)
    match expiresAt k with
    | Some d =>
        date <- now ;;
        if d <? date then ret false else ret true
    | None => ret true
    end.

(** [rateLimitCache.increment(key, windowMs, max)] *)
Definition increment (rateKey : string) (windowMs max : Z) : Async World bool :=
  date <- now ;;
  fun w =>
    let (exceeded, r) :=
      RateLimiter.increment date rateKey (Some windowMs) (Some max)
        (rateLimitCache w) in
    (Normal exceeded, set_rateLimitCache r w).

(** [rateLimitCache.getRetryAfter(key)] *)
Definition getRetryAfter (rateKey : string) : Async World Z :=
  fun w =>
    match RateLimiter.Map_get rateKey (RateLimiter.limits (rateLimitCache w)) with
    | None => (Normal 0, w)
    | Some _ =>
        (date <- now ;;
         ret (RateLimiter.getRetryAfter date rateKey (rateLimitCache w))) w
    end.

(** [apiKey.updateLastUsed().catch(...)]: the date is set at once; the save
    is not awaited and its rejection is only logged. It is rendered as
    taking place before the answer is returned. *)
Definition updateLastUsed (k : ApiKey) : Async World unit :=
  date <- now ;;
  try_catch (ApiKey_save (set_lastUsed date k)) (fun _ => ret tt).

Definition refused (why : string) (id : option string) : Validation :=
  {| valid := false; reason := Some why; v_keyId := id; retryAfter := None |}.

(** The rate limit check of [validateApiKey] and what follows it. *)
Definition count_request (apiKey : ApiKey) : Async World Validation :=
  (* Check minute rate limit *)
  minuteLimitExceeded <-
    increment (minuteRateKey apiKey) 60 (requestsPerMinute (limits_of apiKey)) ;;
  if minuteLimitExceeded then
    retry <- getRetryAfter (minuteRateKey apiKey) ;;
    ret {| valid := false; reason := Some "rate_limit_exceeded";
           v_keyId := Some (keyId apiKey); retryAfter := Some retry |}
  else
    (* Update last used timestamp (but don't await) *)
    updateLastUsed apiKey ;;;
    (* Return API key info *)
    ret {| valid := true; reason := None;
           v_keyId := Some (keyId apiKey); retryAfter := None |}.

(** [validateApiKey(key, ip)] *)
Definition validateApiKey (key_ ip : string) : Async World Validation :=
  try_catch
    ((* Find the API key *)
     apiKey <- ApiKey_findOne (fun k => (key k =? key_)%string) ;;
     match apiKey with
     | None => ret (refused "invalid_key" None)
     | Some apiKey =>
         (* Check if API key is valid *)
         ok <- isValid apiKey ;;
         if negb ok then
           ret (refused (if ApiKeyStatus_eqb (status apiKey) REVOKED
                         then "revoked" else "expired")
                        (Some (keyId apiKey)))
         else
           (* Check IP whitelist if configured *)
           if negb (isIpAllowed ip apiKey) then
             ret (refused "ip_restricted" (Some (keyId apiKey)))
           else count_request apiKey
     end)
    (fun _ => ret (refused "server_error" None)).

(** [revokeApiKey(keyId, userId?)] *)
Definition revokeApiKey (keyId_ : string) (userId_ : option string)
    : Async World bool :=
  try_catch
    ((* Find the API key, optionally filtering by userId *)
     apiKey <- ApiKey_findOne
                 (fun k => (keyId k =? keyId_)%string
                           && if truthy userId_
                              then match userId k, userId_ with
                                   | Some a, Some b => (a =? b)%string
                                   | _, _ => false
                                   end
                              else true) ;;
     match apiKey with
     | None => throw (Err "API key not found")
     | Some apiKey =>
         (* Revoke the key *)
         ApiKey_save (set_status REVOKED apiKey) ;;;
         (* Clear from rate limit cache *)
         (fun w =>
            (Normal tt,
             set_rateLimitCache
               (RateLimiter.clear (String.append keyId_ "_minute")
                  (rateLimitCache w)) w)) ;;;
         ret true
     end)
    (fun error =>
       throw (Err (String.append "Failed to revoke API key: " (message error)))).

End Service.

End ApiKeys.

(** A service key allowed two requests per minute, in a store of its own;
    the n-th interaction happens at time 1000 + 10 n. *)
Module ApiKeyScenario.
Import ApiKeys.

Definition service_key : ApiKey :=
  {| keyId := "key_1"; key := "sk_3f9a"; userId := Some "u1";
     status := ACTIVE; scopes := [READ];
     expiresAt := None; lastUsed := None; ipWhitelist := [];
     rateLimits := Some {| requestsPerMinute := 2; requestsPerHour := 1000;
                           requestsPerDay := 10000 |} |}.

Definition store : World :=
  {| apiKeys := [service_key];
     rateLimitCache := RateLimiter.create (Some 60000) (Some 100);
     events := 0 |}.

Definition outside : Env :=
  {| clock := fun n => 1000 + 10 * Z.of_nat n;
     fault := fun _ => false |}.

End ApiKeyScenario.

(* ===================================================================== *)
(** * Task routes (api/routes/taskRoutes.ts) *)
(* ===================================================================== *)

Module TaskRoutes.
Import Js.
Import EthTransfer.
Local Open Scope async_scope.

(** [req.params] and [req.body] of PATCH /:taskId/status; a property of the
    body may be missing. *)
Record StatusRequest : Type := {
  params_taskId : string;
  body_status : option string;
  body_userAddress : option string
}.

(** [req.params] and [req.body] of DELETE /:taskId. *)
Record DeleteRequest : Type := {
  d_params_taskId : string;
  d_body_userAddress : option string
}.

(** [res.status(code).json({ success, task })]; the message of a refusal is
    left out. *)
Record Response : Type := {
  code : Z;
  res_success : bool;
  res_task : option Task
}.

Definition json (c : Z) (ok : bool) (t : option Task) : Response :=
  {| code := c; res_success := ok; res_task := t |}.

(** [l.includes(v)] for a list of string literals. *)
Definition includes (l : list string) (v : option string) : bool :=
  existsb (strict_eq v) l.

(** The query [{ _id: taskId, userId: user._id }]. Ids are the strings the
    store holds; a [taskId] that is not an ObjectId, which the cast of the
    query rejects, matches no task here. Either way the store is left as
    it is. *)
Definition owned_task (taskId : string) (user : User) (t : Task) : bool :=
  (_id t =? taskId)%string && (userId t =? user_id user)%string.

(** [l] without its first element that satisfies [p]. *)
Fixpoint remove_first {A : Type} (p : A -> bool) (l : list A) : list A :=
  match l with
  | [] => []
  | x :: l' => if p x then l' else x :: remove_first p l'
  end.

Section Handlers.

Variable env : Env.

(** [User.findOne({ address: a.toLowerCase() })] *)
Definition User_findOne (a : string) : Async World (option User) :=
  call env (fun w =>
    (find (fun u => (address u =? SessionKeys.toLowerCase a)%string) (users w), w)).

(** [Task.findOneAndUpdate(query, update, { new: true })]: the first stored
    document that matches is updated in the store, whatever it holds, and
    returned as updated. *)
Definition Task_findOneAndUpdate (query : Task -> bool) (update : Task -> Task)
    : Async World (option Task) :=
  call env (fun w =>
    (option_map update (find query (tasks w)),
     set_tasks (SessionKeys.update_first query update (tasks w)) w)).

(** [Task.findOneAndDelete(query)] *)
Definition Task_findOneAndDelete (query : Task -> bool) : Async World (option Task) :=
  call env (fun w =>
    (find query (tasks w), set_tasks (remove_first query (tasks w)) w)).

(** [updateTaskStatusHandler(req, res)]: update task status (pause/activate) *)
Definition updateTaskStatusHandler (req : StatusRequest) : Async World Response :=
  try_catch
    (let taskId := params_taskId req in
     let status := body_status req in
     (* Validate status *)
     if negb (includes ["active"; "paused"] status) then ret (json 400 false None)
     else
       (* the status the validated string names *)
       let status := if strict_eq status "active" then active else paused in
       match body_userAddress req with
       | None => throw (Err "Cannot read properties of undefined (reading 'toLowerCase')")
       | Some userAddress =>
         (* Find user *)
         user <- User_findOne userAddress ;;
         match user with
         | None => ret (json 404 false None)
         | Some user =>
           (* Find and update task *)
           task <- Task_findOneAndUpdate (owned_task taskId user) (set_status status) ;;
           match task with
           | None => ret (json 404 false None)
           | Some task => ret (json 200 true (Some task))
           end
         end
       end)
    (fun _ => ret (json 500 false None)).

(** [deleteTaskHandler(req, res)] *)
Definition deleteTaskHandler (req : DeleteRequest) : Async World Response :=
  try_catch
    (let taskId := d_params_taskId req in
     match d_body_userAddress req with
     | None => throw (Err "Cannot read properties of undefined (reading 'toLowerCase')")
     | Some userAddress =>
       (* Find user *)
       user <- User_findOne userAddress ;;
       match user with
       | None => ret (json 404 false None)
       | Some user =>
         (* Find and delete task *)
         task <- Task_findOneAndDelete (owned_task taskId user) ;;
         match task with
         | None => ret (json 404 false None)
         | Some _ => ret (json 200 true None)
         end
       end
     end)
    (fun _ => ret (json 500 false None)).

End Handlers.

End TaskRoutes.

(** ** What the backend is asked to do, one call after the other *)

Module Backend.
Import Js.
Import EthTransfer.
Import Pipeline.
Import TaskRoutes.

(** A job of the monitoring queue or of the execution queue, or a request
    to one of the routes that write to the task collection. *)
Inductive Call : Type :=
  | monitor_job (job : MonitorJob)
  | execution_job (job : Job)
  | status_request (req : StatusRequest)
  | delete_request (req : DeleteRequest).

(** The world after the call was served, to completion. *)
Definition serve (env : Env) (c : Call) (w : World) : World :=
  match c with
  | monitor_job job => snd (monitorTaskConditions env job w)
  | execution_job job => snd (executeTask env job w)
  | status_request req => snd (updateTaskStatusHandler env req w)
  | delete_request req => snd (deleteTaskHandler env req w)
  end.

Fixpoint run (env : Env) (calls : list Call) (w : World) : World :=
  match calls with
  | [] => w
  | c :: calls' => run env calls' (serve env c w)
  end.




End Backend.

(** Requests of the delegator of [Scenario], who writes the address with a
    capital letter, and three tasks of the delegator: t1 one-time and
    active, t2 one-time and pending, t3 recurring and active. *)
Module RouteScenario.
Import EthTransfer.
Import TaskRoutes.



Definition t1 : Task :=
  Scenario.task_of "t1" active "one-time" Scenario.gas_below_20_gwei.

Definition t2 : Task :=
  Scenario.task_of "t2" pending "one-time" Scenario.gas_below_20_gwei.

Definition t3 : Task :=
  Scenario.task_of "t3" active "recurring" Scenario.gas_below_20_gwei.

End RouteScenario.

(* ===================================================================== *)
(** * Properties of the ETH transfer backend *)
(* ===================================================================== *)

Import Js.
Import EthTransfer.
Import Pipeline.

(** ** Facts about the JavaScript fragment *)

Lemma strict_eq_true (a : option string) (lit : string) :
  strict_eq a lit = true <-> a = Some lit.
Proof.
  destruct a as [s|]; simpl.
  - rewrite String.eqb_eq. split; [intros ->; reflexivity | intros [= ->]; reflexivity].
  - split; discriminate.
Qed.

Lemma strict_eq_refl (lit : string) : strict_eq (Some lit) lit = true.
Proof. apply strict_eq_true. reflexivity. Qed.

(** [BigInt] on the literals the pipeline meets. *)
Example BigInt_decimal : BigInt (Some "20000000000") = Some 20000000000.
Proof. reflexivity. Qed.

Example BigInt_signed_trimmed : BigInt (Some " -42 ") = Some (-42).
Proof. reflexivity. Qed.

Example BigInt_hexadecimal : BigInt (Some "0x1f") = Some 31.
Proof. reflexivity. Qed.

Example BigInt_empty : BigInt (Some "") = Some 0.
Proof. reflexivity. Qed.

Example BigInt_fraction : BigInt (Some "3150.5") = None.
Proof. reflexivity. Qed.

Example BigInt_undefined : BigInt None = None.
Proof. reflexivity. Qed.

Lemma TaskStatus_eqb_eq (a b : TaskStatus) :
  TaskStatus_eqb a b = true <-> a = b.
Proof. destruct a, b; simpl; split; congruence. Qed.

(** A loop maintains what its body maintains on the elements of the list. *)
Lemma for_of_invariant {W A : Type} (P : W -> Prop) (l : list A)
    (body : A -> Async W unit) :
  (forall x w, In x l -> P w -> P (snd (body x w))) ->
  forall w, P w -> P (snd (for_of l body w)).
Proof.
  induction l as [|x l IH]; intros Hbody w HP; cbn.
  - exact HP.
  - unfold bind. pose proof (Hbody x w (or_introl eq_refl) HP) as Hx.
    destruct (body x w) as [[[]|e] w1]; cbn in *.
    + apply IH; [|exact Hx]. intros y w2 Hy. apply Hbody. right. exact Hy.
    + exact Hx.
Qed.

(** Catching an error only to throw it again changes nothing. *)
Lemma try_catch_rethrow {W A : Type} (m : Async W A) (w : W) :
  try_catch m (fun error => throw error) w = m w.
Proof. unfold try_catch, throw. destruct (m w) as [[a|e] w1]; reflexivity. Qed.

(** Unfolding of the monadic combinators, for symbolic runs. *)
Ltac run :=
  unfold Task_findById, User_findById, Task_find, Task_save, executionQueue_add,
    getETHPrice, getBalance, getGasPrice, toBigInt, now, ask, consult, call,
    try_catch, bind, ret, throw in *.

(** ** Condition evaluation *)

Section Evaluation.

Variable env : Env.

Lemma handle_gas_price_run (task : Task) (gc : GasPriceCondition) (cur : string) (w : World) :
  truthy (sessionKeyId task) = true ->
  conditionType (conditions task) = Some "gas_price" ->
  gasPriceCondition (conditions task) = Some gc ->
  rpc_gasPrice env (events w) = Some cur ->
  handleETHTransferCondition env task w =
    (Normal (strict_eq (gas_type gc) "below" &&
             match BigInt (Some cur), BigInt (gasPriceThreshold gc) with
             | Some g, Some t => g <=? t
             | _, _ => false
             end), tick w).
Proof.
  intros Hk Hc Hg Hf. unfold handleETHTransferCondition. run.
  rewrite Hk, Hc, Hg. cbn -[BigInt]. rewrite Hf.
  destruct (strict_eq (gas_type gc) "below"); cbn -[BigInt]; [|reflexivity].
  destruct (BigInt (Some cur)); cbn -[BigInt]; [|reflexivity].
  destruct (BigInt (gasPriceThreshold gc)); reflexivity.
Qed.

Lemma met_gas_price_run (id : string) (conds : Conditions) (gc : GasPriceCondition)
    (cur : string) (w : World) :
  gasPriceCondition conds = Some gc ->
  rpc_gasPrice env (events w) = Some cur ->
  isETHTransferConditionMet env id (Some "gas_price") conds w =
    (Normal (strict_eq (gas_type gc) "below" &&
             match BigInt (Some cur), BigInt (gasPriceThreshold gc) with
             | Some g, Some t => g <=? t
             | _, _ => false
             end), tick w).
Proof.
  intros Hg Hf. unfold isETHTransferConditionMet. run.
  cbn -[BigInt]. rewrite Hg, Hf.
  destruct (BigInt (Some cur)); cbn -[BigInt].
  - destruct (strict_eq (gas_type gc) "below"); cbn -[BigInt]; [|reflexivity].
    destruct (BigInt (gasPriceThreshold gc)); reflexivity.
  - rewrite andb_false_r. reflexivity.
Qed.

(** The two-sided comparison of the price and balance cases. *)
Lemma handle_price_run (task : Task) (pc : PriceCondition) (cur : string) (c : Z) (w : World) :
  truthy (sessionKeyId task) = true ->
  conditionType (conditions task) = Some "price_threshold" ->
  priceCondition (conditions task) = Some pc ->
  price_feed env (events w) = Some cur ->
  BigInt (Some cur) = Some c ->
  handleETHTransferCondition env task w =
    (Normal (match BigInt (priceThreshold pc) with
             | Some t =>
                 if strict_eq (price_type pc) "above" then c >=? t
                 else if strict_eq (price_type pc) "below" then c <=? t
                 else false
             | None => false
             end), tick w).
Proof.
  intros Hk Hc Hp Hf Hb. unfold handleETHTransferCondition. run.
  rewrite Hk, Hc, Hp. cbn -[BigInt]. rewrite Hf.
  destruct (strict_eq (price_type pc) "above"); cbn -[BigInt].
  - rewrite Hb. destruct (BigInt (priceThreshold pc)); reflexivity.
  - destruct (strict_eq (price_type pc) "below"); cbn -[BigInt].
    + rewrite Hb. destruct (BigInt (priceThreshold pc)); reflexivity.
    + destruct (BigInt (priceThreshold pc)); reflexivity.
Qed.

Lemma met_price_run (id : string) (conds : Conditions) (pc : PriceCondition)
    (cur : string) (c : Z) (w : World) :
  priceCondition conds = Some pc ->
  price_feed env (events w) = Some cur ->
  BigInt (Some cur) = Some c ->
  (truthy (referencePrice pc) = true -> BigInt (referencePrice pc) <> None) ->
  isETHTransferConditionMet env id (Some "price_threshold") conds w =
    (Normal (match BigInt (priceThreshold pc) with
             | Some t =>
                 if strict_eq (price_type pc) "above" then c >=? t
                 else if strict_eq (price_type pc) "below" then c <=? t
                 else false
             | None => false
             end), tick w).
Proof.
  intros Hp Hf Hb Href. unfold isETHTransferConditionMet. run.
  cbn -[BigInt]. rewrite Hp, Hf, Hb.
  destruct (truthy (referencePrice pc)) eqn:Ht.
  - destruct (BigInt (referencePrice pc)) as [r|] eqn:Hr;
      [|exfalso; apply Href; reflexivity].
    cbn -[BigInt].
    destruct (strict_eq (price_type pc) "above"); cbn -[BigInt];
      [destruct (BigInt (priceThreshold pc)); reflexivity|].
    destruct (strict_eq (price_type pc) "below"); cbn -[BigInt];
      destruct (BigInt (priceThreshold pc)); reflexivity.
  - cbn -[BigInt].
    destruct (strict_eq (price_type pc) "above"); cbn -[BigInt];
      [destruct (BigInt (priceThreshold pc)); reflexivity|].
    destruct (strict_eq (price_type pc) "below"); cbn -[BigInt];
      destruct (BigInt (priceThreshold pc)); reflexivity.
Qed.

Lemma handle_balance_run (task : Task) (bc : BalanceCondition) (u : User)
    (cur : string) (c : Z) (w : World) :
  truthy (sessionKeyId task) = true ->
  conditionType (conditions task) = Some "balance_threshold" ->
  balanceCondition (conditions task) = Some bc ->
  fault env (events w) = false ->
  find (fun x => (user_id x =? userId task)%string) (users w) = Some u ->
  rpc_balance env (S (events w)) (address u) = Some cur ->
  BigInt (Some cur) = Some c ->
  handleETHTransferCondition env task w =
    (Normal (match BigInt (balanceThreshold bc) with
             | Some t =>
                 if strict_eq (balance_type bc) "above" then c >=? t
                 else if strict_eq (balance_type bc) "below" then c <=? t
                 else false
             | None => false
             end), tick (tick w)).
Proof.
  intros Hk Hc Hp Hfault Hu Hf Hb. unfold handleETHTransferCondition. run.
  rewrite Hk, Hc, Hp. cbn -[BigInt]. rewrite Hfault, Hu. cbn -[BigInt]. rewrite Hf.
  destruct (strict_eq (balance_type bc) "above"); cbn -[BigInt].
  - rewrite Hb. destruct (BigInt (balanceThreshold bc)); reflexivity.
  - destruct (strict_eq (balance_type bc) "below"); cbn -[BigInt].
    + rewrite Hb. destruct (BigInt (balanceThreshold bc)); reflexivity.
    + destruct (BigInt (balanceThreshold bc)); reflexivity.
Qed.

Lemma met_balance_run (id : string) (conds : Conditions) (bc : BalanceCondition)
    (task : Task) (u : User) (cur : string) (c : Z) (w : World) :
  balanceCondition conds = Some bc ->
  fault env (events w) = false ->
  find (fun t => (_id t =? id)%string) (tasks w) = Some task ->
  fault env (S (events w)) = false ->
  find (fun x => (user_id x =? userId task)%string) (users w) = Some u ->
  rpc_balance env (S (S (events w))) (address u) = Some cur ->
  BigInt (Some cur) = Some c ->
  isETHTransferConditionMet env id (Some "balance_threshold") conds w =
    (Normal (match BigInt (balanceThreshold bc) with
             | Some t =>
                 if strict_eq (balance_type bc) "above" then c >=? t
                 else if strict_eq (balance_type bc) "below" then c <=? t
                 else false
             | None => false
             end), tick (tick (tick w))).
Proof.
  intros Hp Hfault Ht Hfault' Hu Hf Hb. unfold isETHTransferConditionMet. run.
  cbn -[BigInt]. rewrite Hp, Hfault, Ht. cbn -[BigInt].
  rewrite Hfault', Hu. cbn -[BigInt]. rewrite Hf, Hb.
  destruct (strict_eq (balance_type bc) "above"); cbn -[BigInt].
  - destruct (BigInt (balanceThreshold bc)); reflexivity.
  - destruct (strict_eq (balance_type bc) "below"); cbn -[BigInt].
    + destruct (BigInt (balanceThreshold bc)); reflexivity.
    + destruct (BigInt (balanceThreshold bc)); reflexivity.
Qed.

End Evaluation.

(** ** Claims about the condition evaluators *)

(** C1. A gas_price condition can trigger only with direction 'below'. Once
    the current gas price has been fetched, both evaluators report the
    condition as met exactly when the direction is 'below' and the fetched
    price, as an integer, is at most gasPriceThreshold; any other direction
    is not met. [handleETHTransferCondition] evaluates conditions of tasks
    that carry a session key. With direction 'below' and threshold
    20000000000, a gas price of 15000000000 is met and one of 25000000000 is
    not. *)
Theorem gas_price_met_iff_below :
  forall (env : Env) (w : World) (gc : GasPriceCondition) (cur : string),
    rpc_gasPrice env (events w) = Some cur ->
    let below_threshold :=
      gas_type gc = Some "below" /\
      exists g t, BigInt (Some cur) = Some g /\
                  BigInt (gasPriceThreshold gc) = Some t /\ g <= t in
    (forall task,
        truthy (sessionKeyId task) = true ->
        conditionType (conditions task) = Some "gas_price" ->
        gasPriceCondition (conditions task) = Some gc ->
        (exists met,
            handleETHTransferCondition env task w = (Normal met, tick w) /\
            (met = true <-> below_threshold)) /\
        (gas_type gc = Some "below" ->
         gasPriceThreshold gc = Some "20000000000" ->
         (cur = "15000000000" ->
          handleETHTransferCondition env task w = (Normal true, tick w)) /\
         (cur = "25000000000" ->
          handleETHTransferCondition env task w = (Normal false, tick w))))
    /\
    (forall id conds,
        gasPriceCondition conds = Some gc ->
        (exists met,
            isETHTransferConditionMet env id (Some "gas_price") conds w
              = (Normal met, tick w) /\
            (met = true <-> below_threshold)) /\
        (gas_type gc = Some "below" ->
         gasPriceThreshold gc = Some "20000000000" ->
         (cur = "15000000000" ->
          isETHTransferConditionMet env id (Some "gas_price") conds w
            = (Normal true, tick w)) /\
         (cur = "25000000000" ->
          isETHTransferConditionMet env id (Some "gas_price") conds w
            = (Normal false, tick w)))).
Proof.
  intros env w gc cur Hfetch below_threshold.
  assert (Hiff :
    strict_eq (gas_type gc) "below" &&
      match BigInt (Some cur), BigInt (gasPriceThreshold gc) with
      | Some g, Some t => g <=? t
      | _, _ => false
      end = true <-> below_threshold).
  { unfold below_threshold. rewrite andb_true_iff, strict_eq_true. split.
    - intros [Hd Hc]. split; [exact Hd|].
      destruct (BigInt (Some cur)) as [g|]; [|discriminate].
      destruct (BigInt (gasPriceThreshold gc)) as [t|]; [|discriminate].
      exists g, t. repeat split. apply Z.leb_le. exact Hc.
    - intros [Hd (g & t & Hg & Ht & Hle)]. split; [exact Hd|].
      rewrite Hg, Ht. apply Z.leb_le. exact Hle. }
  split.
  - intros task Hk Hc Hg.
    pose proof (handle_gas_price_run env task gc cur w Hk Hc Hg Hfetch) as Hrun.
    split.
    + eexists. split; [exact Hrun | exact Hiff].
    + intros Hd Ht. rewrite Hrun, Hd, Ht.
      split; intros ->; reflexivity.
  - intros id conds Hg.
    pose proof (met_gas_price_run env id conds gc cur w Hg Hfetch) as Hrun.
    split.
    + eexists. split; [exact Hrun | exact Hiff].
    + intros Hd Ht. rewrite Hrun, Hd, Ht.
      split; intros ->; reflexivity.
Qed.

(** C2. A price_threshold condition of direction 'below' with priceThreshold
    3000: against a current price of 2900 it is met, against 3100 it is not.
    [handleETHTransferCondition] evaluates conditions of tasks that carry a
    session key; [isETHTransferConditionMet] also converts the reference
    price of the condition, which is absent, empty or an integer literal
    (3150 in the scenario). *)
Theorem price_below_3000_scenario :
  forall (env : Env) (w : World) (pc : PriceCondition),
    price_type pc = Some "below" ->
    priceThreshold pc = Some "3000" ->
    (forall task,
        truthy (sessionKeyId task) = true ->
        conditionType (conditions task) = Some "price_threshold" ->
        priceCondition (conditions task) = Some pc ->
        (price_feed env (events w) = Some "2900" ->
         handleETHTransferCondition env task w = (Normal true, tick w)) /\
        (price_feed env (events w) = Some "3100" ->
         handleETHTransferCondition env task w = (Normal false, tick w)))
    /\
    (forall id conds,
        priceCondition conds = Some pc ->
        (truthy (referencePrice pc) = true -> BigInt (referencePrice pc) <> None) ->
        (price_feed env (events w) = Some "2900" ->
         isETHTransferConditionMet env id (Some "price_threshold") conds w
           = (Normal true, tick w)) /\
        (price_feed env (events w) = Some "3100" ->
         isETHTransferConditionMet env id (Some "price_threshold") conds w
           = (Normal false, tick w))).
Proof.
  intros env w pc Hd Ht. split.
  - intros task Hk Hc Hp. split; intros Hf.
    + rewrite (handle_price_run env task pc "2900" 2900 w Hk Hc Hp Hf eq_refl).
      rewrite Hd, Ht. reflexivity.
    + rewrite (handle_price_run env task pc "3100" 3100 w Hk Hc Hp Hf eq_refl).
      rewrite Hd, Ht. reflexivity.
  - intros id conds Hp Href. split; intros Hf.
    + rewrite (met_price_run env id conds pc "2900" 2900 w Hp Hf eq_refl Href).
      rewrite Hd, Ht. reflexivity.
    + rewrite (met_price_run env id conds pc "3100" 3100 w Hp Hf eq_refl Href).
      rewrite Hd, Ht. reflexivity.
Qed.

(** C10. Threshold comparisons are inclusive. When the fetched price or
    balance equals the threshold, as integers, a price_threshold or
    balance_threshold condition is met with direction 'above' and met with
    direction 'below', in both evaluators. *)
Theorem threshold_boundary_inclusive :
  forall (env : Env) (w : World) (dir cur : string) (thr : option string) (v : Z),
    dir = "above" \/ dir = "below" ->
    BigInt (Some cur) = Some v ->
    BigInt thr = Some v ->
    (* price_threshold *)
    (forall pc,
        price_type pc = Some dir ->
        priceThreshold pc = thr ->
        price_feed env (events w) = Some cur ->
        (forall task,
            truthy (sessionKeyId task) = true ->
            conditionType (conditions task) = Some "price_threshold" ->
            priceCondition (conditions task) = Some pc ->
            handleETHTransferCondition env task w = (Normal true, tick w)) /\
        (forall id conds,
            priceCondition conds = Some pc ->
            (truthy (referencePrice pc) = true -> BigInt (referencePrice pc) <> None) ->
            isETHTransferConditionMet env id (Some "price_threshold") conds w
              = (Normal true, tick w)))
    /\
    (* balance_threshold *)
    (forall bc,
        balance_type bc = Some dir ->
        balanceThreshold bc = thr ->
        (forall task u,
            truthy (sessionKeyId task) = true ->
            conditionType (conditions task) = Some "balance_threshold" ->
            balanceCondition (conditions task) = Some bc ->
            fault env (events w) = false ->
            find (fun x => (user_id x =? userId task)%string) (users w) = Some u ->
            rpc_balance env (S (events w)) (address u) = Some cur ->
            handleETHTransferCondition env task w = (Normal true, tick (tick w))) /\
        (forall id conds task u,
            balanceCondition conds = Some bc ->
            fault env (events w) = false ->
            find (fun t => (_id t =? id)%string) (tasks w) = Some task ->
            fault env (S (events w)) = false ->
            find (fun x => (user_id x =? userId task)%string) (users w) = Some u ->
            rpc_balance env (S (S (events w))) (address u) = Some cur ->
            isETHTransferConditionMet env id (Some "balance_threshold") conds w
              = (Normal true, tick (tick (tick w))))).
Proof.
  intros env w dir cur thr v Hdir Hcur Hthr.
  assert (Hcmp : forall d,
    d = Some dir ->
    (if strict_eq d "above" then v >=? v
     else if strict_eq d "below" then v <=? v else false) = true).
  { intros d ->. destruct Hdir as [-> | ->]; cbn.
    - apply Z.geb_le. lia.
    - apply Z.leb_le. lia. }
  split.
  - intros pc Hd Ht Hf. split.
    + intros task Hk Hc Hp.
      rewrite (handle_price_run env task pc cur v w Hk Hc Hp Hf Hcur).
      rewrite Ht, Hthr, (Hcmp _ Hd). reflexivity.
    + intros id conds Hp Href.
      rewrite (met_price_run env id conds pc cur v w Hp Hf Hcur Href).
      rewrite Ht, Hthr, (Hcmp _ Hd). reflexivity.
  - intros bc Hd Ht. split.
    + intros task u Hk Hc Hp Hfault Hu Hf.
      rewrite (handle_balance_run env task bc u cur v w Hk Hc Hp Hfault Hu Hf Hcur).
      rewrite Ht, Hthr, (Hcmp _ Hd). reflexivity.
    + intros id conds task u Hp Hfault Htask Hfault' Hu Hf.
      rewrite (met_balance_run env id conds bc task u cur v w
                 Hp Hfault Htask Hfault' Hu Hf Hcur).
      rewrite Ht, Hthr, (Hcmp _ Hd). reflexivity.
Qed.

(** ** Computations that only read *)

Section ReadOnly.

Variable env : Env.

Lemma same_store_refl (w : World) : same_store w w.
Proof. unfold same_store. repeat split; lia. Qed.

Lemma same_store_trans (w1 w2 w3 : World) :
  same_store w1 w2 -> same_store w2 w3 -> same_store w1 w3.
Proof.
  unfold same_store. intros (A & B & C & D) (A' & B' & C' & D').
  repeat split; try congruence; lia.
Qed.

Lemma same_store_tick (w : World) : same_store w (tick w).
Proof. unfold same_store, tick. cbn. repeat split; lia. Qed.

Lemma read_only_ret {A : Type} (a : A) : read_only (ret a).
Proof. intros w. apply same_store_refl. Qed.

Lemma read_only_throw {A : Type} (e : Error) : read_only (@throw World A e).
Proof. intros w. apply same_store_refl. Qed.

Lemma read_only_bind {A B : Type} (m : Async World A) (k : A -> Async World B) :
  read_only m -> (forall a, read_only (k a)) -> read_only (bind m k).
Proof.
  intros Hm Hk w. unfold bind. specialize (Hm w).
  destruct (m w) as [[a|e] w1]; cbn in *.
  - eapply same_store_trans; [exact Hm | apply Hk].
  - exact Hm.
Qed.

Lemma read_only_try_catch {A : Type} (m : Async World A) (h : Error -> Async World A) :
  read_only m -> (forall e, read_only (h e)) -> read_only (try_catch m h).
Proof.
  intros Hm Hh w. unfold try_catch. specialize (Hm w).
  destruct (m w) as [[a|e] w1]; cbn in *.
  - exact Hm.
  - eapply same_store_trans; [exact Hm | apply Hh].
Qed.

Lemma read_only_ask {A : Type} (answer : nat -> option A) (msg : string) :
  read_only (ask answer msg).
Proof.
  intros w. unfold ask. destruct (answer (events w)); apply same_store_tick.
Qed.

Lemma read_only_consult {A : Type} (answer : nat -> A) : read_only (consult answer).
Proof. intros w. apply same_store_tick. Qed.

Lemma read_only_now : read_only (now env).
Proof. intros w. apply same_store_tick. Qed.

Lemma read_only_toBigInt (v : option string) : read_only (@toBigInt World v).
Proof.
  unfold toBigInt. destruct (BigInt v); [apply read_only_ret | apply read_only_throw].
Qed.

Lemma read_only_call_read {A : Type} (f : World -> A) :
  read_only (call env (fun w => (f w, w))).
Proof.
  intros w. unfold call. destruct (fault env (events w)); apply same_store_tick.
Qed.

Lemma read_only_User_findById (id : string) : read_only (User_findById env id).
Proof. apply read_only_call_read. Qed.

Lemma read_only_Task_findById (id : string) : read_only (Task_findById env id).
Proof. apply read_only_call_read. Qed.

Lemma read_only_Task_find (q : Task -> bool) : read_only (Task_find env q).
Proof. apply read_only_call_read. Qed.

End ReadOnly.

Create HintDb read_only.

#[local] Hint Resolve read_only_ret read_only_throw read_only_ask read_only_consult
  read_only_now read_only_toBigInt read_only_User_findById read_only_Task_findById
  read_only_Task_find : read_only.

(** Structural proof that a computation only reads. *)
Ltac read_only_tac :=
  repeat first
    [ progress intros
    | apply read_only_try_catch
    | apply read_only_bind
    | solve [auto with read_only]
    | match goal with
      | |- read_only (if ?b then _ else _) => destruct b
      | |- read_only (match ?x with _ => _ end) => destruct x
      end ].

(** ** The poller *)

Section Poller.

Variable env : Env.

Lemma read_only_handle (task : Task) : read_only (handleETHTransferCondition env task).
Proof. unfold handleETHTransferCondition, getETHPrice, getBalance, getGasPrice. read_only_tac. Qed.

Lemma handle_never_throws (task : Task) (w : World) :
  exists met, fst (handleETHTransferCondition env task w) = Normal met.
Proof.
  unfold handleETHTransferCondition, try_catch.
  match goal with |- context [let (_, _) := ?m w in _] => destruct (m w) as [[b|e] w1] end.
  - exists b. reflexivity.
  - exists false. reflexivity.
Qed.

(** The job the poller enqueues for a task. *)
Lemma rescheduled_set_lastCheckedAt (d : Date) (t t' : Task) :
  rescheduled t t' -> rescheduled t (set_lastCheckedAt d t').
Proof. unfold rescheduled. cbn. tauto. Qed.

Lemma rescheduled_set_nextCheckAt (d : Date) (t t' : Task) :
  rescheduled t t' -> rescheduled t (set_nextCheckAt d t').
Proof. unfold rescheduled. cbn. tauto. Qed.

Lemma rescheduled_refl (t : Task) : rescheduled t t.
Proof. unfold rescheduled. tauto. Qed.

(** What processing one due task does to the world: it may append the job of
    this task to the queue, and it may save the task with new bookkeeping. *)
Lemma check_task_effect (ty net : string) (task : Task) (w : World) :
  let w' := snd (check_task env ty net task w) in
  users w' = users w /\
  (executionQueue w' = executionQueue w \/
   exists opts,
     executionQueue w' =
       (executionQueue w ++
         [({| taskId := _id task; taskType := ty; job_network := net |}, opts)])%list) /\
  (tasks w' = tasks w \/
   exists task', rescheduled task task' /\ tasks w' = saved task' (tasks w)).
Proof.
  unfold check_task, try_catch, bind.
  pose proof (read_only_handle task w) as Hro.
  destruct (handleETHTransferCondition env task w) as [[met|e] w1].
  - destruct Hro as (Ht & Hu & Hq & _). cbn in Ht, Hu, Hq.
    destruct met; run; unfold set_tasks, set_executionQueue, tick, set_events;
      repeat match goal with
             | |- context [fault env ?n] => destruct (fault env n); cbn
             end;
      rewrite ?Ht, ?Hu, ?Hq;
      (split; [reflexivity|]); split;
      solve
        [ left; reflexivity
        | right; eexists; reflexivity
        | right;
          match goal with
          | |- context [if _ then ?t else _] =>
              exists t; split; [|reflexivity];
              auto using rescheduled_set_lastCheckedAt, rescheduled_set_nextCheckAt,
                rescheduled_refl
          end ].
  - destruct Hro as (Ht & Hu & Hq & _). cbn in Ht, Hu, Hq.
    run; unfold set_tasks, set_executionQueue, tick, set_events;
      repeat match goal with
             | |- context [fault env ?n] => destruct (fault env n); cbn
             end;
      rewrite ?Ht, ?Hu, ?Hq;
      (split; [reflexivity|]); split;
      solve
        [ left; reflexivity
        | right; eexists; reflexivity
        | right;
          match goal with
          | |- context [if _ then ?t else _] =>
              exists t; split; [|reflexivity];
              auto using rescheduled_set_lastCheckedAt, rescheduled_set_nextCheckAt,
                rescheduled_refl
          end ].
Qed.

Lemma polled_same_store (selected : list Task) (w w' : World) :
  same_store w w' -> polled selected w w'.
Proof.
  intros (Ht & Hu & Hq & _). split; [exact Hu|]. split.
  - exists []. rewrite app_nil_r. split; [exact Hq|]. intros j [].
  - intros t' Hin. rewrite Ht in Hin. exists t'. split; [exact Hin | apply rescheduled_refl].
Qed.

Lemma rescheduled_trans (t1 t2 t3 : Task) :
  rescheduled t1 t2 -> rescheduled t2 t3 -> rescheduled t1 t3.
Proof.
  unfold rescheduled. intros H1 H2.
  decompose [and] H1. decompose [and] H2. repeat split; congruence.
Qed.

Lemma polled_check_task (selected : list Task) (ty net : string) (task : Task)
    (w0 w : World) :
  (forall t, In t selected -> In t (tasks w0)) ->
  In task selected ->
  polled selected w0 w ->
  polled selected w0 (snd (check_task env ty net task w)).
Proof.
  intros Hsel Hin (Hu & (jobs & Hq & Hjobs) & Hts).
  destruct (check_task_effect ty net task w) as (Hu' & Hq' & Ht').
  split; [congruence|]. split.
  - destruct Hq' as [Hq' | [opts Hq']].
    + exists jobs. split; [congruence | exact Hjobs].
    + exists (jobs ++ [({| taskId := _id task; taskType := ty; job_network := net |},
                       opts)])%list.
      split.
      * rewrite Hq', Hq, app_assoc. reflexivity.
      * intros j Hj. apply in_app_or in Hj. destruct Hj as [Hj | [<- | []]].
        -- apply Hjobs. exact Hj.
        -- exists task. split; [exact Hin | reflexivity].
  - intros t' Hin'. destruct Ht' as [Ht' | (task' & Hres & Ht')].
    + rewrite Ht' in Hin'. apply Hts. exact Hin'.
    + rewrite Ht' in Hin'. unfold saved in Hin'. apply in_map_iff in Hin'.
      destruct Hin' as (d & Hd & Hind).
      destruct (_id d =? _id task')%string.
      * subst t'. exists task. split; [apply Hsel; exact Hin | exact Hres].
      * subst t'. apply Hts. exact Hind.
Qed.

Lemma monitor_polled (job : MonitorJob) (w : World) :
  polled (filter (due_query "eth-transfer" "sepolia" (clock env (events w))) (tasks w))
         w (snd (monitorTaskConditions env job w)).
Proof.
  unfold monitorTaskConditions, try_catch, bind, now, Task_find, call. cbn.
  destruct (fault env (S (events w))); cbn.
  - apply polled_same_store. unfold same_store. cbn. repeat split. lia.
  - set (sel := filter _ (tasks w)).
    set (w1 := tick (tick w)).
    assert (Hloop : polled sel w (snd (for_of sel (check_task env "eth-transfer" "sepolia") w1))).
    { apply for_of_invariant.
      - intros x w2 Hx HP. apply polled_check_task; [|exact Hx|exact HP].
        intros t Ht. unfold sel in Ht. apply filter_In in Ht. tauto.
      - apply polled_same_store. unfold same_store, w1. cbn. repeat split. lia. }
    destruct (for_of sel (check_task env "eth-transfer" "sepolia") w1) as [[[]|e] w2];
      exact Hloop.
Qed.

Lemma due_query_true (ty net : string) (date : Date) (t : Task) :
  due_query ty net date t = true <->
  type t = ty /\ status t = active /\ network t = net /\
  exists d, nextCheckAt t = Some d /\ d <= date.
Proof.
  unfold due_query. rewrite !andb_true_iff, !String.eqb_eq, TaskStatus_eqb_eq.
  destruct (nextCheckAt t) as [d|].
  - rewrite Z.leb_le. split.
    + intros (((A & B) & C) & D). repeat split; try assumption. exists d. tauto.
    + intros (A & B & C & d' & [= <-] & D). tauto.
  - split.
    + intros (_ & D). discriminate.
    + intros (_ & _ & _ & d' & D & _). discriminate.
Qed.

(** The runs of [check_task], by the outcome of the condition check and of
    the calls that follow it. *)
Lemma check_task_not_met (ty net : string) (task : Task) (w w1 : World) :
  handleETHTransferCondition env task w = (Normal false, w1) ->
  fault env (S (S (events w1))) = false ->
  check_task env ty net task w =
    (Normal tt,
     tick (set_tasks
             (saved (set_nextCheckAt (clock env (S (events w1)) + minutes 5)
                       (set_lastCheckedAt (clock env (events w1)) task))
                    (tasks w1))
             (tick (tick w1)))).
Proof.
  intros Hh Hf. unfold check_task, try_catch, bind. rewrite Hh.
  unfold now, Task_save, call. cbn. rewrite Hf. reflexivity.
Qed.

Lemma check_task_met (ty net : string) (task : Task) (w w1 : World) :
  handleETHTransferCondition env task w = (Normal true, w1) ->
  fault env (events w1) = false ->
  fault env (S (S (events w1))) = false ->
  check_task env ty net task w =
    (Normal tt,
     tick (set_tasks
             (saved (set_lastCheckedAt (clock env (S (events w1))) task) (tasks w1))
             (tick (tick (set_executionQueue
                            (executionQueue w1 ++
                               [({| taskId := _id task; taskType := ty;
                                    job_network := net |},
                                 {| attempts := 3; backoff_type := "exponential";
                                    backoff_delay := 5000 |})])%list
                            w1))))).
Proof.
  intros Hh Hf Hf'. unfold check_task, try_catch, bind. rewrite Hh.
  unfold executionQueue_add, now, Task_save, call. cbn. rewrite Hf. cbn.
  rewrite Hf'. reflexivity.
Qed.

Lemma check_task_enqueue_rejected (ty net : string) (task : Task) (w w1 : World) :
  handleETHTransferCondition env task w = (Normal true, w1) ->
  fault env (events w1) = true ->
  fault env (S (S (S (events w1)))) = false ->
  check_task env ty net task w =
    (Normal tt,
     tick (set_tasks
             (saved (set_nextCheckAt (clock env (S (S (events w1))) + minutes 15)
                       (set_lastCheckedAt (clock env (S (events w1))) task))
                    (tasks w1))
             (tick (tick (tick w1))))).
Proof.
  intros Hh Hf Hf'. unfold check_task, try_catch, bind. rewrite Hh.
  unfold executionQueue_add, now, Task_save, call. cbn. rewrite Hf. cbn.
  rewrite Hf'. reflexivity.
Qed.

Lemma check_task_save_rejected (ty net : string) (task : Task) (w w1 : World) :
  handleETHTransferCondition env task w = (Normal false, w1) ->
  fault env (S (S (events w1))) = true ->
  fault env (S (S (S (S (S (events w1)))))) = false ->
  check_task env ty net task w =
    (Normal tt,
     tick (set_tasks
             (saved (set_nextCheckAt (clock env (S (S (S (S (events w1))))) + minutes 15)
                       (set_lastCheckedAt (clock env (S (S (S (events w1))))) task))
                    (tasks w1))
             (tick (tick (tick (tick (tick w1))))))).
Proof.
  intros Hh Hf Hf'. unfold check_task, try_catch, bind. rewrite Hh.
  unfold now, Task_save, call. cbn. rewrite Hf. cbn. rewrite Hf'. reflexivity.
Qed.

Lemma check_task_met_save_rejected (ty net : string) (task : Task) (w w1 : World) :
  handleETHTransferCondition env task w = (Normal true, w1) ->
  fault env (events w1) = false ->
  fault env (S (S (events w1))) = true ->
  fault env (S (S (S (S (S (events w1)))))) = false ->
  check_task env ty net task w =
    (Normal tt,
     tick (set_tasks
             (saved (set_nextCheckAt (clock env (S (S (S (S (events w1))))) + minutes 15)
                       (set_lastCheckedAt (clock env (S (S (S (events w1))))) task))
                    (tasks w1))
             (tick (tick (tick (tick (tick
                (set_executionQueue
                   (executionQueue w1 ++
                      [({| taskId := _id task; taskType := ty; job_network := net |},
                        {| attempts := 3; backoff_type := "exponential";
                           backoff_delay := 5000 |})])%list
                   w1)))))))).
Proof.
  intros Hh Hf Hf' Hf''. unfold check_task, try_catch, bind. rewrite Hh.
  unfold executionQueue_add, now, Task_save, call. cbn. rewrite Hf. cbn.
  rewrite Hf'. cbn. rewrite Hf''. reflexivity.
Qed.

(** With the condition met, the saved task keeps the [nextCheckAt] it was
    selected with; a task is selected when that date is not after the date of
    the poll. *)
Lemma met_branch_keeps_nextCheckAt (ty net : string) (task : Task) (w w1 : World) :
  handleETHTransferCondition env task w = (Normal true, w1) ->
  fault env (events w1) = false ->
  fault env (S (S (events w1))) = false ->
  let task' := set_lastCheckedAt (clock env (S (events w1))) task in
  tasks (snd (check_task env ty net task w)) = saved task' (tasks w) /\
  nextCheckAt task' = nextCheckAt task /\
  lastCheckedAt task' = Some (clock env (S (events w1))).
Proof.
  intros Hh Hf Hf'. cbv zeta.
  rewrite (check_task_met ty net task w w1 Hh Hf Hf'). cbn.
  pose proof (read_only_handle task w) as Hro. rewrite Hh in Hro.
  destruct Hro as (Ht & _). cbn in Ht. rewrite Ht. repeat split.
Qed.

(** Every stored task after [check_task] was stored before, or is the
    checked task with new bookkeeping. *)
Lemma check_task_keeps_status (ty net : string) (task : Task) (w : World) (t' : Task) :
  In t' (tasks (snd (check_task env ty net task w))) ->
  In t' (tasks w) \/ rescheduled task t'.
Proof.
  intros Hin. destruct (check_task_effect ty net task w) as (_ & _ & [Ht | (x & Hres & Ht)]).
  - left. rewrite <- Ht. exact Hin.
  - rewrite Ht in Hin. unfold saved in Hin. apply in_map_iff in Hin.
    destruct Hin as (d & Hd & Hind). destruct (_id d =? _id x)%string.
    + right. subst t'. exact Hres.
    + left. subst t'. exact Hind.
Qed.

(** An unknown condition type is reported as not met, without any call. *)
Lemma handle_unknown_type (task : Task) (w : World) :
  conditionType (conditions task) <> Some "price_threshold" ->
  conditionType (conditions task) <> Some "balance_threshold" ->
  conditionType (conditions task) <> Some "gas_price" ->
  conditionType (conditions task) <> Some "time_based" ->
  handleETHTransferCondition env task w = (Normal false, w).
Proof.
  intros H1 H2 H3 H4.
  assert (Hno : forall lit, conditionType (conditions task) <> Some lit ->
                  strict_eq (conditionType (conditions task)) lit = false).
  { intros lit Hne. destruct (strict_eq _ lit) eqn:E; [|reflexivity].
    apply strict_eq_true in E. contradiction. }
  unfold handleETHTransferCondition, try_catch.
  destruct (truthy (sessionKeyId task)); cbn -[strict_eq]; [|reflexivity].
  rewrite (Hno _ H1), (Hno _ H2), (Hno _ H3), (Hno _ H4). reflexivity.
Qed.

(** A rejected fetch is reported as not met. *)
Lemma handle_price_fetch_failure (task : Task) (w : World) :
  truthy (sessionKeyId task) = true ->
  conditionType (conditions task) = Some "price_threshold" ->
  priceCondition (conditions task) <> None ->
  price_feed env (events w) = None ->
  handleETHTransferCondition env task w = (Normal false, tick w).
Proof.
  intros Hk Hc Hp Hf. unfold handleETHTransferCondition. run.
  rewrite Hk, Hc. cbn. destruct (priceCondition (conditions task)); [|contradiction].
  rewrite Hf. reflexivity.
Qed.

Lemma handle_gas_fetch_failure (task : Task) (w : World) :
  truthy (sessionKeyId task) = true ->
  conditionType (conditions task) = Some "gas_price" ->
  gasPriceCondition (conditions task) <> None ->
  rpc_gasPrice env (events w) = None ->
  handleETHTransferCondition env task w = (Normal false, tick w).
Proof.
  intros Hk Hc Hp Hf. unfold handleETHTransferCondition. run.
  rewrite Hk, Hc. cbn. destruct (gasPriceCondition (conditions task)); [|contradiction].
  rewrite Hf. reflexivity.
Qed.

Lemma handle_balance_fetch_failure (task : Task) (u : User) (w : World) :
  truthy (sessionKeyId task) = true ->
  conditionType (conditions task) = Some "balance_threshold" ->
  balanceCondition (conditions task) <> None ->
  fault env (events w) = false ->
  find (fun x => (user_id x =? userId task)%string) (users w) = Some u ->
  rpc_balance env (S (events w)) (address u) = None ->
  handleETHTransferCondition env task w = (Normal false, tick (tick w)).
Proof.
  intros Hk Hc Hp Hfault Hu Hf. unfold handleETHTransferCondition. run.
  rewrite Hk, Hc. cbn. destruct (balanceCondition (conditions task)); [|contradiction].
  rewrite Hfault, Hu. cbn. rewrite Hf. reflexivity.
Qed.

(** Without a rejected query, a poll is the loop over the selected tasks. *)
Lemma monitor_is_loop (job : MonitorJob) (w : World) :
  fault env (S (events w)) = false ->
  monitorTaskConditions env job w =
    for_of (filter (due_query "eth-transfer" "sepolia" (clock env (events w))) (tasks w))
           (check_task env "eth-transfer" "sepolia") (tick (tick w)).
Proof.
  intros Hf. unfold monitorTaskConditions. rewrite try_catch_rethrow.
  unfold bind, now, Task_find, call. cbn. rewrite Hf. reflexivity.
Qed.

End Poller.

(** ** The scheduler of the multi-type backend *)

Section MultiScheduler.

Variable env : MultiTask.Env.

Lemma MultiTask_status_eqb_eq (a b : MultiTask.TaskStatus) :
  MultiTask.TaskStatus_eqb a b = true <-> a = b.
Proof. destruct a, b; simpl; split; congruence. Qed.

Lemma scheduleTask_inactive (task : MultiTask.Task) (w : MultiTask.World) :
  MultiTask.status task <> MultiTask.ACTIVE ->
  MultiTask.scheduleTask env task w = (Normal None, w).
Proof.
  intros Hs. unfold MultiTask.scheduleTask.
  destruct (MultiTask.TaskStatus_eqb (MultiTask.status task) MultiTask.ACTIVE) eqn:E.
  - apply MultiTask_status_eqb_eq in E. contradiction.
  - reflexivity.
Qed.

Lemma scheduleTask_effect (task : MultiTask.Task) (w : MultiTask.World) :
  let w' := snd (MultiTask.scheduleTask env task w) in
  MultiTask.tasks w' = MultiTask.tasks w /\
  (MultiTask.queued w' = MultiTask.queued w \/
   MultiTask.status task = MultiTask.ACTIVE /\
   exists j,
     MultiTask.job_taskId (MultiTask.data j) = MultiTask.taskId task /\
     MultiTask.queued w' = (MultiTask.queued w ++ [j])%list).
Proof.
  unfold MultiTask.scheduleTask.
  destruct (MultiTask.TaskStatus_eqb (MultiTask.status task) MultiTask.ACTIVE) eqn:E.
  - apply MultiTask_status_eqb_eq in E. cbn.
    unfold try_catch, bind, MultiTask.enqueueTask, throw, ret.
    destruct (MultiTask.taskQueueMap (MultiTask.type task)) as [q|]; cbn.
    + unfold MultiTask.call. destruct (MultiTask.fault env (MultiTask.events w)); cbn.
      * split; [reflexivity | left; reflexivity].
      * split; [reflexivity|]. right. split; [exact E|].
        eexists. split; [|reflexivity]. reflexivity.
    + split; [reflexivity | left; reflexivity].
  - cbn. split; [reflexivity | left; reflexivity].
Qed.

(** Scheduling a list of fetched tasks enqueues jobs of active ones only. *)
Lemma schedule_loop_effect (l : list MultiTask.Task) (w : MultiTask.World) :
  let w' := snd (for_of l (fun task =>
                   bind (MultiTask.scheduleTask env task) (fun _ => ret tt)) w) in
  MultiTask.tasks w' = MultiTask.tasks w /\
  exists jobs,
    MultiTask.queued w' = (MultiTask.queued w ++ jobs)%list /\
    forall j, In j jobs ->
      exists s, In s l /\ MultiTask.status s = MultiTask.ACTIVE /\
                MultiTask.job_taskId (MultiTask.data j) = MultiTask.taskId s.
Proof.
  set (P := fun w' : MultiTask.World =>
    MultiTask.tasks w' = MultiTask.tasks w /\
    exists jobs,
      MultiTask.queued w' = (MultiTask.queued w ++ jobs)%list /\
      forall j, In j jobs ->
        exists s, In s l /\ MultiTask.status s = MultiTask.ACTIVE /\
                  MultiTask.job_taskId (MultiTask.data j) = MultiTask.taskId s).
  apply (for_of_invariant P).
  - intros x w1 Hx (Ht & jobs & Hq & Hj).
    pose proof (scheduleTask_effect x w1) as Heff. cbn in Heff.
    unfold bind, ret.
    destruct (MultiTask.scheduleTask env x w1) as [[r|e] w2]; cbn in *;
      destruct Heff as (Ht' & Hq'); (split; [congruence|]);
      (destruct Hq' as [Hq' | (Hact & j0 & Hid & Hq')];
       [ exists jobs; split; [congruence | exact Hj]
       | exists (jobs ++ [j0])%list; split;
         [ rewrite Hq', Hq, app_assoc; reflexivity
         | intros j Hin; apply in_app_or in Hin; destruct Hin as [Hin | [<- | []]];
           [ apply Hj; exact Hin | exists x; tauto ] ] ]).
  - split; [reflexivity|]. exists []. rewrite app_nil_r. split; [reflexivity|].
    intros j [].
Qed.

Lemma scheduleTasksByType_effect (ty : string) (w : MultiTask.World) :
  let w' := snd (MultiTask.scheduleTasksByType env ty w) in
  exists jobs,
    MultiTask.queued w' = (MultiTask.queued w ++ jobs)%list /\
    forall j, In j jobs ->
      exists s, In s (MultiTask.tasks w) /\ MultiTask.status s = MultiTask.ACTIVE /\
                MultiTask.type s = ty /\
                MultiTask.job_taskId (MultiTask.data j) = MultiTask.taskId s.
Proof.
  unfold MultiTask.scheduleTasksByType, try_catch, bind, MultiTask.Task_find,
    MultiTask.call.
  destruct (MultiTask.fault env (MultiTask.events w)); cbn.
  - exists []. rewrite app_nil_r. split; [reflexivity | intros j []].
  - set (l := filter _ (MultiTask.tasks w)).
    pose proof (schedule_loop_effect l (MultiTask.tick w)) as Hloop. cbn in Hloop.
    destruct (for_of l _ (MultiTask.tick w)) as [[[]|e] w2]; cbn in *;
      destruct Hloop as (_ & jobs & Hq & Hj); exists jobs; (split; [exact Hq|]);
      intros j Hin; destruct (Hj j Hin) as (s0 & Hs & Hact & Hid); exists s0;
      unfold l in Hs; apply filter_In in Hs; destruct Hs as [Hs Hb];
      apply andb_true_iff in Hb; destruct Hb as [Hty _];
      apply String.eqb_eq in Hty; tauto.
Qed.

End MultiScheduler.

(** ** Claims about the selection of tasks *)

Lemma NoDup_map_eq {A B : Type} (f : A -> B) (l : list A) (a b : A) :
  NoDup (map f l) -> In a l -> In b l -> f a = f b -> a = b.
Proof.
  induction l as [|x l IH]; cbn; intros Hnd Ha Hb Hf; [contradiction|].
  inversion Hnd as [|y l' Hnotin Hnd']; subst.
  destruct Ha as [-> | Ha], Hb as [-> | Hb].
  - reflexivity.
  - exfalso. apply Hnotin. rewrite Hf. apply in_map. exact Hb.
  - exfalso. apply Hnotin. rewrite <- Hf. apply in_map. exact Ha.
  - apply IH; assumption.
Qed.

(** C3. A task whose status is not 'active' is never selected by a poll
    cycle and never enqueued. The due-task query of the ETH poller keeps
    only tasks with status 'active' and nextCheckAt at or before the time of
    the poll; the poll checks exactly the tasks the query returns, and every
    job it appends to the execution queue carries the id of one of them, so
    (ids being unique in the store) never the id of an inactive task. In the
    multi-type backend [scheduleTask] on an inactive task does nothing, and
    [scheduleTasksByType] enqueues jobs of active tasks only. *)
Theorem inactive_tasks_never_selected :
  (forall (env : Env) (job : MonitorJob) (w : World) (t : Task),
      In t (tasks w) ->
      status t <> active ->
      let date := clock env (events w) in
      let selected := filter (due_query "eth-transfer" "sepolia" date) (tasks w) in
      let w' := snd (monitorTaskConditions env job w) in
      (forall s, In s selected ->
         status s = active /\ exists d, nextCheckAt s = Some d /\ d <= date) /\
      ~ In t selected /\
      (fault env (S (events w)) = false ->
       monitorTaskConditions env job w =
         for_of selected (check_task env "eth-transfer" "sepolia") (tick (tick w))) /\
      (fault env (S (events w)) = true ->
       executionQueue w' = executionQueue w /\ tasks w' = tasks w) /\
      exists jobs,
        executionQueue w' = (executionQueue w ++ jobs)%list /\
        (forall j, In j jobs -> exists s, In s selected /\ taskId (fst j) = _id s) /\
        (NoDup (map _id (tasks w)) ->
         forall j, In j jobs -> taskId (fst j) <> _id t))
  /\
  (forall (env : MultiTask.Env) (task : MultiTask.Task) (w : MultiTask.World),
      MultiTask.status task <> MultiTask.ACTIVE ->
      MultiTask.scheduleTask env task w = (Normal None, w))
  /\
  (forall (env : MultiTask.Env) (ty : string) (w : MultiTask.World) (t : MultiTask.Task),
      In t (MultiTask.tasks w) ->
      MultiTask.status t <> MultiTask.ACTIVE ->
      let w' := snd (MultiTask.scheduleTasksByType env ty w) in
      exists jobs,
        MultiTask.queued w' = (MultiTask.queued w ++ jobs)%list /\
        (forall j, In j jobs ->
           exists s, In s (MultiTask.tasks w) /\
                     MultiTask.status s = MultiTask.ACTIVE /\
                     MultiTask.type s = ty /\
                     MultiTask.job_taskId (MultiTask.data j) = MultiTask.taskId s) /\
        (NoDup (map MultiTask.taskId (MultiTask.tasks w)) ->
         forall j, In j jobs ->
           MultiTask.job_taskId (MultiTask.data j) <> MultiTask.taskId t)).
Proof.
  split; [|split].
  - intros env job w t Hin Hst date selected w'.
    assert (Hsel : forall s, In s selected ->
              In s (tasks w) /\ status s = active /\
              exists d, nextCheckAt s = Some d /\ d <= date).
    { intros s Hs. unfold selected in Hs. apply filter_In in Hs.
      destruct Hs as [Hs Hq]. apply due_query_true in Hq. tauto. }
    split; [intros s Hs; apply Hsel in Hs; tauto|].
    split; [intros Hs; apply Hsel in Hs; tauto|].
    split; [apply monitor_is_loop|].
    split.
    + intros Hf. unfold w', monitorTaskConditions, try_catch, bind, now, Task_find,
        call, throw. cbn. rewrite Hf. cbn. split; reflexivity.
    + destruct (monitor_polled env job w) as (_ & (jobs & Hq & Hj) & _).
      exists jobs. split; [exact Hq|]. split; [exact Hj|].
      intros Hnd j Hjin Heq. destruct (Hj j Hjin) as (s & Hs & Hid).
      destruct (Hsel s Hs) as (Hs_in & Hs_act & _).
      assert (s = t) by (apply (NoDup_map_eq _id (tasks w)); congruence).
      subst s. contradiction.
  - intros env task w Hs. apply scheduleTask_inactive. exact Hs.
  - intros env ty w t Hin Hst w'.
    destruct (scheduleTasksByType_effect env ty w) as (jobs & Hq & Hj).
    exists jobs. split; [exact Hq|]. split; [exact Hj|].
    intros Hnd j Hjin Heq. destruct (Hj j Hjin) as (s & Hs & Hact & _ & Hid).
    assert (s = t)
      by (apply (NoDup_map_eq MultiTask.taskId (MultiTask.tasks w)); congruence).
    subst s. contradiction.
Qed.

(** ** The worker *)

Section Worker.

Variable env : Env.

Lemma read_only_executeETHTransfer (task : Task) (user : User) :
  read_only (executeETHTransfer env task user).
Proof. unfold executeETHTransfer, failure. read_only_tac. Qed.

Lemma executeETHTransfer_never_throws (task : Task) (user : User) (w : World) :
  exists r, fst (executeETHTransfer env task user w) = Normal r.
Proof.
  unfold executeETHTransfer, try_catch.
  match goal with |- context [let (_, _) := ?m w in _] => destruct (m w) as [[r|e] w1] end.
  - exists r. reflexivity.
  - eexists. reflexivity.
Qed.

(** The run of the worker on a job whose task is active and executable. *)
Lemma executeTask_run (job : Job) (w : World) (task : Task) (user : User)
    (r : ExecutionResult) (w1 : World) :
  fault env (events w) = false ->
  find (fun t => (_id t =? taskId job)%string) (tasks w) = Some task ->
  status task = active ->
  fault env (S (events w)) = false ->
  find (fun u => (user_id u =? userId task)%string) (users w) = Some user ->
  truthy (sessionKeyId task) = true ->
  taskType job = "eth-transfer" ->
  executeETHTransfer env task user (tick (tick w)) = (Normal r, w1) ->
  executeTask env job w =
    Task_save env (executed task r (clock env (events w1)) (clock env (S (events w1))))
      (tick (tick w1)).
Proof.
  intros Hf Ht Hs Hf' Hu Hk Hty Hexec.
  unfold executeTask. rewrite try_catch_rethrow.
  unfold bind at 1. unfold Task_findById, call. rewrite Hf, Ht. cbn -[executeETHTransfer].
  rewrite Hs. cbn -[executeETHTransfer].
  unfold bind at 1. unfold User_findById, call. cbn -[executeETHTransfer].
  rewrite Hf', Hu, Hk. cbn -[executeETHTransfer].
  rewrite Hty. cbn -[executeETHTransfer].
  unfold bind at 1. change (set_events (S (S (events w))) w) with (tick (tick w)).
  rewrite Hexec. reflexivity.
Qed.


End Worker.

(** ** Claims about the poller *)

(** C6, as stated, fails on a fetch failure: the evaluator catches the
    failed gas price fetch and reports not met, and the poller reschedules
    the task exactly as for a gas price above the threshold, five minutes
    after the check and not fifteen. *)
Lemma fetch_failure_rescheduled_as_not_met :
  let t := Scenario.task_of "t1" active "one-time" Scenario.gas_below_20_gwei in
  let failing := Scenario.outside None None None in
  let not_met := Scenario.outside None (Some "25000000000") None in
  tasks (snd (monitorTaskConditions failing Scenario.poll (Scenario.store [t])))
    = [set_nextCheckAt (2004 + minutes 5) (set_lastCheckedAt 2003 t)] /\
  tasks (snd (monitorTaskConditions not_met Scenario.poll (Scenario.store [t])))
    = [set_nextCheckAt (2004 + minutes 5) (set_lastCheckedAt 2003 t)] /\
  tasks (snd (monitorTaskConditions failing Scenario.poll (Scenario.store [t])))
    <> [set_nextCheckAt (2004 + minutes 15) (set_lastCheckedAt 2003 t)].
Proof.
  cbv zeta. split; [vm_compute; reflexivity|]. split; [vm_compute; reflexivity|].
  vm_compute. discriminate.
Qed.

(** C6, amended. The condition check never raises: a failed fetch of the
    price, the balance or the gas price is caught by the evaluator and
    reported as not met. The poller then leaves the status of the task
    unchanged and reschedules it like any task whose condition is not met,
    5 minutes after the check. The 15 minute delay is applied when
    processing the task throws, that is when the queue rejects the job or
    the store rejects the save; the status is unchanged there too. *)
Theorem fetch_failure_is_not_met :
  forall (env : Env) (ty net : string) (task : Task) (w : World),
    (exists met w1,
        handleETHTransferCondition env task w = (Normal met, w1) /\ same_store w w1)
    /\
    (truthy (sessionKeyId task) = true ->
     (conditionType (conditions task) = Some "price_threshold" ->
      priceCondition (conditions task) <> None ->
      price_feed env (events w) = None ->
      handleETHTransferCondition env task w = (Normal false, tick w)) /\
     (conditionType (conditions task) = Some "gas_price" ->
      gasPriceCondition (conditions task) <> None ->
      rpc_gasPrice env (events w) = None ->
      handleETHTransferCondition env task w = (Normal false, tick w)) /\
     (conditionType (conditions task) = Some "balance_threshold" ->
      balanceCondition (conditions task) <> None ->
      forall u,
        fault env (events w) = false ->
        find (fun x => (user_id x =? userId task)%string) (users w) = Some u ->
        rpc_balance env (S (events w)) (address u) = None ->
        handleETHTransferCondition env task w = (Normal false, tick (tick w))))
    /\
    (forall w1,
        handleETHTransferCondition env task w = (Normal false, w1) ->
        fault env (S (S (events w1))) = false ->
        let r := check_task env ty net task w in
        fst r = Normal tt /\
        tasks (snd r) =
          saved (set_nextCheckAt (clock env (S (events w1)) + minutes 5)
                   (set_lastCheckedAt (clock env (events w1)) task))
                (tasks w) /\
        executionQueue (snd r) = executionQueue w)
    /\
    (forall w1,
        handleETHTransferCondition env task w = (Normal true, w1) ->
        fault env (events w1) = true ->
        fault env (S (S (S (events w1)))) = false ->
        let r := check_task env ty net task w in
        fst r = Normal tt /\
        tasks (snd r) =
          saved (set_nextCheckAt (clock env (S (S (events w1))) + minutes 15)
                   (set_lastCheckedAt (clock env (S (events w1))) task))
                (tasks w) /\
        executionQueue (snd r) = executionQueue w)
    /\
    (forall w1,
        handleETHTransferCondition env task w = (Normal false, w1) ->
        fault env (S (S (events w1))) = true ->
        fault env (S (S (S (S (S (events w1)))))) = false ->
        let r := check_task env ty net task w in
        fst r = Normal tt /\
        tasks (snd r) =
          saved (set_nextCheckAt (clock env (S (S (S (S (events w1))))) + minutes 15)
                   (set_lastCheckedAt (clock env (S (S (S (events w1))))) task))
                (tasks w) /\
        executionQueue (snd r) = executionQueue w)
    /\
    (forall w1,
        handleETHTransferCondition env task w = (Normal true, w1) ->
        fault env (events w1) = false ->
        fault env (S (S (events w1))) = true ->
        fault env (S (S (S (S (S (events w1)))))) = false ->
        let r := check_task env ty net task w in
        fst r = Normal tt /\
        tasks (snd r) =
          saved (set_nextCheckAt (clock env (S (S (S (S (events w1))))) + minutes 15)
                   (set_lastCheckedAt (clock env (S (S (S (events w1))))) task))
                (tasks w))
    /\
    (forall t',
        In t' (tasks (snd (check_task env ty net task w))) ->
        In t' (tasks w) \/ (rescheduled task t' /\ status t' = status task)).
Proof.
  intros env ty net task w.
  assert (Hstore : forall b w1,
            handleETHTransferCondition env task w = (b, w1) ->
            tasks w1 = tasks w /\ executionQueue w1 = executionQueue w).
  { intros b w1 Hh. pose proof (read_only_handle env task w) as Hro.
    rewrite Hh in Hro. destruct Hro as (A & _ & C & _). split; assumption. }
  repeat split.
  - destruct (handle_never_throws env task w) as [met Hmet].
    exists met, (snd (handleETHTransferCondition env task w)). split.
    + rewrite <- Hmet. apply surjective_pairing.
    + apply read_only_handle.
  - apply handle_price_fetch_failure; assumption.
  - apply handle_gas_fetch_failure; assumption.
  - intros Hc Hb u. apply handle_balance_fetch_failure; assumption.
  - rewrite (check_task_not_met env ty net task w w1 H H0). reflexivity.
  - rewrite (check_task_not_met env ty net task w w1 H H0). cbn.
    destruct (Hstore _ _ H) as [-> _]. reflexivity.
  - rewrite (check_task_not_met env ty net task w w1 H H0). cbn.
    destruct (Hstore _ _ H) as [_ ->]. reflexivity.
  - rewrite (check_task_enqueue_rejected env ty net task w w1 H H0 H1). reflexivity.
  - rewrite (check_task_enqueue_rejected env ty net task w w1 H H0 H1). cbn.
    destruct (Hstore _ _ H) as [-> _]. reflexivity.
  - rewrite (check_task_enqueue_rejected env ty net task w w1 H H0 H1). cbn.
    destruct (Hstore _ _ H) as [_ ->]. reflexivity.
  - rewrite (check_task_save_rejected env ty net task w w1 H H0 H1). reflexivity.
  - rewrite (check_task_save_rejected env ty net task w w1 H H0 H1). cbn.
    destruct (Hstore _ _ H) as [-> _]. reflexivity.
  - rewrite (check_task_save_rejected env ty net task w w1 H H0 H1). cbn.
    destruct (Hstore _ _ H) as [_ ->]. reflexivity.
  - rewrite (check_task_met_save_rejected env ty net task w w1 H H0 H1 H2). reflexivity.
  - rewrite (check_task_met_save_rejected env ty net task w w1 H H0 H1 H2). cbn.
    destruct (Hstore _ _ H) as [-> _]. reflexivity.
  - intros t' Hin. apply check_task_keeps_status in Hin.
    destruct Hin as [Hin | Hres]; [left; exact Hin | right].
    split; [exact Hres | apply Hres].
Qed.

(** C7, as stated, fails: an active, due task whose condition type is
    'custom-text' is still active after the poll, rescheduled five minutes
    later; it is not failed. *)
Lemma unknown_condition_type_not_failed :
  let t := Scenario.task_of "t1" active "one-time" Scenario.custom_text in
  let w' := snd (monitorTaskConditions (Scenario.outside None None None)
                   Scenario.poll (Scenario.store [t])) in
  status t = active /\
  conditionType (conditions t) = Some "custom-text" /\
  tasks w' = [set_nextCheckAt (2003 + minutes 5) (set_lastCheckedAt 2002 t)] /\
  map status (tasks w') = [active] /\
  map status (tasks w') <> [failed].
Proof.
  cbv zeta. repeat split; try (vm_compute; reflexivity). vm_compute. discriminate.
Qed.

(** C7, amended. For a task whose condition type is none of
    price_threshold, balance_threshold, gas_price and time_based, the
    condition check reports not met, without raising and without any call.
    The poller enqueues nothing for it and, the save going through,
    reschedules its next check 5 minutes after the check; its status is
    left as it was. No poll changes the status of any stored task: every
    task stored after a poll is a task stored before it, up to lastCheckedAt
    and nextCheckAt. *)
Theorem unknown_condition_type_is_not_met :
  forall (env : Env) (ty net : string) (task : Task) (w : World),
    conditionType (conditions task) <> Some "price_threshold" ->
    conditionType (conditions task) <> Some "balance_threshold" ->
    conditionType (conditions task) <> Some "gas_price" ->
    conditionType (conditions task) <> Some "time_based" ->
    handleETHTransferCondition env task w = (Normal false, w) /\
    (fault env (S (S (events w))) = false ->
     let r := check_task env ty net task w in
     let task' := set_nextCheckAt (clock env (S (events w)) + minutes 5)
                    (set_lastCheckedAt (clock env (events w)) task) in
     fst r = Normal tt /\
     tasks (snd r) = saved task' (tasks w) /\
     status task' = status task /\
     executionQueue (snd r) = executionQueue w) /\
    (forall t',
        In t' (tasks (snd (check_task env ty net task w))) ->
        In t' (tasks w) \/ (rescheduled task t' /\ status t' = status task)) /\
    (forall job w0 t',
        In t' (tasks (snd (monitorTaskConditions env job w0))) ->
        exists t, In t (tasks w0) /\ rescheduled t t' /\ status t' = status t).
Proof.
  intros env ty net task w H1 H2 H3 H4.
  pose proof (handle_unknown_type env task w H1 H2 H3 H4) as Hh.
  split; [exact Hh|]. split; [|split].
  - intros Hf. cbv zeta.
    rewrite (check_task_not_met env ty net task w w Hh Hf). cbn.
    repeat split; reflexivity.
  - intros t' Hin. apply check_task_keeps_status in Hin.
    destruct Hin as [Hin | Hres]; [left; exact Hin | right].
    split; [exact Hres | apply Hres].
  - intros job w0 t' Hin.
    destruct (monitor_polled env job w0) as (_ & _ & Hts).
    destruct (Hts t' Hin) as (t & Ht & Hres).
    exists t. split; [exact Ht|]. split; [exact Hres | apply Hres].
Qed.

(** C8 fails when the condition is met. A recurring task due since time
    1000 is polled at time 2000 with its gas price condition met: its job is
    enqueued and the task is saved with lastCheckedAt 2004 and nextCheckAt
    still 1000, so nextCheckAt >= lastCheckedAt does not hold on the stored
    task. *)
Theorem condition_met_leaves_nextCheckAt_behind :
  let t := Scenario.task_of "t1" active "recurring" Scenario.gas_below_20_gwei in
  let env := Scenario.outside None (Some "15000000000") None in
  let w' := snd (monitorTaskConditions env Scenario.poll (Scenario.store [t])) in
  tasks w' = [set_lastCheckedAt 2004 t] /\
  map fst (executionQueue w') = [Scenario.job_for "t1"] /\
  nextCheckAt (set_lastCheckedAt 2004 t) = Some 1000 /\
  lastCheckedAt (set_lastCheckedAt 2004 t) = Some 2004 /\
  Forall (fun x => ~ schedule_ordered x) (tasks w').
Proof.
  cbv zeta. repeat split; try (vm_compute; reflexivity).
  replace (tasks _) with
    [set_lastCheckedAt 2004
       (Scenario.task_of "t1" active "recurring" Scenario.gas_below_20_gwei)]
    by (vm_compute; reflexivity).
  constructor; [|constructor]. unfold schedule_ordered. cbn. lia.
Qed.

(** The two other branches do establish the order, the clock not running
    backwards between the two readings. *)
Lemma not_met_and_error_branches_ordered (env : Env) (n : nat) (delay : Z) (task : Task) :
  clock env n <= clock env (S n) ->
  0 <= delay ->
  schedule_ordered
    (set_nextCheckAt (clock env (S n) + delay) (set_lastCheckedAt (clock env n) task)).
Proof. intros Hmono Hdelay. unfold schedule_ordered. cbn. lia. Qed.

(** ** Claims about the worker *)





(** A task stored with the id of the job is replaced by the saved one. *)
Lemma saved_In (task x : Task) (l : list Task) :
  In x l -> _id x = _id task -> In task (saved task l).
Proof.
  intros Hin Hid. unfold saved. apply in_map_iff. exists x. split; [|exact Hin].
  rewrite Hid, String.eqb_refl. reflexivity.
Qed.

Lemma executed_id (task : Task) (r : ExecutionResult) (t t' : Date) :
  _id (executed task r t t') = _id task.
Proof.
  unfold executed.
  destruct (strict_eq (executionType (configuration task)) "one-time" && success r);
    reflexivity.
Qed.

(** C5. When the on-chain action of an execution job succeeds, the worker
    appends to the execution history of the task a record with status
    'success' and the transaction hash, sets lastExecutedAt, and marks a
    one-time task 'completed'; the status of a recurring task is left
    unchanged. The job is one the worker executes: its task is stored and
    active, with its user and a session key, its type is 'eth-transfer',
    and the store answers. *)
Theorem successful_execution_is_recorded :
  forall (env : Env) (job : Job) (w : World) (task : Task) (user : User)
         (r : ExecutionResult) (w1 : World),
    fault env (events w) = false ->
    find (fun t => (_id t =? taskId job)%string) (tasks w) = Some task ->
    status task = active ->
    fault env (S (events w)) = false ->
    find (fun u => (user_id u =? userId task)%string) (users w) = Some user ->
    truthy (sessionKeyId task) = true ->
    taskType job = "eth-transfer" ->
    executeETHTransfer env task user (tick (tick w)) = (Normal r, w1) ->
    success r = true ->
    fault env (S (S (events w1))) = false ->
    let res := executeTask env job w in
    let t := clock env (events w1) in
    let t' := clock env (S (events w1)) in
    let task' := executed task r t t' in
    fst res = Normal tt /\
    tasks (snd res) = saved task' (tasks w) /\
    In task' (tasks (snd res)) /\
    history task' =
      (history task ++
         [{| timestamp := t; action := "Execute eth-transfer";
             h_status := h_success;
             transactionHash := r_transactionHash r;
             error := r_error r;
             details := r_details r |}])%list /\
    lastExecutedAt task' = Some t' /\
    (executionType (configuration task) = Some "one-time" -> status task' = completed) /\
    (executionType (configuration task) <> Some "one-time" ->
     status task' = status task /\ status task' = active).
Proof.
  intros env job w task user r w1 Hf Ht Hs Hf' Hu Hk Hty Hexec Hok Hsave.
  cbv zeta.
  pose proof (read_only_executeETHTransfer env task user (tick (tick w))) as Hro.
  rewrite Hexec in Hro. destruct Hro as (Htasks & _). cbn in Htasks.
  rewrite (executeTask_run env job w task user r w1 Hf Ht Hs Hf' Hu Hk Hty Hexec).
  unfold Task_save, call. cbn [events tick set_events]. rewrite Hsave.
  cbn [fst snd tasks tick set_tasks set_events]. rewrite Htasks.
  split; [reflexivity|]. split; [reflexivity|]. split.
  - apply find_some in Ht. destruct Ht as [Hin Hid]. apply String.eqb_eq in Hid.
    apply (saved_In _ task); [exact Hin|]. symmetry. apply executed_id.
  - unfold executed. rewrite Hok, andb_true_r.
    destruct (strict_eq (executionType (configuration task)) "one-time") eqn:E;
      cbn; (split; [reflexivity|]); (split; [reflexivity|]); split.
    + reflexivity.
    + intros Hne. apply strict_eq_true in E. contradiction.
    + intros He. apply strict_eq_true in He. congruence.
    + intros _. split; [reflexivity | exact Hs].
Qed.


Section TaskRouteFacts.

Import TaskRoutes.
Import Backend.

Variable env : Env.






End TaskRouteFacts.



(** C9, as stated, fails for the ETH transfer worker: a job for a task that
    is not in the store makes [executeTask] throw. *)
Lemma missing_task_job_throws :
  executeTask (Scenario.outside None None None) (Scenario.job_for "t1")
              (Scenario.store [])
    = (Throw (Err "Task t1 not found"), tick (Scenario.store [])).
Proof. vm_compute. reflexivity. Qed.

(** C9, amended. For a job whose task is no longer in the store, the worker
    writes no history and attempts no transaction: the lookup of the task is
    its only interaction and the world is otherwise unchanged.
    [executeTask] then rejects with the error 'Task <id> not found', which it
    logs and throws again, leaving the job to the retry policy of the queue;
    [processTokenPurchaseTask] returns a FAILED result with that message
    without throwing. *)
Theorem missing_task_job_writes_nothing :
  (forall (env : Env) (job : Job) (w : World),
      find (fun t => (_id t =? taskId job)%string) (tasks w) = None ->
      snd (executeTask env job w) = tick w /\
      (exists e, fst (executeTask env job w) = Throw e) /\
      (fault env (events w) = false ->
       fst (executeTask env job w) =
         Throw (Err (String.append "Task " (String.append (taskId job) " not found")))))
  /\
  (forall (env : MultiTask.Env)
          (purchase : MultiTask.Task -> MultiTask.World ->
                      Completion MultiTask.Result * MultiTask.Task * MultiTask.World)
          (id : string) (w : MultiTask.World),
      find (fun t => (MultiTask.taskId t =? id)%string) (MultiTask.tasks w) = None ->
      let res := MultiTask.processTokenPurchaseTask env purchase id w in
      snd res = MultiTask.tick w /\
      (exists msg,
          fst res = Normal {| MultiTask.result_status := MultiTask.EXEC_FAILED;
                              MultiTask.result_message := msg |}) /\
      (MultiTask.fault env (MultiTask.events w) = false ->
       fst res =
         Normal {| MultiTask.result_status := MultiTask.EXEC_FAILED;
                   MultiTask.result_message :=
                     String.append "Error processing task: "
                       (String.append "Task " (String.append id " not found")) |})).
Proof.
  split.
  - intros env job w Hnone. unfold executeTask. rewrite try_catch_rethrow.
    unfold bind, Task_findById, call. rewrite Hnone.
    destruct (fault env (events w)); cbn.
    + split; [reflexivity|]. split; [eexists; reflexivity | discriminate].
    + split; [reflexivity|]. split; [eexists; reflexivity | reflexivity].
  - intros env purchase id w Hnone. cbv zeta.
    unfold MultiTask.processTokenPurchaseTask, MultiTask.Task_findOne, MultiTask.call.
    rewrite Hnone. destruct (MultiTask.fault env (MultiTask.events w)); cbn.
    + split; [reflexivity|]. split; [eexists; reflexivity | discriminate].
    + split; [reflexivity|]. split; [eexists; reflexivity | reflexivity].
Qed.

(** ** The claims on concrete tasks *)

(** C1 on the task of the scenario: threshold 20 gwei, direction 'below',
    gas price fetched as 15 gwei and as 25 gwei. *)
Lemma gas_price_met_iff_below_witness :
  (rpc_gasPrice (Scenario.outside None (Some "15000000000") None) 0
     = Some "15000000000" /\
   rpc_gasPrice (Scenario.outside None (Some "25000000000") None) 0
     = Some "25000000000") /\
  fst (handleETHTransferCondition (Scenario.outside None (Some "15000000000") None)
         (Scenario.task_of "t1" active "one-time" Scenario.gas_below_20_gwei)
         (Scenario.store [])) = Normal true /\
  fst (handleETHTransferCondition (Scenario.outside None (Some "25000000000") None)
         (Scenario.task_of "t1" active "one-time" Scenario.gas_below_20_gwei)
         (Scenario.store [])) = Normal false /\
  fst (isETHTransferConditionMet (Scenario.outside None (Some "15000000000") None)
         "t1" (Some "gas_price") Scenario.gas_below_20_gwei
         (Scenario.store [])) = Normal true /\
  fst (isETHTransferConditionMet (Scenario.outside None (Some "25000000000") None)
         "t1" (Some "gas_price") Scenario.gas_below_20_gwei
         (Scenario.store [])) = Normal false.
Proof.
  split; [split; reflexivity|].
  pose (gc := {| gas_type := Some "below"; gasPriceThreshold := Some "20000000000" |}).
  pose (t := Scenario.task_of "t1" active "one-time" Scenario.gas_below_20_gwei).
  destruct (gas_price_met_iff_below (Scenario.outside None (Some "15000000000") None)
              (Scenario.store []) gc "15000000000" eq_refl) as [H15 M15].
  destruct (gas_price_met_iff_below (Scenario.outside None (Some "25000000000") None)
              (Scenario.store []) gc "25000000000" eq_refl) as [H25 M25].
  destruct (H15 t eq_refl eq_refl eq_refl) as [_ S15].
  destruct (S15 eq_refl eq_refl) as [A15 _].
  destruct (H25 t eq_refl eq_refl eq_refl) as [_ S25].
  destruct (S25 eq_refl eq_refl) as [_ A25].
  destruct (M15 "t1" Scenario.gas_below_20_gwei eq_refl) as [_ T15].
  destruct (T15 eq_refl eq_refl) as [B15 _].
  destruct (M25 "t1" Scenario.gas_below_20_gwei eq_refl) as [_ T25].
  destruct (T25 eq_refl eq_refl) as [_ B25].
  fold t. rewrite (A15 eq_refl), (A25 eq_refl), (B15 eq_refl), (B25 eq_refl).
  repeat split.
Defined.

(** C2 on the task of the scenario: reference price 3150. *)
Lemma price_below_3000_scenario_witness :
  (price_type {| price_type := Some "below"; priceThreshold := Some "3000";
                 referencePrice := Some "3150" |} = Some "below" /\
   priceThreshold {| price_type := Some "below"; priceThreshold := Some "3000";
                     referencePrice := Some "3150" |} = Some "3000") /\
  fst (handleETHTransferCondition (Scenario.outside (Some "2900") None None)
         (Scenario.task_of "t1" active "one-time" Scenario.price_below_3000)
         (Scenario.store [])) = Normal true /\
  fst (handleETHTransferCondition (Scenario.outside (Some "3100") None None)
         (Scenario.task_of "t1" active "one-time" Scenario.price_below_3000)
         (Scenario.store [])) = Normal false /\
  fst (isETHTransferConditionMet (Scenario.outside (Some "2900") None None)
         "t1" (Some "price_threshold") Scenario.price_below_3000
         (Scenario.store [])) = Normal true /\
  fst (isETHTransferConditionMet (Scenario.outside (Some "3100") None None)
         "t1" (Some "price_threshold") Scenario.price_below_3000
         (Scenario.store [])) = Normal false.
Proof.
  split; [split; reflexivity|].
  pose (pc := {| price_type := Some "below"; priceThreshold := Some "3000";
                 referencePrice := Some "3150" |}).
  pose (t := Scenario.task_of "t1" active "one-time" Scenario.price_below_3000).
  assert (Href : truthy (referencePrice pc) = true -> BigInt (referencePrice pc) <> None)
    by (intros _; vm_compute; discriminate).
  destruct (price_below_3000_scenario (Scenario.outside (Some "2900") None None)
              (Scenario.store []) pc eq_refl eq_refl) as [H29 M29].
  destruct (price_below_3000_scenario (Scenario.outside (Some "3100") None None)
              (Scenario.store []) pc eq_refl eq_refl) as [H31 M31].
  destruct (H29 t eq_refl eq_refl eq_refl) as [A29 _].
  destruct (H31 t eq_refl eq_refl eq_refl) as [_ A31].
  destruct (M29 "t1" Scenario.price_below_3000 eq_refl Href) as [B29 _].
  destruct (M31 "t1" Scenario.price_below_3000 eq_refl Href) as [_ B31].
  fold t. rewrite (A29 eq_refl), (A31 eq_refl), (B29 eq_refl), (B31 eq_refl).
  repeat split.
Defined.

(** C10 at the price the repository's feed returns, 300000000000, against a
    threshold of the same value, and at a balance of exactly one ether. *)
Lemma threshold_boundary_inclusive_witness :
  (BigInt (Some Scenario.mock_feed) = Some 300000000000 /\
   BigInt (Some "1000000000000000000") = Some 1000000000000000000) /\
  (
     fst (handleETHTransferCondition (Scenario.outside (Some Scenario.mock_feed) None None)
            (Scenario.task_of "t1" active "one-time"
               (Scenario.price_at "above" "300000000000"))
            (Scenario.store [])) = Normal true /\
     fst (isETHTransferConditionMet (Scenario.outside (Some Scenario.mock_feed) None None)
            "t1" (Some "price_threshold") (Scenario.price_at "above" "300000000000")
            (Scenario.store [])) = Normal true /\
     fst (handleETHTransferCondition
            (Scenario.outside None None (Some "1000000000000000000"))
            (Scenario.task_of "t1" active "one-time" (Scenario.balance_one_ether "above"))
            (Scenario.store [])) = Normal true /\
     fst (isETHTransferConditionMet
            (Scenario.outside None None (Some "1000000000000000000"))
            "t1" (Some "balance_threshold") (Scenario.balance_one_ether "above")
            (Scenario.store
               [Scenario.task_of "t1" active "one-time" (Scenario.balance_one_ether "above")]))
       = Normal true) /\
  (
     fst (handleETHTransferCondition (Scenario.outside (Some Scenario.mock_feed) None None)
            (Scenario.task_of "t1" active "one-time"
               (Scenario.price_at "below" "300000000000"))
            (Scenario.store [])) = Normal true /\
     fst (isETHTransferConditionMet (Scenario.outside (Some Scenario.mock_feed) None None)
            "t1" (Some "price_threshold") (Scenario.price_at "below" "300000000000")
            (Scenario.store [])) = Normal true /\
     fst (handleETHTransferCondition
            (Scenario.outside None None (Some "1000000000000000000"))
            (Scenario.task_of "t1" active "one-time" (Scenario.balance_one_ether "below"))
            (Scenario.store [])) = Normal true /\
     fst (isETHTransferConditionMet
            (Scenario.outside None None (Some "1000000000000000000"))
            "t1" (Some "balance_threshold") (Scenario.balance_one_ether "below")
            (Scenario.store
               [Scenario.task_of "t1" active "one-time" (Scenario.balance_one_ether "below")]))
       = Normal true).
Proof.
  split; [split; reflexivity|].
  assert (Hboth : forall dir, dir = "above" \/ dir = "below" ->
     fst (handleETHTransferCondition (Scenario.outside (Some Scenario.mock_feed) None None)
            (Scenario.task_of "t1" active "one-time"
               (Scenario.price_at dir "300000000000"))
            (Scenario.store [])) = Normal true /\
     fst (isETHTransferConditionMet (Scenario.outside (Some Scenario.mock_feed) None None)
            "t1" (Some "price_threshold") (Scenario.price_at dir "300000000000")
            (Scenario.store [])) = Normal true /\
     fst (handleETHTransferCondition
            (Scenario.outside None None (Some "1000000000000000000"))
            (Scenario.task_of "t1" active "one-time" (Scenario.balance_one_ether dir))
            (Scenario.store [])) = Normal true /\
     fst (isETHTransferConditionMet
            (Scenario.outside None None (Some "1000000000000000000"))
            "t1" (Some "balance_threshold") (Scenario.balance_one_ether dir)
            (Scenario.store
               [Scenario.task_of "t1" active "one-time" (Scenario.balance_one_ether dir)]))
       = Normal true);
    [|split; [apply (Hboth "above"); left; reflexivity
             |apply (Hboth "below"); right; reflexivity]].
  intros dir Hdir.
  destruct (threshold_boundary_inclusive
              (Scenario.outside (Some Scenario.mock_feed) None None) (Scenario.store [])
              dir Scenario.mock_feed (Some "300000000000") 300000000000
              Hdir eq_refl eq_refl) as [Hprice _].
  destruct (Hprice {| price_type := Some dir; priceThreshold := Some "300000000000";
                      referencePrice := None |} eq_refl eq_refl eq_refl) as [Hp1 Hp2].
  destruct (threshold_boundary_inclusive
              (Scenario.outside None None (Some "1000000000000000000"))
              (Scenario.store []) dir "1000000000000000000"
              (Some "1000000000000000000") 1000000000000000000
              Hdir eq_refl eq_refl) as [_ Hbal].
  destruct (Hbal {| balance_type := Some dir;
                    balanceThreshold := Some "1000000000000000000" |}
              eq_refl eq_refl) as [Hb1 _].
  destruct (threshold_boundary_inclusive
              (Scenario.outside None None (Some "1000000000000000000"))
              (Scenario.store
                 [Scenario.task_of "t1" active "one-time" (Scenario.balance_one_ether dir)])
              dir "1000000000000000000"
              (Some "1000000000000000000") 1000000000000000000
              Hdir eq_refl eq_refl) as [_ Hbal'].
  destruct (Hbal' {| balance_type := Some dir;
                     balanceThreshold := Some "1000000000000000000" |}
              eq_refl eq_refl) as [_ Hb2].
  rewrite (Hp1 (Scenario.task_of "t1" active "one-time"
                  (Scenario.price_at dir "300000000000")) eq_refl eq_refl eq_refl).
  rewrite (Hp2 "t1" (Scenario.price_at dir "300000000000") eq_refl
             ltac:(discriminate)).
  rewrite (Hb1 (Scenario.task_of "t1" active "one-time" (Scenario.balance_one_ether dir))
             Scenario.delegator eq_refl eq_refl eq_refl eq_refl eq_refl eq_refl).
  rewrite (Hb2 "t1" (Scenario.balance_one_ether dir)
             (Scenario.task_of "t1" active "one-time" (Scenario.balance_one_ether dir))
             Scenario.delegator eq_refl eq_refl eq_refl eq_refl eq_refl eq_refl).
  repeat split.
Defined.

(** C3 on a store with an active and a paused task, both due, and on a
    paused token purchase task of the multi-type backend. *)
Lemma inactive_tasks_never_selected_witness :
  (In (Scenario.task_of "t2" paused "recurring" Scenario.gas_below_20_gwei)
      (tasks (Scenario.store
                [Scenario.task_of "t1" active "recurring" Scenario.gas_below_20_gwei;
                 Scenario.task_of "t2" paused "recurring" Scenario.gas_below_20_gwei])) /\
   status (Scenario.task_of "t2" paused "recurring" Scenario.gas_below_20_gwei)
     <> active /\
   MultiTask.status Scenario.paused_purchase <> MultiTask.ACTIVE) /\
  ~ In (Scenario.task_of "t2" paused "recurring" Scenario.gas_below_20_gwei)
       (filter (due_query "eth-transfer" "sepolia" 2000)
          [Scenario.task_of "t1" active "recurring" Scenario.gas_below_20_gwei;
           Scenario.task_of "t2" paused "recurring" Scenario.gas_below_20_gwei]) /\
  MultiTask.scheduleTask Scenario.multi_outside Scenario.paused_purchase
      (Scenario.multi_store [Scenario.paused_purchase])
    = (Normal None, Scenario.multi_store [Scenario.paused_purchase]) /\
  (exists jobs,
      MultiTask.queued
        (snd (MultiTask.scheduleTasksByType Scenario.multi_outside "buy_token"
                (Scenario.multi_store [Scenario.paused_purchase])))
        = ([] ++ jobs)%list /\
      forall j, In j jobs -> MultiTask.job_taskId (MultiTask.data j) <> "p1").
Proof.
  destruct inactive_tasks_never_selected as (Heth & Hskip & Hmulti).
  assert (Hin : In (Scenario.task_of "t2" paused "recurring" Scenario.gas_below_20_gwei)
      (tasks (Scenario.store
                [Scenario.task_of "t1" active "recurring" Scenario.gas_below_20_gwei;
                 Scenario.task_of "t2" paused "recurring" Scenario.gas_below_20_gwei])))
    by (right; left; reflexivity).
  assert (Hst : status (Scenario.task_of "t2" paused "recurring"
                          Scenario.gas_below_20_gwei) <> active) by discriminate.
  assert (Hst' : MultiTask.status Scenario.paused_purchase <> MultiTask.ACTIVE)
    by discriminate.
  split; [repeat split; assumption|].
  split.
  - apply (Heth (Scenario.outside None (Some "15000000000") None) Scenario.poll
             _ _ Hin Hst).
  - split.
    + apply Hskip. exact Hst'.
    + destruct (Hmulti Scenario.multi_outside "buy_token"
                  (Scenario.multi_store [Scenario.paused_purchase])
                  Scenario.paused_purchase (or_introl eq_refl) Hst')
        as (jobs & Hq & _ & Hno).
      exists jobs. split; [exact Hq|].
      apply Hno. constructor; [intros [] | constructor].
Defined.

(** C5 on a one-time task whose transfer confirms with hash 0xfeed. *)
Lemma successful_execution_is_recorded_witness :
  (fault (Scenario.outside None None None) 0 = false /\
   status (Scenario.task_of "t1" active "one-time" Scenario.gas_below_20_gwei) = active /\
   success {| success := true; r_transactionHash := Some "0xfeed";
              r_error := None; r_details := None |} = true) /\
  tasks (snd (executeTask (Scenario.outside None None None) (Scenario.job_for "t1")
                (Scenario.store
                   [Scenario.task_of "t1" active "one-time" Scenario.gas_below_20_gwei])))
    = [executed (Scenario.task_of "t1" active "one-time" Scenario.gas_below_20_gwei)
         {| success := true; r_transactionHash := Some "0xfeed";
            r_error := None; r_details := None |} 2004 2005] /\
  status (executed (Scenario.task_of "t1" active "one-time" Scenario.gas_below_20_gwei)
            {| success := true; r_transactionHash := Some "0xfeed";
               r_error := None; r_details := None |} 2004 2005) = completed.
Proof.
  split; [repeat split|].
  pose (t := Scenario.task_of "t1" active "one-time" Scenario.gas_below_20_gwei).
  pose (r := {| success := true; r_transactionHash := Some "0xfeed";
                r_error := None; r_details := None |}).
  destruct (successful_execution_is_recorded (Scenario.outside None None None)
              (Scenario.job_for "t1") (Scenario.store [t]) t Scenario.delegator r
              (set_events 4 (Scenario.store [t]))
              eq_refl eq_refl eq_refl eq_refl eq_refl eq_refl eq_refl eq_refl eq_refl
              eq_refl)
    as (_ & Hsaved & _ & _ & _ & Hdone & _).
  split.
  - exact Hsaved.
  - apply Hdone. reflexivity.
Defined.


(** C6, amended, on the task of the gas price scenario: the fetch fails and
    the check reports not met; the task is rescheduled 5 minutes after the
    check; with the condition met and the queue rejecting the job, 15
    minutes after. *)
Lemma fetch_failure_is_not_met_witness :
  (truthy (sessionKeyId (Scenario.task_of "t1" active "one-time"
                           Scenario.gas_below_20_gwei)) = true /\
   rpc_gasPrice (Scenario.outside None None None) 0 = None /\
   fault (Scenario.outside_rejecting 1 None (Some "15000000000") None) 1 = true) /\
  handleETHTransferCondition (Scenario.outside None None None)
      (Scenario.task_of "t1" active "one-time" Scenario.gas_below_20_gwei)
      (Scenario.store
         [Scenario.task_of "t1" active "one-time" Scenario.gas_below_20_gwei])
    = (Normal false,
       tick (Scenario.store
               [Scenario.task_of "t1" active "one-time" Scenario.gas_below_20_gwei])) /\
  tasks (snd (check_task (Scenario.outside None None None) "eth-transfer" "sepolia"
                (Scenario.task_of "t1" active "one-time" Scenario.gas_below_20_gwei)
                (Scenario.store
                   [Scenario.task_of "t1" active "one-time" Scenario.gas_below_20_gwei])))
    = [set_nextCheckAt (2002 + minutes 5)
         (set_lastCheckedAt 2001
            (Scenario.task_of "t1" active "one-time" Scenario.gas_below_20_gwei))] /\
  tasks (snd (check_task (Scenario.outside_rejecting 1 None (Some "15000000000") None)
                "eth-transfer" "sepolia"
                (Scenario.task_of "t1" active "one-time" Scenario.gas_below_20_gwei)
                (Scenario.store
                   [Scenario.task_of "t1" active "one-time" Scenario.gas_below_20_gwei])))
    = [set_nextCheckAt (2003 + minutes 15)
         (set_lastCheckedAt 2002
            (Scenario.task_of "t1" active "one-time" Scenario.gas_below_20_gwei))].
Proof.
  split; [repeat split|].
  pose (t := Scenario.task_of "t1" active "one-time" Scenario.gas_below_20_gwei).
  destruct (fetch_failure_is_not_met (Scenario.outside None None None)
              "eth-transfer" "sepolia" t (Scenario.store [t]))
    as (_ & Hfetch & Hnot & _).
  destruct (Hfetch eq_refl) as (_ & Hgas & _).
  pose proof (Hgas eq_refl ltac:(discriminate) eq_refl) as Hh.
  destruct (Hnot _ Hh eq_refl) as (_ & H5 & _).
  destruct (fetch_failure_is_not_met
              (Scenario.outside_rejecting 1 None (Some "15000000000") None)
              "eth-transfer" "sepolia" t (Scenario.store [t]))
    as (_ & _ & _ & Hrej & _).
  destruct (Hrej (tick (Scenario.store [t])) eq_refl eq_refl eq_refl) as (_ & H15 & _).
  split; [exact Hh|]. split; [exact H5 | exact H15].
Defined.

(** C7, amended, on the task with condition type 'custom-text'. *)
Lemma unknown_condition_type_is_not_met_witness :
  (conditionType (conditions (Scenario.task_of "t1" active "one-time"
                                Scenario.custom_text)) <> Some "price_threshold" /\
   conditionType (conditions (Scenario.task_of "t1" active "one-time"
                                Scenario.custom_text)) <> Some "balance_threshold" /\
   conditionType (conditions (Scenario.task_of "t1" active "one-time"
                                Scenario.custom_text)) <> Some "gas_price" /\
   conditionType (conditions (Scenario.task_of "t1" active "one-time"
                                Scenario.custom_text)) <> Some "time_based") /\
  handleETHTransferCondition (Scenario.outside None None None)
      (Scenario.task_of "t1" active "one-time" Scenario.custom_text)
      (Scenario.store [Scenario.task_of "t1" active "one-time" Scenario.custom_text])
    = (Normal false,
       Scenario.store [Scenario.task_of "t1" active "one-time" Scenario.custom_text]) /\
  tasks (snd (check_task (Scenario.outside None None None) "eth-transfer" "sepolia"
                (Scenario.task_of "t1" active "one-time" Scenario.custom_text)
                (Scenario.store
                   [Scenario.task_of "t1" active "one-time" Scenario.custom_text])))
    = [set_nextCheckAt (2001 + minutes 5)
         (set_lastCheckedAt 2000
            (Scenario.task_of "t1" active "one-time" Scenario.custom_text))].
Proof.
  assert (H1 : conditionType (conditions (Scenario.task_of "t1" active "one-time"
                 Scenario.custom_text)) <> Some "price_threshold") by discriminate.
  assert (H2 : conditionType (conditions (Scenario.task_of "t1" active "one-time"
                 Scenario.custom_text)) <> Some "balance_threshold") by discriminate.
  assert (H3 : conditionType (conditions (Scenario.task_of "t1" active "one-time"
                 Scenario.custom_text)) <> Some "gas_price") by discriminate.
  assert (H4 : conditionType (conditions (Scenario.task_of "t1" active "one-time"
                 Scenario.custom_text)) <> Some "time_based") by discriminate.
  split; [repeat split; assumption|].
  destruct (unknown_condition_type_is_not_met (Scenario.outside None None None)
              "eth-transfer" "sepolia"
              (Scenario.task_of "t1" active "one-time" Scenario.custom_text)
              (Scenario.store
                 [Scenario.task_of "t1" active "one-time" Scenario.custom_text])
              H1 H2 H3 H4) as (Hh & Hrun & _).
  split; [exact Hh|].
  destruct (Hrun eq_refl) as (_ & Hsaved & _). exact Hsaved.
Defined.

(** C9, amended, on an empty store, for both workers. *)
Lemma missing_task_job_writes_nothing_witness :
  (find (fun t => (_id t =? taskId (Scenario.job_for "t1"))%string)
        (tasks (Scenario.store [])) = None /\
   find (fun t => (MultiTask.taskId t =? "p1")%string)
        (MultiTask.tasks (Scenario.multi_store [])) = None) /\
  snd (executeTask (Scenario.outside None None None) (Scenario.job_for "t1")
         (Scenario.store [])) = tick (Scenario.store []) /\
  fst (executeTask (Scenario.outside None None None) (Scenario.job_for "t1")
         (Scenario.store [])) = Throw (Err "Task t1 not found") /\
  MultiTask.processTokenPurchaseTask Scenario.multi_outside Scenario.no_purchase "p1"
      (Scenario.multi_store [])
    = (Normal {| MultiTask.result_status := MultiTask.EXEC_FAILED;
                 MultiTask.result_message :=
                   "Error processing task: Task p1 not found" |},
       MultiTask.tick (Scenario.multi_store [])).
Proof.
  split; [split; reflexivity|].
  destruct missing_task_job_writes_nothing as [Heth Hmulti].
  destruct (Heth (Scenario.outside None None None) (Scenario.job_for "t1")
              (Scenario.store []) eq_refl) as (Hw & _ & He).
  destruct (Hmulti Scenario.multi_outside Scenario.no_purchase "p1"
              (Scenario.multi_store []) eq_refl) as (Hw' & _ & Hr).
  split; [exact Hw|]. split; [exact (He eq_refl)|].
  rewrite (surjective_pairing (MultiTask.processTokenPurchaseTask _ _ _ _)).
  rewrite Hw', (Hr eq_refl). reflexivity.
Defined.

(* ===================================================================== *)
(** * Properties of the rate limiter *)
(* ===================================================================== *)

Section RateLimiterFacts.

Import RateLimiter.

Lemma Map_get_set_same (key : string) (c : Counter) (m : Limits) :
  Map_get key (Map_set key c m) = Some c.
Proof.
  induction m as [|[k c'] m IH]; cbn.
  - rewrite String.eqb_refl. reflexivity.
  - destruct (k =? key)%string eqn:E; cbn; rewrite E; [reflexivity | exact IH].
Qed.

Lemma Map_get_set_other (key key' : string) (c : Counter) (m : Limits) :
  key' <> key ->
  Map_get key' (Map_set key c m) = Map_get key' m.
Proof.
  intros Hne. induction m as [|[k c'] m IH]; cbn.
  - destruct (key =? key')%string eqn:E; [|reflexivity].
    apply String.eqb_eq in E. congruence.
  - destruct (k =? key)%string eqn:E; cbn.
    + apply String.eqb_eq in E. subst k.
      destruct (key =? key')%string eqn:E'; [|reflexivity].
      apply String.eqb_eq in E'. congruence.
    + rewrite IH. reflexivity.
Qed.

Lemma Map_get_delete_other (key key' : string) (m : Limits) :
  key' <> key ->
  Map_get key' (Map_delete key m) = Map_get key' m.
Proof.
  intros Hne. induction m as [|[k c'] m IH]; cbn; [reflexivity|].
  destruct (k =? key)%string eqn:E; cbn.
  - apply String.eqb_eq in E. subst k.
    destruct (key =? key')%string eqn:E'; [|reflexivity].
    apply String.eqb_eq in E'. congruence.
  - rewrite IH. reflexivity.
Qed.

Lemma Map_get_absent (key : string) (m : Limits) :
  ~ In key (map fst m) -> Map_get key m = None.
Proof.
  induction m as [|[k c] m IH]; cbn; intros Hnot; [reflexivity|].
  destruct (k =? key)%string eqn:E.
  - apply String.eqb_eq in E. exfalso. apply Hnot. left. exact E.
  - apply IH. intros Hin. apply Hnot. right. exact Hin.
Qed.

Lemma Map_get_delete_same (key : string) (m : Limits) :
  NoDup (map fst m) ->
  Map_get key (Map_delete key m) = None.
Proof.
  induction m as [|[k c] m IH]; cbn; intros Hnd; [reflexivity|].
  inversion Hnd as [|x l Hnotin Hnd']; subst.
  destruct (k =? key)%string eqn:E; cbn.
  - apply String.eqb_eq in E. subst k. apply Map_get_absent. exact Hnotin.
  - rewrite E. apply IH. exact Hnd'.
Qed.

Lemma Map_get_filter (p : Counter -> bool) (key : string) (m : Limits) :
  NoDup (map fst m) ->
  Map_get key (filter (fun kc => p (snd kc)) m) =
  match Map_get key m with
  | Some c => if p c then Some c else None
  | None => None
  end.
Proof.
  induction m as [|[k c] m IH]; cbn; intros Hnd; [reflexivity|].
  inversion Hnd as [|x l Hnotin Hnd']; subst.
  destruct (k =? key)%string eqn:E.
  - apply String.eqb_eq in E. subst k.
    destruct (p c) eqn:Hp; cbn.
    + rewrite String.eqb_refl. reflexivity.
    + apply Map_get_absent. intros Hin. apply Hnotin.
      apply in_map_iff in Hin. destruct Hin as ([k' c'] & Hk & Hin).
      apply filter_In in Hin. apply in_map_iff. exists (k', c'). tauto.
  - destruct (p c); cbn; [rewrite E|]; apply IH; exact Hnd'.
Qed.

Lemma increments_cons (t : Z) (times : list Z) (key : string) (w mx : option Z)
    (r : RateLimit) :
  increments (t :: times) key w mx r =
    (fst (increment t key w mx r)
       :: fst (increments times key w mx (snd (increment t key w mx r))),
     snd (increments times key w mx (snd (increment t key w mx r)))).
Proof.
  cbn [increments]. destruct (increment t key w mx r) as [b r1]. cbn [fst snd].
  destruct (increments times key w mx r1) as [bs r2]. reflexivity.
Qed.

(** A request in an open window is counted in it. *)
Lemma increment_open (now : Z) (key : string) (w mx : option Z) (r : RateLimit)
    (c : Counter) :
  Map_get key (limits r) = Some c ->
  now <= resetAt c ->
  increment now key w mx r =
    (count c + 1 >? or_default mx (defaultMax r),
     set_limits (Map_set key {| count := count c + 1; resetAt := resetAt c |}
                   (limits r)) r).
Proof.
  intros Hget Hle. unfold increment. rewrite Hget.
  replace (resetAt c <? now) with false by (symmetry; apply Z.ltb_ge; exact Hle).
  reflexivity.
Qed.

(** A request for an unknown key, or after the window of the key has
    passed, opens a window. *)
Lemma increment_fresh (now : Z) (key : string) (w mx : option Z) (r : RateLimit) :
  (Map_get key (limits r) = None \/
   exists c, Map_get key (limits r) = Some c /\ resetAt c < now) ->
  increment now key w mx r =
    (1 >? or_default mx (defaultMax r),
     set_limits
       (Map_set key {| count := 1;
                       resetAt := now + or_default w (defaultWindowMs r) |}
          (limits r)) r).
Proof.
  intros Hstart. unfold increment.
  destruct Hstart as [-> | (c & -> & Hc)]; [reflexivity|].
  apply Z.ltb_lt in Hc. rewrite Hc. reflexivity.
Qed.

(** Within a window that is open until [R], the i-th further request is
    refused exactly when the count goes beyond the limit. *)
Lemma increments_in_window (times : list Z) (key : string) (w mx : option Z)
    (r : RateLimit) (n R : Z) :
  Map_get key (limits r) = Some {| count := n; resetAt := R |} ->
  (forall t, In t times -> t <= R) ->
  fst (increments times key w mx r) =
    map (fun i => n + Z.of_nat i >? or_default mx (defaultMax r))
        (seq 1 (List.length times)) /\
  Map_get key (limits (snd (increments times key w mx r))) =
    Some {| count := n + Z.of_nat (List.length times); resetAt := R |}.
Proof.
  revert r n. induction times as [|t times IH]; intros r n Hget Hin.
  - cbn. rewrite Z.add_0_r. split; [reflexivity | exact Hget].
  - rewrite increments_cons.
    rewrite (increment_open t key w mx r _ Hget (Hin t (or_introl eq_refl))).
    cbn [fst snd count resetAt].
    match goal with
    | |- context [increments times key w mx ?r1] =>
        specialize (IH r1 (n + 1))
    end.
    cbn [limits set_limits defaultMax] in IH.
    rewrite Map_get_set_same in IH.
    specialize (IH eq_refl (fun t' Ht' => Hin t' (or_intror Ht'))).
    destruct IH as [IH1 IH2]. split.
    + cbn [List.length seq map]. f_equal.
      rewrite IH1. rewrite <- (seq_shift (List.length times) 1), map_map.
      apply map_ext. intros i. f_equal. lia.
    + rewrite IH2. f_equal. f_equal. cbn [List.length]. lia.
Qed.

(** X1. In a window that starts with a request at time [t0] (the key being
    unknown, or its previous window over), the requests made up to the end
    of the window are passed until the limit is reached and refused from
    then on: the i-th request is refused exactly when i exceeds the limit. *)
Theorem first_max_requests_of_a_window_pass :
  forall (r : RateLimit) (key : string) (w mx : option Z) (t0 : Z) (later : list Z),
    (Map_get key (limits r) = None \/
     exists c, Map_get key (limits r) = Some c /\ resetAt c < t0) ->
    (forall t, In t later -> t <= t0 + or_default w (defaultWindowMs r)) ->
    let res := increments (t0 :: later) key w mx r in
    fst res =
      map (fun i => Z.of_nat i >? or_default mx (defaultMax r))
          (seq 1 (S (List.length later))) /\
    Map_get key (limits (snd res)) =
      Some {| count := Z.of_nat (S (List.length later));
              resetAt := t0 + or_default w (defaultWindowMs r) |}.
Proof.
  intros r key w mx t0 later Hstart Hin. cbv zeta.
  rewrite increments_cons, (increment_fresh t0 key w mx r Hstart).
  cbn [fst snd].
  match goal with
  | |- context [increments later key w mx ?r1] =>
      pose proof (increments_in_window later key w mx r1 1
                    (t0 + or_default w (defaultWindowMs r))) as Hw
  end.
  cbn [limits set_limits defaultMax] in Hw. rewrite Map_get_set_same in Hw.
  specialize (Hw eq_refl Hin). destruct Hw as [Hw1 Hw2]. split.
  - cbn [seq map]. f_equal. rewrite Hw1.
    rewrite <- (seq_shift (List.length later) 1), map_map. apply map_ext.
    intros i. f_equal. lia.
  - rewrite Hw2. f_equal. f_equal. lia.
Qed.

(** X2. More than [getRetryAfter] seconds after [now], a request for the
    key opens a new window, whatever was counted before; up to the reset
    time itself, that instant included, it is still counted in the old
    window. The retry delay is never negative and is the time to the reset
    in whole seconds, rounded up. *)
Theorem retry_after_opens_a_new_window :
  forall (r : RateLimit) (now : Z) (key : string),
    let s := getRetryAfter now key r in
    0 <= s /\
    (forall c,
        Map_get key (limits r) = Some c ->
        (s = 0 <-> resetAt c <= now) /\
        (now < resetAt c -> 1000 * (s - 1) < resetAt c - now <= 1000 * s)) /\
    (forall t' w mx,
        now + 1000 * s < t' ->
        increment t' key w mx r =
          (1 >? or_default mx (defaultMax r),
           set_limits
             (Map_set key {| count := 1;
                             resetAt := t' + or_default w (defaultWindowMs r) |}
                (limits r)) r)) /\
    (forall c t' w mx,
        Map_get key (limits r) = Some c ->
        t' <= resetAt c ->
        fst (increment t' key w mx r)
          = (count c + 1 >? or_default mx (defaultMax r))).
Proof.
  intros r now key. cbv zeta. unfold getRetryAfter, ceil_seconds.
  destruct (Map_get key (limits r)) as [c|] eqn:Hget.
  - assert (Hceil : forall x, 1000 * (- (- x / 1000) - 1) < x <= 1000 * - (- x / 1000)).
    { intros x. pose proof (Z.div_mod (- x) 1000 ltac:(lia)) as Hdm.
      pose proof (Z.mod_pos_bound (- x) 1000 ltac:(lia)) as Hb. lia. }
    pose proof (Hceil (resetAt c - now)) as Hc.
    split; [lia|]. split; [|split].
    + intros c' [= <-]. split; [split; intros; lia | intros; lia].
    + intros t' w mx Hlt. apply increment_fresh. right. exists c.
      split; [exact Hget | lia].
    + intros c' t' w mx [= <-] Hle.
      rewrite (increment_open t' key w mx r c Hget Hle). reflexivity.
  - split; [lia|]. split; [|split].
    + intros c [=].
    + intros t' w mx _. apply increment_fresh. left. exact Hget.
    + intros c t' w mx [=].
Qed.

(** One entry per key, as in a [Map]. *)
Lemma Map_set_keys (key : string) (c : Counter) (m : Limits) :
  NoDup (map fst m) -> NoDup (map fst (Map_set key c m)).
Proof.
  induction m as [|[k c'] m IH]; cbn; intros Hnd.
  - constructor; [intros [] | constructor].
  - inversion Hnd as [|x l Hnotin Hnd']; subst.
    destruct (k =? key)%string eqn:E; cbn.
    + constructor; assumption.
    + constructor; [|apply IH; exact Hnd'].
      intros Hin. apply Hnotin. clear - Hin E.
      induction m as [|[k' c''] m IHm]; cbn in *.
      * destruct Hin as [Hk | []]. subst. rewrite String.eqb_refl in E. discriminate.
      * destruct (k' =? key)%string; cbn in Hin; destruct Hin as [Hk | Hin]; auto.
Qed.

(** X3. [clear] forgets the key and nothing else: the retry delay of the
    key is 0 and its next request opens a window with count 1; the counter
    of every other key is what it was. A request for one key leaves the
    counter, and so the answers, of every other key unchanged. *)
Theorem clear_resets_only_that_key :
  forall (r : RateLimit) (key : string),
    NoDup (map fst (limits r)) ->
    (forall now, getRetryAfter now key (clear key r) = 0) /\
    (forall now w mx,
        increment now key w mx (clear key r) =
          (1 >? or_default mx (defaultMax r),
           set_limits
             (Map_set key {| count := 1;
                             resetAt := now + or_default w (defaultWindowMs r) |}
                (limits (clear key r))) (clear key r))) /\
    (forall key',
        key' <> key ->
        Map_get key' (limits (clear key r)) = Map_get key' (limits r) /\
        (forall now, getRetryAfter now key' (clear key r) = getRetryAfter now key' r) /\
        (forall now w mx,
            Map_get key' (limits (snd (increment now key w mx r)))
              = Map_get key' (limits r) /\
            fst (increment now key' w mx (snd (increment now key w mx r)))
              = fst (increment now key' w mx r))).
Proof.
  intros r key Hnd.
  assert (Hgone : Map_get key (limits (clear key r)) = None)
    by (apply Map_get_delete_same; exact Hnd).
  split; [|split].
  - intros now. unfold getRetryAfter. rewrite Hgone. reflexivity.
  - intros now w mx. apply (increment_fresh now key w mx (clear key r)).
    left. exact Hgone.
  - intros key' Hne.
    assert (Hsame : Map_get key' (limits (clear key r)) = Map_get key' (limits r))
      by (apply Map_get_delete_other; exact Hne).
    split; [exact Hsame|]. split.
    + intros now. unfold getRetryAfter. rewrite Hsame. reflexivity.
    + intros now w mx.
      assert (Hinc : Map_get key' (limits (snd (increment now key w mx r)))
                     = Map_get key' (limits r))
        by (apply Map_get_set_other; exact Hne).
      split; [exact Hinc|].
      unfold increment at 1 3. cbn [fst]. rewrite Hinc. reflexivity.
Qed.

(** X4. [cleanup] deletes exactly the counters whose window is over, and no
    later answer depends on whether it ran: from then on (the clock not
    running backwards) [increment] and [getRetryAfter] return what they
    would have returned without it, for every key. *)
Theorem cleanup_is_not_observable :
  forall (r : RateLimit) (now : Z),
    NoDup (map fst (limits r)) ->
    (forall key,
        Map_get key (limits (cleanup now r)) =
          match Map_get key (limits r) with
          | Some c => if resetAt c <? now then None else Some c
          | None => None
          end) /\
    (forall now' key w mx,
        now <= now' ->
        fst (increment now' key w mx (cleanup now r))
          = fst (increment now' key w mx r) /\
        Map_get key (limits (snd (increment now' key w mx (cleanup now r))))
          = Map_get key (limits (snd (increment now' key w mx r))) /\
        getRetryAfter now' key (cleanup now r) = getRetryAfter now' key r).
Proof.
  intros r now Hnd.
  assert (Hget : forall key,
    Map_get key (limits (cleanup now r)) =
      match Map_get key (limits r) with
      | Some c => if resetAt c <? now then None else Some c
      | None => None
      end).
  { intros key. unfold cleanup. cbn [limits set_limits].
    rewrite (Map_get_filter (fun c => negb (resetAt c <? now)) key (limits r) Hnd).
    destruct (Map_get key (limits r)) as [c|]; [|reflexivity].
    destruct (resetAt c <? now); reflexivity. }
  split; [exact Hget|].
  intros now' key w mx Hle.
  unfold increment, getRetryAfter. cbn [fst snd limits set_limits].
  rewrite !Map_get_set_same, (Hget key).
  cbn [cleanup set_limits defaultWindowMs defaultMax].
  destruct (Map_get key (limits r)) as [c|]; [|repeat split].
  destruct (resetAt c <? now) eqn:E.
  - apply Z.ltb_lt in E.
    replace (resetAt c <? now') with true by (symmetry; apply Z.ltb_lt; lia).
    repeat split. unfold ceil_seconds.
    pose proof (Z.div_mod (- (resetAt c - now')) 1000 ltac:(lia)) as Hdm.
    pose proof (Z.mod_pos_bound (- (resetAt c - now')) 1000 ltac:(lia)) as Hb. lia.
  - repeat split.
Qed.

(** A limiter with the default window of one minute and two requests
    allowed: requests at 1000, 1000, 1500 and, at the last instant of the
    window, 61000. *)
Lemma first_max_requests_of_a_window_pass_witness :
  fst (increments [1000; 1000; 1500; 61000] "key-1:minute" None (Some 2)
         (create None None))
    = [false; false; true; true] /\
  Map_get "key-1:minute"
    (limits (snd (increments [1000; 1000; 1500; 61000] "key-1:minute" None (Some 2)
                    (create None None))))
    = Some {| count := 4; resetAt := 61000 |}.
Proof.
  apply (first_max_requests_of_a_window_pass (create None None) "key-1:minute"
           None (Some 2) 1000 [1000; 1500; 61000]).
  - left. reflexivity.
  - intros t [<-|[<-|[<-|[]]]]; cbn; lia.
Defined.

(** Two keys counted, one cleared. *)
Lemma clear_resets_only_that_key_witness :
  let r := snd (increment 10 "b" None None
                  (snd (increment 0 "a" None None (create None None)))) in
  getRetryAfter 20 "a" (clear "a" r) = 0 /\
  Map_get "b" (limits (clear "a" r)) = Some {| count := 1; resetAt := 60010 |}.
Proof.
  cbv zeta.
  destruct (clear_resets_only_that_key
              (snd (increment 10 "b" None None
                      (snd (increment 0 "a" None None (create None None))))) "a")
    as (Hretry & _ & Hother).
  - cbn. repeat constructor; cbn; intuition discriminate.
  - split; [exact (Hretry 20)|].
    destruct (Hother "b") as (Hget & _); [discriminate|].
    rewrite Hget. reflexivity.
Defined.

(** A counter whose window ended at 60000, cleaned up at 70000: the request
    at 80000 is answered as without the cleanup. *)
Lemma cleanup_is_not_observable_witness :
  let r := snd (increment 0 "a" None (Some 0) (create None None)) in
  Map_get "a" (limits (cleanup 70000 r)) = None /\
  fst (increment 80000 "a" None (Some 0) (cleanup 70000 r)) = true /\
  fst (increment 80000 "a" None (Some 0) r) = true.
Proof.
  cbv zeta.
  destruct (cleanup_is_not_observable
              (snd (increment 0 "a" None (Some 0) (create None None))) 70000)
    as (Hget & Hsame).
  - cbn. repeat constructor; cbn; intuition.
  - split; [rewrite Hget; reflexivity|].
    destruct (Hsame 80000 "a" None (Some 0)) as (Hinc & _); [lia|].
    rewrite Hinc. split; reflexivity.
Defined.

End RateLimiterFacts.

(* ===================================================================== *)
(** * Properties of the session key service *)
(* ===================================================================== *)

Section SessionKeyFacts.

Import Js.
Import SessionKeys.

Variable env : Env.

Lemma DelegationStatus_eqb_eq (a b : DelegationStatus) :
  DelegationStatus_eqb a b = true <-> a = b.
Proof. destruct a, b; cbn; split; congruence. Qed.

Lemma selected_delegations (u : User) :
  delegations (selected u) = map (set_privateKey None) (delegations u).
Proof. reflexivity. Qed.

Lemma find_map_set_privateKey (key : string) (l : list Delegation) :
  find (has_key key) (map (set_privateKey None) l) =
  option_map (set_privateKey None) (find (has_key key) l).
Proof.
  induction l as [|d l IH]; [reflexivity|].
  cbn [map find]. rewrite IH. unfold has_key. cbn [sessionKeyAddress set_privateKey].
  destruct (sessionKeyAddress d =? key)%string; reflexivity.
Qed.

(** The run of [hasPermission] when the database answers. *)
Lemma hasPermission_run (key contract selector : string) (w : World) :
  fault env (S (events w)) = false ->
  hasPermission env key contract selector w =
    (Normal
       match find (permission_query key (clock env (events w))) (users w) with
       | Some u =>
           match find (has_key key) (delegations u) with
           | Some d => existsb (permits contract selector) (permissions d)
           | None => false
           end
       | None => false
       end,
     tick (tick w)).
Proof.
  intros Hf. unfold hasPermission, try_catch, bind, now, User_findOne, call, ret.
  cbn. rewrite Hf.
  destruct (find (permission_query key (clock env (events w))) (users w)) as [u|];
    cbn; [|reflexivity].
  rewrite find_map_set_privateKey.
  destruct (find (has_key key) (delegations u)) as [d|]; reflexivity.
Qed.

Lemma hasPermission_rejected (key contract selector : string) (w : World) :
  fault env (S (events w)) = true ->
  hasPermission env key contract selector w = (Normal false, tick (tick w)).
Proof.
  intros Hf. unfold hasPermission, try_catch, bind, now, User_findOne, call, ret.
  cbn. rewrite Hf. reflexivity.
Qed.

Lemma hasPermission_answers (key contract selector : string) (w : World) :
  exists b, hasPermission env key contract selector w = (Normal b, tick (tick w)).
Proof.
  destruct (fault env (S (events w))) eqn:Hf.
  - rewrite (hasPermission_rejected _ _ _ _ Hf). eexists. reflexivity.
  - rewrite (hasPermission_run _ _ _ _ Hf). eexists. reflexivity.
Qed.

Lemma permits_true (contract selector : string) (p : Permission) :
  permits contract selector p = true <->
  toLowerCase (contractAddress p) = toLowerCase contract /\
  In selector (functionSelectors p).
Proof.
  unfold permits. rewrite andb_true_iff, String.eqb_eq, existsb_exists.
  split.
  - intros [Hc (s & Hin & Hs)]. apply String.eqb_eq in Hs. subst s. tauto.
  - intros [Hc Hin]. split; [exact Hc|]. exists selector.
    split; [exact Hin | apply String.eqb_refl].
Qed.

(** X5. [hasPermission] never throws and changes no user. It answers true
    only if some stored delegation of that session key lists the selector
    for the contract, the contract address compared without regard to case;
    in particular it answers false for a session key no user holds, and
    when the database rejects the query. *)
Theorem hasPermission_only_for_a_listed_selector :
  forall (key contract selector : string) (w : World),
    (exists b, fst (hasPermission env key contract selector w) = Normal b) /\
    users (snd (hasPermission env key contract selector w)) = users w /\
    (fst (hasPermission env key contract selector w) = Normal true ->
     exists u d p,
       In u (users w) /\ In d (delegations u) /\ sessionKeyAddress d = key /\
       In p (permissions d) /\
       toLowerCase (contractAddress p) = toLowerCase contract /\
       In selector (functionSelectors p)) /\
    ((forall u d, In u (users w) -> In d (delegations u) ->
                  sessionKeyAddress d <> key) ->
     fst (hasPermission env key contract selector w) = Normal false) /\
    (fault env (S (events w)) = true ->
     fst (hasPermission env key contract selector w) = Normal false).
Proof.
  intros key contract selector w.
  assert (Hsound :
    fst (hasPermission env key contract selector w) = Normal true ->
    exists u d p,
      In u (users w) /\ In d (delegations u) /\ sessionKeyAddress d = key /\
      In p (permissions d) /\
      toLowerCase (contractAddress p) = toLowerCase contract /\
      In selector (functionSelectors p)).
  { destruct (fault env (S (events w))) eqn:Hf.
    - rewrite (hasPermission_rejected _ _ _ _ Hf). discriminate.
    - rewrite (hasPermission_run _ _ _ _ Hf). cbn [fst].
      destruct (find _ (users w)) as [u|] eqn:Hu; [|discriminate].
      destruct (find (has_key key) (delegations u)) as [d|] eqn:Hd; [|discriminate].
      intros [= Hp]. apply existsb_exists in Hp. destruct Hp as (p & Hin & Hp).
      apply permits_true in Hp. apply find_some in Hu. apply find_some in Hd.
      destruct Hd as [Hd Hk]. apply String.eqb_eq in Hk.
      exists u, d, p. tauto. }
  split; [|split; [|split; [exact Hsound|split]]].
  - destruct (fault env (S (events w))) eqn:Hf.
    + rewrite (hasPermission_rejected _ _ _ _ Hf). eexists. reflexivity.
    + rewrite (hasPermission_run _ _ _ _ Hf). eexists. reflexivity.
  - destruct (fault env (S (events w))) eqn:Hf.
    + rewrite (hasPermission_rejected _ _ _ _ Hf). reflexivity.
    + rewrite (hasPermission_run _ _ _ _ Hf). reflexivity.
  - intros Hnone.
    destruct (fault env (S (events w))) eqn:Hf;
      [rewrite (hasPermission_rejected _ _ _ _ Hf); reflexivity|].
    destruct (fst (hasPermission env key contract selector w)) as [[|]|e] eqn:E.
    + exfalso. destruct (Hsound eq_refl) as (u & d & p & Hu & Hd & Hk & _).
      exact (Hnone u d Hu Hd Hk).
    + reflexivity.
    + rewrite (hasPermission_run _ _ _ _ Hf) in E. discriminate.
  - intros Hf. rewrite (hasPermission_rejected _ _ _ _ Hf). reflexivity.
Qed.

Lemma find_app_none {A : Type} (p : A -> bool) (l1 l2 : list A) :
  (forall x, In x l1 -> p x = false) ->
  find p (l1 ++ l2) = find p l2.
Proof.
  induction l1 as [|x l1 IH]; cbn; intros Hall; [reflexivity|].
  rewrite (Hall x (or_introl eq_refl)). apply IH.
  intros y Hy. apply Hall. right. exact Hy.
Qed.

Lemma find_none_all {A : Type} (p : A -> bool) (l : list A) :
  (forall x, In x l -> p x = false) -> find p l = None.
Proof.
  induction l as [|x l IH]; cbn; intros Hall; [reflexivity|].
  rewrite (Hall x (or_introl eq_refl)). apply IH.
  intros y Hy. apply Hall. right. exact Hy.
Qed.

(** X6. For the one user who holds the session key, [hasPermission] looks
    for 'active' and for an expiry in the future among all delegations of
    the user, not on the delegation of the session key: the answer is that
    this delegation lists the selector for the contract, that some
    delegation of the user is active and that some delegation of the user
    has not expired. The status and the expiry of the delegation of the
    session key itself play no role beyond that. *)
Theorem hasPermission_checks_status_on_any_delegation :
  forall (key contract selector : string) (w : World)
         (before after : list User) (u : User) (d : Delegation),
    fault env (S (events w)) = false ->
    users w = (before ++ u :: after)%list ->
    (forall v, In v before \/ In v after ->
               existsb (has_key key) (delegations v) = false) ->
    find (has_key key) (delegations u) = Some d ->
    hasPermission env key contract selector w =
      (Normal (existsb (permits contract selector) (permissions d)
               && existsb is_active (delegations u)
               && existsb (fun x => clock env (events w) <? expiresAt x)
                    (delegations u)),
       tick (tick w)).
Proof.
  intros key contract selector w before after u d Hf Hus Hothers Hd.
  rewrite (hasPermission_run _ _ _ _ Hf), Hus.
  assert (Hq : forall v, In v before \/ In v after ->
             permission_query key (clock env (events w)) v = false).
  { intros v Hv. unfold permission_query. rewrite (Hothers v Hv). reflexivity. }
  rewrite find_app_none by (intros v Hv; apply Hq; left; exact Hv).
  cbn [find].
  assert (Hk : existsb (has_key key) (delegations u) = true).
  { apply existsb_exists. apply find_some in Hd. exists d. exact Hd. }
  unfold permission_query at 1. rewrite Hk. cbn [andb].
  fold is_active.
  change (fun d0 : Delegation => DelegationStatus_eqb (status d0) active)
    with is_active.
  clear Hk.
  destruct (existsb is_active (delegations u)); cbn [andb].
  - destruct (existsb (fun x => clock env (events w) <? expiresAt x)
                (delegations u)); cbn [andb].
    + rewrite Hd, !andb_true_r. reflexivity.
    + rewrite find_none_all by (intros v Hv; apply Hq; right; exact Hv).
      rewrite andb_false_r. reflexivity.
  - rewrite find_none_all by (intros v Hv; apply Hq; right; exact Hv).
    rewrite andb_false_r. reflexivity.
Qed.

(** X7. The middleware answers 401 without any lookup when the session key
    header is missing or empty. When the contract address or the function
    selector header is missing or empty it calls [next()] for any session
    key, again without any lookup. With both headers it calls [next()]
    exactly when [hasPermission] answers true and answers 403 otherwise; it
    never answers 500 and never throws. *)
Theorem dtkAuthMiddleware_outcomes :
  forall (headers : Headers) (w : World),
    (truthy (x_session_key headers) = false ->
     dtkAuthMiddleware env headers w = (Normal Unauthorized401, w)) /\
    (forall key,
        x_session_key headers = Some key ->
        truthy (x_session_key headers) = true ->
        truthy (x_contract_address headers)
          && truthy (x_function_selector headers) = false ->
        dtkAuthMiddleware env headers w = (Normal (Next key), w)) /\
    (forall key contract selector,
        x_session_key headers = Some key ->
        truthy (x_session_key headers) = true ->
        x_contract_address headers = Some contract ->
        truthy (x_contract_address headers) = true ->
        x_function_selector headers = Some selector ->
        truthy (x_function_selector headers) = true ->
        exists allowed,
          hasPermission env key contract selector w
            = (Normal allowed, snd (hasPermission env key contract selector w)) /\
          dtkAuthMiddleware env headers w =
            (Normal (if allowed then Next key else Forbidden403),
             snd (hasPermission env key contract selector w))) /\
    (exists o, fst (dtkAuthMiddleware env headers w) = Normal o /\ o <> ServerError500).
Proof.
  intros headers w.
  assert (Hthird : forall key contract selector,
        x_session_key headers = Some key ->
        truthy (x_session_key headers) = true ->
        x_contract_address headers = Some contract ->
        truthy (x_contract_address headers) = true ->
        x_function_selector headers = Some selector ->
        truthy (x_function_selector headers) = true ->
        exists allowed,
          hasPermission env key contract selector w
            = (Normal allowed, snd (hasPermission env key contract selector w)) /\
          dtkAuthMiddleware env headers w =
            (Normal (if allowed then Next key else Forbidden403),
             snd (hasPermission env key contract selector w))).
  { intros key contract selector Hk Hkt Hc Hct Hs Hst.
    destruct (hasPermission_answers key contract selector w) as [b Hb].
    exists b. split.
    - rewrite Hb. reflexivity.
    - unfold dtkAuthMiddleware, try_catch, bind, ret.
      rewrite Hk, Hc, Hs. rewrite Hk in Hkt. rewrite Hc in Hct. rewrite Hs in Hst.
      rewrite Hkt, Hct, Hst. cbn [negb andb].
      rewrite Hb. destruct b; reflexivity. }
  assert (Hsecond : forall key,
        x_session_key headers = Some key ->
        truthy (x_session_key headers) = true ->
        truthy (x_contract_address headers)
          && truthy (x_function_selector headers) = false ->
        dtkAuthMiddleware env headers w = (Normal (Next key), w)).
  { intros key Hk Hkt Hno.
    unfold dtkAuthMiddleware, try_catch, bind, ret.
    rewrite Hk. rewrite Hk in Hkt. rewrite Hkt. cbn [negb].
    destruct (x_contract_address headers) as [c|]; [|reflexivity].
    destruct (x_function_selector headers) as [s|]; [|reflexivity].
    rewrite Hno. reflexivity. }
  assert (Hfirst : truthy (x_session_key headers) = false ->
     dtkAuthMiddleware env headers w = (Normal Unauthorized401, w)).
  { intros Hno. unfold dtkAuthMiddleware, try_catch, ret.
    destruct (x_session_key headers) as [k|]; [|reflexivity].
    rewrite Hno. reflexivity. }
  split; [exact Hfirst|]. split; [exact Hsecond|]. split; [exact Hthird|].
  destruct (truthy (x_session_key headers)) eqn:Hkt.
  - destruct (x_session_key headers) as [key|] eqn:Hk; [|discriminate].
    destruct (truthy (x_contract_address headers)
              && truthy (x_function_selector headers)) eqn:Hboth.
    + apply andb_true_iff in Hboth. destruct Hboth as [Hct Hst].
      destruct (x_contract_address headers) as [c|] eqn:Hc; [|discriminate].
      destruct (x_function_selector headers) as [s|] eqn:Hs; [|discriminate].
      destruct (Hthird key c s eq_refl eq_refl eq_refl Hct eq_refl Hst)
        as (b & _ & Hrun).
      rewrite Hrun. cbn [fst]. eexists. split; [reflexivity|].
      destruct b; discriminate.
    + rewrite (Hsecond key eq_refl eq_refl eq_refl). cbn [fst].
      eexists. split; [reflexivity | discriminate].
  - rewrite (Hfirst eq_refl). cbn [fst].
    eexists. split; [reflexivity | discriminate].
Qed.


(** ** Listing and revoking delegations *)

Lemma expire_set_privateKey (date : Date) (k : option string) (d : Delegation) :
  expire date (set_privateKey k d) = set_privateKey k (expire date d).
Proof.
  unfold expire. cbn [status expiresAt set_privateKey].
  destruct (DelegationStatus_eqb (status d) active && (expiresAt d <? date));
    reflexivity.
Qed.

Lemma expire_nothing (date : Date) (l : list Delegation) :
  existsb (fun d => is_active d && (expiresAt d <? date)) l = false ->
  map (expire date) l = l.
Proof.
  induction l as [|d l IH]; cbn [existsb map]; intros H; [reflexivity|].
  apply orb_false_iff in H. destruct H as [Hd Hl].
  rewrite (IH Hl). unfold expire. unfold is_active in Hd. rewrite Hd. reflexivity.
Qed.

Lemma existsb_map {A B : Type} (f : A -> B) (p : B -> bool) (l : list A) :
  existsb p (map f l) = existsb (fun x => p (f x)) l.
Proof. induction l as [|x l IH]; cbn; [reflexivity | rewrite IH; reflexivity]. Qed.

Lemma live_spec (date : Date) (l : list Delegation) :
  filter is_active (map (expire date) (map (set_privateKey None) l)) = live date l.
Proof.
  unfold live. induction l as [|d l IH]; [reflexivity|].
  cbn [map filter]. rewrite IH, expire_set_privateKey.
  change (is_active (set_privateKey None (expire date d)))
    with (is_active (expire date d)).
  unfold expire, is_active.
  destruct (DelegationStatus_eqb (status d) active) eqn:Ha; cbn [andb negb].
  - destruct (expiresAt d <? date); cbn [negb status set_status DelegationStatus_eqb map].
    + reflexivity.
    + rewrite Ha. reflexivity.
  - rewrite Ha. reflexivity.
Qed.

Lemma In_live (date : Date) (l : list Delegation) (d : Delegation) :
  In d (live date l) <->
  exists d0, In d0 l /\ d = set_privateKey None d0 /\
             status d0 = active /\ date <= expiresAt d0.
Proof.
  unfold live. rewrite in_map_iff. split.
  - intros (d0 & Hd & Hin). apply filter_In in Hin. destruct Hin as [Hin Hc].
    apply andb_true_iff in Hc. destruct Hc as [Ha He].
    apply DelegationStatus_eqb_eq in Ha. apply negb_true_iff, Z.ltb_ge in He.
    exists d0. auto.
  - intros (d0 & Hin & Hd & Ha & He). exists d0. split; [auto|].
    apply filter_In. split; [exact Hin|].
    apply andb_true_iff. split.
    + apply DelegationStatus_eqb_eq. exact Ha.
    + apply negb_true_iff, Z.ltb_ge. exact He.
Qed.

Lemma find_map_preserving {A : Type} (p : A -> bool) (f : A -> A) (l : list A) :
  (forall x, p (f x) = p x) ->
  find p (map f l) = option_map f (find p l).
Proof.
  intros Hp. induction l as [|x l IH]; cbn; [reflexivity|].
  rewrite Hp. destruct (p x); [reflexivity | exact IH].
Qed.

Lemma find_by_address_saved (a b : string) (f : list Delegation -> list Delegation)
    (l : list User) :
  find (by_address a) (saved_delegations b f l) =
  option_map (fun u => if (address u =? b)%string
                       then set_delegations (f (delegations u)) u else u)
             (find (by_address a) l).
Proof.
  unfold saved_delegations. apply find_map_preserving.
  intros u. unfold by_address. destruct (address u =? b)%string; reflexivity.
Qed.

Lemma by_address_address (a : string) (u : User) :
  by_address a u = true -> address u = toLowerCase a.
Proof. unfold by_address. apply String.eqb_eq. Qed.

(** The run of [getUserDelegations]. *)
Lemma getUserDelegations_run (a : string) (w : World) :
  getUserDelegations env a w =
    if fault env (events w) then (Normal [], tick w)
    else match find (by_address a) (users w) with
         | None => (Normal [], tick w)
         | Some u =>
             let date := clock env (S (events w)) in
             if existsb (fun d => is_active d && (expiresAt d <? date))
                  (delegations u)
             then if fault env (S (S (events w)))
                  then (Normal [], tick (tick (tick w)))
                  else (Normal (live date (delegations u)),
                        tick (set_users
                                (saved_delegations (address u) (map (expire date))
                                   (users w))
                                (tick (tick w))))
             else (Normal (live date (delegations u)), tick (tick w))
         end.
Proof.
  unfold getUserDelegations, try_catch, bind, User_findOne, User_save, now, call, ret.
  destruct (fault env (events w)); [reflexivity|].
  destruct (find (by_address a) (users w)) as [u|]; [|reflexivity].
  cbn [option_map events tick users fst snd].
  rewrite selected_delegations, existsb_map.
  change (fun x : Delegation =>
            is_active (set_privateKey None x)
            && (expiresAt (set_privateKey None x) <? clock env (S (events w))))
    with (fun x : Delegation =>
            is_active x && (expiresAt x <? clock env (S (events w)))).
  cbv zeta.
  destruct (existsb _ (delegations u)).
  - cbn [events tick]. destruct (fault env (S (S (events w)))); [reflexivity|].
    cbn. rewrite live_spec. reflexivity.
  - cbn. rewrite live_spec. reflexivity.
Qed.

(** X8. [getUserDelegations] never throws, and every delegation it returns
    is a stored delegation of the user of that address (compared in lower
    case) that is active and not past its expiry at the time of the call,
    returned without its private key. For an unknown address, and when the
    database rejects the lookup, the list is empty. *)
Theorem getUserDelegations_lists_only_live_delegations :
  forall (a : string) (w : World),
    exists l,
      fst (getUserDelegations env a w) = Normal l /\
      (forall d, In d l ->
         status d = active /\ clock env (S (events w)) <= expiresAt d /\
         privateKey d = None /\
         exists u d0,
           In u (users w) /\ address u = toLowerCase a /\
           In d0 (delegations u) /\ d = set_privateKey None d0) /\
      ((forall u, In u (users w) -> address u <> toLowerCase a) -> l = []) /\
      (fault env (events w) = true -> l = []).
Proof.
  intros a w. rewrite getUserDelegations_run.
  assert (Hlive : forall u, find (by_address a) (users w) = Some u ->
            forall d, In d (live (clock env (S (events w))) (delegations u)) ->
              status d = active /\ clock env (S (events w)) <= expiresAt d /\
              privateKey d = None /\
              exists u d0,
                In u (users w) /\ address u = toLowerCase a /\
                In d0 (delegations u) /\ d = set_privateKey None d0).
  { intros u Hu d Hd. apply In_live in Hd.
    destruct Hd as (d0 & Hin & -> & Ha & He).
    apply find_some in Hu. destruct Hu as [Hu Haddr].
    apply by_address_address in Haddr.
    repeat split; auto. exists u, d0. auto. }
  assert (Hnone : (forall u, In u (users w) -> address u <> toLowerCase a) ->
            find (by_address a) (users w) = None).
  { intros Hno. apply find_none_all. intros u Hu. unfold by_address.
    apply String.eqb_neq. exact (Hno u Hu). }
  destruct (fault env (events w)).
  { exists []. cbn. repeat split; auto; contradiction. }
  destruct (find (by_address a) (users w)) as [u|] eqn:Hu.
  2:{ exists []. cbn. repeat split; auto; contradiction. }
  cbv zeta.
  destruct (existsb _ (delegations u)).
  - destruct (fault env (S (S (events w)))).
    + exists []. cbn. repeat split; auto; contradiction.
    + eexists. cbn [fst]. split; [reflexivity|].
      split; [exact (Hlive u eq_refl)|].
      split; [|discriminate]. intros Hno. discriminate (Hnone Hno).
  - eexists. cbn [fst]. split; [reflexivity|].
    split; [exact (Hlive u eq_refl)|].
    split; [|discriminate]. intros Hno. discriminate (Hnone Hno).
Qed.

(** X9. When the lookup of [getUserDelegations] is answered with the
    user's document: if no delegation has to be marked, or the save is
    accepted, the result is every live delegation of the document, in
    order, and the document is stored with each active delegation past its
    expiry marked 'expired' and nothing else changed; if a delegation has to
    be marked and the save is rejected, the result is the empty list, live
    delegations or not, and the store is unchanged. *)
Theorem getUserDelegations_marks_expired :
  forall (a : string) (w : World) (u : User),
    fault env (events w) = false ->
    find (by_address a) (users w) = Some u ->
    let date := clock env (S (events w)) in
    let stale :=
      existsb (fun d => is_active d && (expiresAt d <? date)) (delegations u) in
    (stale = false \/ fault env (S (S (events w))) = false ->
     fst (getUserDelegations env a w) = Normal (live date (delegations u)) /\
     find (by_address a) (users (snd (getUserDelegations env a w)))
       = Some (set_delegations (map (expire date) (delegations u)) u) /\
     forall b, toLowerCase b <> toLowerCase a ->
       find (by_address b) (users (snd (getUserDelegations env a w)))
         = find (by_address b) (users w)) /\
    (stale = true -> fault env (S (S (events w))) = true ->
     fst (getUserDelegations env a w) = Normal [] /\
     users (snd (getUserDelegations env a w)) = users w).
Proof.
  intros a w u Hf Hu date stale.
  rewrite getUserDelegations_run, Hf, Hu. cbv zeta. fold date. fold stale.
  pose proof (find_some _ _ Hu) as [_ Haddr].
  pose proof (by_address_address _ _ Haddr) as Ha.
  split.
  - intros Hok. destruct stale eqn:Hs.
    + destruct Hok as [Hok|Hok]; [discriminate|]. rewrite Hok.
      cbn [fst snd users tick set_users].
      split; [reflexivity|]. split.
      * rewrite find_by_address_saved, Hu. cbn [option_map].
        rewrite String.eqb_refl. reflexivity.
      * intros b Hb. rewrite find_by_address_saved.
        destruct (find (by_address b) (users w)) as [v|] eqn:Hv; [|reflexivity].
        cbn [option_map]. apply find_some in Hv. destruct Hv as [_ Hv].
        apply by_address_address in Hv.
        destruct (address v =? address u)%string eqn:E; [|reflexivity].
        apply String.eqb_eq in E. congruence.
    + cbn [fst snd users tick]. split; [reflexivity|]. split; [|reflexivity].
      rewrite Hu. unfold stale in Hs. rewrite (expire_nothing _ _ Hs).
      destruct u; reflexivity.
  - intros Hs Hrej. rewrite Hs, Hrej. split; reflexivity.
Qed.

Lemma existsb_has_key_strip (key : string) (l : list Delegation) :
  existsb (has_key key) (map (set_privateKey None) l) = existsb (has_key key) l.
Proof. rewrite existsb_map. reflexivity. Qed.

(** The run of [revokeDelegation]. *)
Lemma revokeDelegation_run (a key : string) (w : World) :
  revokeDelegation env a key w =
    if fault env (events w) then (Normal false, tick w)
    else match find (by_address a) (users w) with
         | None => (Normal false, tick w)
         | Some u =>
             if existsb (has_key key) (delegations u)
             then if fault env (S (events w))
                  then (Normal false, tick (tick w))
                  else (Normal true,
                        tick (set_users
                                (saved_delegations (address u)
                                   (update_first (has_key key) (set_status revoked))
                                   (users w))
                                (tick w)))
             else (Normal false, tick w)
         end.
Proof.
  unfold revokeDelegation, try_catch, bind, User_findOne, User_save, call, ret.
  destruct (fault env (events w)); [reflexivity|].
  destruct (find (by_address a) (users w)) as [u|]; [|reflexivity].
  cbn [option_map events tick users fst snd].
  rewrite selected_delegations, existsb_has_key_strip.
  destruct (existsb (has_key key) (delegations u)); [|reflexivity].
  cbn [negb events tick]. destruct (fault env (S (events w))); reflexivity.
Qed.

Lemma update_first_unique (key : string) (g : Delegation -> Delegation)
    (l : list Delegation) (d : Delegation) :
  (forall x, sessionKeyAddress (g x) = sessionKeyAddress x) ->
  NoDup (map sessionKeyAddress l) ->
  In d (update_first (has_key key) g l) ->
  sessionKeyAddress d = key ->
  exists x, In x l /\ d = g x.
Proof.
  intros Hg. induction l as [|x l IH]; cbn [update_first map]; intros Hnd Hin Hk.
  - destruct Hin.
  - apply NoDup_cons_iff in Hnd. destruct Hnd as [Hnot Hnd'].
    destruct (has_key key x) eqn:Hx.
    + destruct Hin as [<-|Hin].
      * exists x. split; [left; reflexivity | reflexivity].
      * exfalso. apply Hnot. apply String.eqb_eq in Hx. rewrite Hx.
        apply in_map_iff. exists d. split; [exact Hk | exact Hin].
    + destruct Hin as [<-|Hin].
      * unfold has_key in Hx. apply String.eqb_neq in Hx. contradiction.
      * destruct (IH Hnd' Hin Hk) as (y & Hy & Hd).
        exists y. split; [right; exact Hy | exact Hd].
Qed.

(** X10. [revokeDelegation] never throws. When it answers false the store
    is unchanged; it does so for an unknown address and for a session key
    the user does not hold. When it answers true and the user holds one
    delegation per session key, a later [getUserDelegations] for that
    address, in any letter case, does not list the session key. *)
Theorem revoked_key_is_not_listed :
  forall (a key : string) (w : World),
    (exists b, fst (revokeDelegation env a key w) = Normal b) /\
    (fst (revokeDelegation env a key w) = Normal false ->
     users (snd (revokeDelegation env a key w)) = users w) /\
    ((forall u, find (by_address a) (users w) = Some u ->
                existsb (has_key key) (delegations u) = false) ->
     fst (revokeDelegation env a key w) = Normal false) /\
    (fst (revokeDelegation env a key w) = Normal true ->
     keys_unique (users w) ->
     forall (a' : string) (w' : World) (l : list Delegation),
       toLowerCase a' = toLowerCase a ->
       users w' = users (snd (revokeDelegation env a key w)) ->
       fst (getUserDelegations env a' w') = Normal l ->
       forall d, In d l -> sessionKeyAddress d <> key).
Proof.
  intros a key w. rewrite revokeDelegation_run.
  destruct (fault env (events w)).
  { cbn. repeat split; eauto; discriminate. }
  destruct (find (by_address a) (users w)) as [u|] eqn:Hu.
  2:{ cbn. repeat split; eauto; discriminate. }
  destruct (existsb (has_key key) (delegations u)) eqn:Hk.
  2:{ cbn. repeat split; eauto; discriminate. }
  destruct (fault env (S (events w))).
  { cbn. repeat split; eauto; discriminate. }
  cbn [fst snd users tick set_users].
  split; [eauto|]. split; [discriminate|]. split.
  { intros Hno. rewrite (Hno u eq_refl) in Hk. discriminate. }
  intros _ Huniq a' w' l Ha' Hw' Hl d Hd Hkey.
  rewrite getUserDelegations_run in Hl.
  assert (Hsame : by_address a' = by_address a).
  { unfold by_address. rewrite Ha'. reflexivity. }
  rewrite Hsame, Hw', find_by_address_saved, Hu in Hl. cbn [option_map] in Hl.
  rewrite String.eqb_refl in Hl. cbv zeta in Hl.
  cbn [delegations set_delegations address] in Hl.
  assert (Hin : In d (live (clock env (S (events w')))
                        (update_first (has_key key) (set_status revoked)
                           (delegations u)))).
  { destruct (fault env (events w')); [injection Hl as <-; destruct Hd|].
    destruct (existsb _ (update_first _ _ _)).
    - destruct (fault env (S (S (events w')))); injection Hl as <-;
        [destruct Hd | exact Hd].
    - injection Hl as <-. exact Hd. }
  apply In_live in Hin. destruct Hin as (d0 & Hin & -> & Hact & _).
  apply find_some in Hu. destruct Hu as [Hu _].
  destruct (update_first_unique key (set_status revoked) (delegations u) d0)
    as (x & _ & Hx); [reflexivity | exact (Huniq u Hu) | exact Hin | exact Hkey |].
  rewrite Hx in Hact. discriminate.
Qed.


(** ** Looking up and saving a session key *)

(** The run of [getSessionKey]. *)
Lemma getSessionKey_run (key : string) (w : World) :
  getSessionKey env key w =
    if fault env (events w) then (Normal None, tick w)
    else match first_delegation key (users w) with
         | None => (Normal None, tick w)
         | Some d =>
             if (expiresAt d <? clock env (S (events w))) && is_active d
             then if fault env (S (S (events w)))
                  then (Normal None, tick (tick (tick w)))
                  else (Normal (Some (with_decrypted_key env (set_status expired d))),
                        tick (set_users
                                (update_first
                                   (fun u => existsb (has_key key) (delegations u))
                                   (fun u => set_delegations
                                               (update_first (has_key key)
                                                  (set_status expired)
                                                  (delegations u)) u)
                                   (users w))
                                (tick (tick w))))
             else (Normal (Some (with_decrypted_key env d)), tick (tick w))
         end.
Proof.
  unfold getSessionKey, try_catch, bind, User_expire_first, now, call, ret.
  destruct (fault env (events w)); [reflexivity|].
  destruct (first_delegation key (users w)) as [d|]; [|reflexivity].
  cbn [events tick users fst snd].
  destruct ((expiresAt d <? clock env (S (events w))) && is_active d);
    [|reflexivity].
  cbn [events tick]. destruct (fault env (S (S (events w)))); reflexivity.
Qed.

Lemma first_delegation_some (key : string) (l : list User) (d : Delegation) :
  first_delegation key l = Some d ->
  sessionKeyAddress d = key /\ exists u, In u l /\ In d (delegations u).
Proof.
  unfold first_delegation.
  destruct (find _ l) as [u|] eqn:Hu; [|discriminate].
  intros Hd. apply find_some in Hu. apply find_some in Hd.
  destruct Hu as [Hu _]. destruct Hd as [Hd Hk]. apply String.eqb_eq in Hk.
  split; [exact Hk|]. exists u. split; assumption.
Qed.

Lemma first_delegation_unknown (key : string) (l : list User) :
  key_unknown key l -> first_delegation key l = None.
Proof.
  intros Hno. unfold first_delegation.
  rewrite find_none_all; [reflexivity|].
  intros u Hu. destruct (existsb (has_key key) (delegations u)) eqn:E;
    [|reflexivity].
  apply existsb_exists in E. destruct E as (d & Hd & Hk).
  apply String.eqb_eq in Hk. exfalso. exact (Hno u d Hu Hd Hk).
Qed.

Lemma find_update_first (key : string) (g : Delegation -> Delegation)
    (l : list Delegation) :
  (forall x, sessionKeyAddress (g x) = sessionKeyAddress x) ->
  find (has_key key) (update_first (has_key key) g l) =
  option_map g (find (has_key key) l).
Proof.
  intros Hg. induction l as [|x l IH]; [reflexivity|].
  cbn [update_first find]. destruct (has_key key x) eqn:Hx.
  - cbn [find option_map]. unfold has_key in *. rewrite Hg, Hx. reflexivity.
  - cbn [find]. rewrite Hx. exact IH.
Qed.

Lemma existsb_update_first (key : string) (g : Delegation -> Delegation)
    (l : list Delegation) :
  (forall x, sessionKeyAddress (g x) = sessionKeyAddress x) ->
  existsb (has_key key) (update_first (has_key key) g l) =
  existsb (has_key key) l.
Proof.
  intros Hg. induction l as [|x l IH]; [reflexivity|].
  cbn [update_first existsb]. destruct (has_key key x) eqn:Hx.
  - cbn [existsb]. unfold has_key in *. rewrite Hg, Hx. reflexivity.
  - cbn [existsb]. rewrite Hx. exact IH.
Qed.

Lemma first_delegation_expired (key : string) (l : list User) :
  first_delegation key
    (update_first (fun u => existsb (has_key key) (delegations u))
       (fun u => set_delegations
                   (update_first (has_key key) (set_status expired)
                      (delegations u)) u) l) =
  option_map (set_status expired) (first_delegation key l).
Proof.
  unfold first_delegation. induction l as [|u l IH]; [reflexivity|].
  cbn [update_first find].
  destruct (existsb (has_key key) (delegations u)) eqn:Hu.
  - cbn [find delegations set_delegations].
    rewrite existsb_update_first by reflexivity. rewrite Hu.
    apply find_update_first. reflexivity.
  - cbn [find]. rewrite Hu. exact IH.
Qed.

Lemma with_decrypted_key_fields (d : Delegation) :
  sessionKeyAddress (with_decrypted_key env d) = sessionKeyAddress d /\
  status (with_decrypted_key env d) = status d /\
  expiresAt (with_decrypted_key env d) = expiresAt d /\
  permissions (with_decrypted_key env d) = permissions d /\
  createdAt (with_decrypted_key env d) = createdAt d.
Proof.
  unfold with_decrypted_key.
  destruct (privateKey d) as [enc|]; [|tauto].
  destruct (truthy (Some enc)); cbn; tauto.
Qed.

(** X11. [getSessionKey] never throws. The delegation it returns is the
    first stored delegation of that session key, of whatever status, with
    its permissions and expiry; it is never returned as 'active' when it is
    past its expiry, and when it is returned as 'expired' it is stored as
    'expired'. For a session key no stored delegation has, the answer is
    null after the one lookup. *)
Theorem getSessionKey_never_active_past_expiry :
  forall (key : string) (w : World),
    (exists r, fst (getSessionKey env key w) = Normal r) /\
    (forall d, fst (getSessionKey env key w) = Normal (Some d) ->
       sessionKeyAddress d = key /\
       (status d = active -> clock env (S (events w)) <= expiresAt d) /\
       (exists d0,
          first_delegation key (users w) = Some d0 /\
          permissions d = permissions d0 /\ expiresAt d = expiresAt d0 /\
          (status d = status d0 \/ status d0 = active /\ status d = expired)) /\
       (status d = expired ->
        exists d', first_delegation key (users (snd (getSessionKey env key w)))
                     = Some d' /\ status d' = expired)) /\
    (key_unknown key (users w) ->
     getSessionKey env key w = (Normal None, tick w)).
Proof.
  intros key w. rewrite getSessionKey_run.
  split; [|split].
  - destruct (fault env (events w)); [eexists; reflexivity|].
    destruct (first_delegation key (users w)) as [d0|]; [|eexists; reflexivity].
    destruct ((expiresAt d0 <? clock env (S (events w))) && is_active d0);
      [|eexists; reflexivity].
    destruct (fault env (S (S (events w)))); eexists; reflexivity.
  - intros d.
    destruct (fault env (events w)); [discriminate|].
    destruct (first_delegation key (users w)) as [d0|] eqn:H0; [|discriminate].
    destruct (first_delegation_some _ _ _ H0) as [Hk _].
    destruct (with_decrypted_key_fields d0) as (K1 & K2 & K3 & K4 & _).
    destruct (with_decrypted_key_fields (set_status expired d0))
      as (E1 & E2 & E3 & E4 & _).
    destruct ((expiresAt d0 <? clock env (S (events w))) && is_active d0) eqn:Hc.
    + destruct (fault env (S (S (events w)))); [discriminate|].
      cbn [fst snd users tick set_users]. intros [= <-].
      apply andb_true_iff in Hc. destruct Hc as [_ Hact].
      apply DelegationStatus_eqb_eq in Hact.
      rewrite E1, E2, E3, E4. cbn [sessionKeyAddress status set_status].
      split; [exact Hk|]. split; [discriminate|]. split.
      * exists d0. repeat split. right. split; [exact Hact | reflexivity].
      * intros _. rewrite first_delegation_expired, H0. cbn [option_map].
        eexists. split; reflexivity.
    + cbn [fst snd users tick]. intros [= <-].
      rewrite K1, K2, K3, K4.
      split; [exact Hk|]. split; [|split].
      * intros Hact. apply andb_false_iff in Hc. destruct Hc as [Hc|Hc].
        -- apply Z.ltb_ge in Hc. exact Hc.
        -- unfold is_active in Hc. rewrite Hact in Hc. discriminate.
      * exists d0. repeat split. left. reflexivity.
      * intros He. exists d0. split; [exact H0 | exact He].
  - intros Hno. rewrite (first_delegation_unknown _ _ Hno).
    destruct (fault env (events w)); reflexivity.
Qed.







(** ** What the operations leave in the store *)

Lemma attach_private_key_effect (sp : bool) (pk : option string)
    (dlg : Delegation) (w : World) :
  users (snd (attach_private_key env sp pk dlg w)) = users w /\
  forall dlg', fst (attach_private_key env sp pk dlg w) = Normal dlg' ->
               sessionKeyAddress dlg' = sessionKeyAddress dlg.
Proof.
  unfold attach_private_key, ret.
  destruct pk as [s|]; [destruct (sp && truthy (Some s));
                        [destruct (encryptPrivateKey env (events w) s)|]|];
    cbn; split; try reflexivity; intros dlg' [= <-]; reflexivity.
Qed.

(** The effect of [saveDelegation] on the store, database failures
    included. *)
Lemma saveDelegation_effect (request : DelegationRequest) (sp : bool)
    (pk : option string) (w : World) :
  let a := toLowerCase (delegatorAddress request) in
  let res := saveDelegation env request sp pk w in
  exists base,
    (base = users w \/
     base = (users w ++ [{| address := a; delegations := [] |}])%list /\
       find (by_address (delegatorAddress request)) (users w) = None) /\
    (fst res = Normal false /\ users (snd res) = base \/
     exists dlg,
       fst res = Normal true /\
       sessionKeyAddress dlg = req_sessionKeyAddress request /\
       users (snd res) = saved_delegations a (upsert dlg) base).
Proof.
  intros a res. subst res.
  unfold saveDelegation, try_catch, bind, User_findOne, User_create, User_save,
    now, call, ret.
  destruct (fault env (events w)) eqn:F0.
  { exists (users w). split; [left; reflexivity | left; split; reflexivity]. }
  destruct (find (by_address (delegatorAddress request)) (users w)) as [u|] eqn:Hu;
    cbn [option_map fst snd events tick users set_users].
  - apply find_some in Hu. destruct Hu as [Hu Ha].
    apply by_address_address in Ha. fold a in Ha.
    exists (users w). split; [left; reflexivity|].
    change (address (selected u)) with (address u). rewrite Ha.
    match goal with
    | |- context [attach_private_key env sp pk ?d ?w0] =>
        destruct (attach_private_key_effect sp pk d w0) as [Hus Hkey];
        destruct (attach_private_key env sp pk d w0) as [[dlg|e] w1]
    end; cbn [fst snd users tick] in *.
    + destruct (fault env (events w1)); cbn [fst snd users tick set_users].
      * left. split; [reflexivity | exact Hus].
      * right. exists dlg. rewrite Hus.
        split; [reflexivity|]. split; [exact (Hkey dlg eq_refl) | reflexivity].
    + left. split; [reflexivity | exact Hus].
  - destruct (fault env (S (events w))) eqn:F1.
    { exists (users w). split; [left; reflexivity | left; split; reflexivity]. }
    exists (users w ++ [{| address := a; delegations := [] |}])%list.
    split; [right; split; reflexivity|].
    cbn [fst snd events tick users set_users address].
    match goal with
    | |- context [attach_private_key env sp pk ?d ?w0] =>
        destruct (attach_private_key_effect sp pk d w0) as [Hus Hkey];
        destruct (attach_private_key env sp pk d w0) as [[dlg|e] w1]
    end; cbn [fst snd users tick set_users] in *.
    + destruct (fault env (events w1)); cbn [fst snd users tick set_users].
      * left. split; [reflexivity | exact Hus].
      * right. exists dlg. rewrite Hus.
        split; [reflexivity|]. split; [exact (Hkey dlg eq_refl) | reflexivity].
    + left. split; [reflexivity | exact Hus].
Qed.

Lemma map_key_update_first (key : string) (g : Delegation -> Delegation)
    (l : list Delegation) :
  (forall x, has_key key x = true -> sessionKeyAddress (g x) = sessionKeyAddress x) ->
  map sessionKeyAddress (update_first (has_key key) g l) = map sessionKeyAddress l.
Proof.
  intros Hg. induction l as [|x l IH]; [reflexivity|].
  cbn [update_first]. destruct (has_key key x) eqn:Hx; cbn [map].
  - rewrite (Hg x Hx). reflexivity.
  - rewrite IH. reflexivity.
Qed.

Lemma upsert_keeps_keys_apart (dlg : Delegation) (l : list Delegation) :
  NoDup (map sessionKeyAddress l) ->
  NoDup (map sessionKeyAddress (upsert dlg l)).
Proof.
  intros Hnd. unfold upsert.
  destruct (existsb (has_key (sessionKeyAddress dlg)) l) eqn:E.
  - rewrite map_key_update_first; [exact Hnd|].
    intros x Hx. apply String.eqb_eq in Hx. symmetry. exact Hx.
  - rewrite map_app. cbn [map].
    apply NoDup_Add with (a := sessionKeyAddress dlg) (l := map sessionKeyAddress l).
    + rewrite <- (app_nil_r (map sessionKeyAddress l)) at 1. apply Add_app.
    + split; [exact Hnd|]. intros Hin. apply in_map_iff in Hin.
      destruct Hin as (x & Hx & Hin).
      assert (existsb (has_key (sessionKeyAddress dlg)) l = true).
      { apply existsb_exists. exists x. split; [exact Hin|].
        apply String.eqb_eq. exact Hx. }
      congruence.
Qed.

Lemma keys_unique_saved (a : string) (f : list Delegation -> list Delegation)
    (l : list User) :
  (forall ds, NoDup (map sessionKeyAddress ds) ->
              NoDup (map sessionKeyAddress (f ds))) ->
  keys_unique l -> keys_unique (saved_delegations a f l).
Proof.
  intros Hf Hl u Hu. unfold saved_delegations in Hu. apply in_map_iff in Hu.
  destruct Hu as (v & <- & Hv).
  destruct (address v =? a)%string; [apply Hf|]; exact (Hl v Hv).
Qed.

Lemma keys_unique_created (a : string) (l : list User) :
  keys_unique l ->
  keys_unique (l ++ [{| address := a; delegations := [] |}])%list.
Proof.
  intros Hl u Hu. apply in_app_or in Hu. destruct Hu as [Hu|[<-|[]]].
  - exact (Hl u Hu).
  - constructor.
Qed.

Lemma In_update_first {A : Type} (p : A -> bool) (g : A -> A) (l : list A) (x : A) :
  In x (update_first p g l) -> In x l \/ exists y, In y l /\ x = g y.
Proof.
  induction l as [|y l IH]; cbn [update_first]; [tauto|].
  destruct (p y).
  - intros [<-|Hin]; [right; exists y; split; [left|]; reflexivity|].
    left. right. exact Hin.
  - intros [<-|Hin]; [left; left; reflexivity|].
    destruct (IH Hin) as [H|(z & Hz & ->)]; [left; right; exact H|].
    right. exists z. split; [right; exact Hz | reflexivity].
Qed.

(** X13. [saveDelegation] never throws. When it answers false no
    delegation has been stored, but the store need not be what it was: for
    a delegator that was unknown, the user document created before the
    failure stays, without delegations. This happens when the save that
    follows the creation is rejected. *)
Theorem failed_saveDelegation_stores_no_delegation :
  forall (request : DelegationRequest) (storePrivateKey : bool)
         (privateKey_ : option string) (w : World),
    let res := saveDelegation env request storePrivateKey privateKey_ w in
    let created :=
      {| address := toLowerCase (delegatorAddress request); delegations := [] |} in
    (exists b, fst res = Normal b) /\
    (fst res = Normal false ->
     users (snd res) = users w \/
     find (by_address (delegatorAddress request)) (users w) = None /\
     users (snd res) = (users w ++ [created])%list) /\
    (find (by_address (delegatorAddress request)) (users w) = None ->
     fault env (events w) = false ->
     fault env (S (events w)) = false ->
     storePrivateKey = false ->
     fault env (S (S (S (events w)))) = true ->
     fst res = Normal false /\ users (snd res) = (users w ++ [created])%list).
Proof.
  intros request sp pk w res created. subst res created.
  split; [|split].
  - destruct (saveDelegation_effect request sp pk w)
      as (base & _ & [[-> _]|(dlg & -> & _)]); eexists; reflexivity.
  - intros Hfalse.
    destruct (saveDelegation_effect request sp pk w)
      as (base & Hbase & [[_ ->]|(dlg & Htrue & _)]).
    + destruct Hbase as [->|[-> Hnone]]; [left; reflexivity | right; auto].
    + rewrite Htrue in Hfalse. discriminate.
  - intros Hnone F0 F1 -> F3.
    unfold saveDelegation, attach_private_key, try_catch, bind, User_findOne,
      User_create, User_save, now, call, ret.
    rewrite F0, Hnone. cbn [option_map fst snd events tick users set_users].
    rewrite F1. cbn [fst snd events tick users set_users andb].
    destruct pk; cbn [fst snd events tick users set_users]; rewrite F3;
      split; reflexivity.
Qed.

(** X14. Every operation of the service keeps the stored delegations of a
    user at one per session key: [saveDelegation] replaces the delegation of
    a session key the user already holds and appends otherwise, and
    [revokeDelegation], [getUserDelegations], [getSessionKey] and
    [hasPermission] change at most the status of stored delegations. *)
Theorem session_keys_stay_unique :
  forall (w : World),
    keys_unique (users w) ->
    (forall request storePrivateKey privateKey_,
        keys_unique
          (users (snd (saveDelegation env request storePrivateKey privateKey_ w)))) /\
    (forall a key, keys_unique (users (snd (revokeDelegation env a key w)))) /\
    (forall a, keys_unique (users (snd (getUserDelegations env a w)))) /\
    (forall key, keys_unique (users (snd (getSessionKey env key w)))) /\
    (forall key contract selector,
        keys_unique (users (snd (hasPermission env key contract selector w)))).
Proof.
  intros w Hw.
  assert (Hstatus : forall key s ds,
            NoDup (map sessionKeyAddress ds) ->
            NoDup (map sessionKeyAddress
                     (update_first (has_key key) (set_status s) ds))).
  { intros key s ds Hds. rewrite map_key_update_first; [exact Hds | reflexivity]. }
  split; [|split; [|split; [|split]]].
  - intros request sp pk.
    destruct (saveDelegation_effect request sp pk w) as (base & Hbase & Hres).
    assert (Hb : keys_unique base).
    { destruct Hbase as [->|[-> _]]; [exact Hw | apply keys_unique_created; exact Hw]. }
    destruct Hres as [[_ ->]|(dlg & _ & _ & ->)]; [exact Hb|].
    apply keys_unique_saved; [apply upsert_keeps_keys_apart | exact Hb].
  - intros a key. rewrite revokeDelegation_run.
    destruct (fault env (events w)); [exact Hw|].
    destruct (find (by_address a) (users w)) as [u|]; [|exact Hw].
    destruct (existsb (has_key key) (delegations u)); [|exact Hw].
    destruct (fault env (S (events w))); [exact Hw|].
    cbn [snd users tick set_users].
    apply keys_unique_saved; [apply Hstatus | exact Hw].
  - intros a. rewrite getUserDelegations_run.
    destruct (fault env (events w)); [exact Hw|].
    destruct (find (by_address a) (users w)) as [u|]; [|exact Hw].
    cbv zeta. destruct (existsb _ (delegations u)); [|exact Hw].
    destruct (fault env (S (S (events w)))); [exact Hw|].
    cbn [snd users tick set_users].
    apply keys_unique_saved; [|exact Hw].
    intros ds Hds. rewrite map_map.
    replace (map (fun x => sessionKeyAddress (expire (clock env (S (events w))) x)) ds)
      with (map sessionKeyAddress ds); [exact Hds|].
    apply map_ext. intros d. unfold expire.
    destruct (DelegationStatus_eqb (status d) active && _); reflexivity.
  - intros key. rewrite getSessionKey_run.
    destruct (fault env (events w)); [exact Hw|].
    destruct (first_delegation key (users w)) as [d|]; [|exact Hw].
    destruct ((expiresAt d <? clock env (S (events w))) && is_active d);
      [|exact Hw].
    destruct (fault env (S (S (events w)))); [exact Hw|].
    cbn [snd users tick set_users]. intros u Hu.
    apply In_update_first in Hu. destruct Hu as [Hu|(v & Hv & ->)].
    + exact (Hw u Hu).
    + cbn [delegations set_delegations]. apply Hstatus. exact (Hw v Hv).
  - intros key contract selector.
    destruct (hasPermission_answers key contract selector w) as [b ->].
    exact Hw.
Qed.

End SessionKeyFacts.

(** ** The statements on a concrete store *)

Section SessionKeyExamples.

Import Js.
Import SessionKeys.
Import SessionScenario.

(** The revoked and expired key passes, because the same user holds an
    active key that has not expired. *)
Lemma hasPermission_checks_status_on_any_delegation_witness :
  hasPermission outside "0x00000000000000000000000000000000000000c1"
    executor transfer_selector store
  = (Normal true, tick (tick store)).
Proof.
  apply (hasPermission_checks_status_on_any_delegation outside
           "0x00000000000000000000000000000000000000c1"
           executor transfer_selector store [] [] alice revoked_key).
  - reflexivity.
  - reflexivity.
  - intros v [[]|[]].
  - reflexivity.
Defined.

(** The listing of the delegator, her address given in upper case: the
    live key is returned, and the stale key is stored as expired. *)
Lemma getUserDelegations_marks_expired_witness :
  fst (getUserDelegations outside "0X00000000000000000000000000000000000000D1" store)
    = Normal [live_key] /\
  find (by_address "0X00000000000000000000000000000000000000D1")
       (users (snd (getUserDelegations outside
                      "0X00000000000000000000000000000000000000D1" store)))
    = Some {| address := address alice;
              delegations := [revoked_key; live_key; set_status expired stale_key] |}.
Proof.
  destruct (getUserDelegations_marks_expired outside
              "0X00000000000000000000000000000000000000D1" store alice
              eq_refl eq_refl) as [Hok _].
  destruct (Hok (or_intror eq_refl)) as (Hres & Hstored & _).
  split; [exact Hres | exact Hstored].
Defined.


Lemma session_keys_stay_unique_witness :
  keys_unique (users (snd (saveDelegation outside request false None store))) /\
  keys_unique
    (users (snd (revokeDelegation outside (address alice)
                   "0x00000000000000000000000000000000000000c2" store))).
Proof.
  destruct (session_keys_stay_unique outside store) as (Hsave & Hrevoke & _).
  - intros u [<-|[]]. cbn.
    repeat constructor; cbn; intuition discriminate.
  - split; [exact (Hsave request false None) | exact (Hrevoke _ _)].
Defined.

End SessionKeyExamples.

(* ===================================================================== *)
(** * Further properties of the ETH transfer backend *)
(* ===================================================================== *)

Section WorkerFacts.

Variable env : Env.

(** X15. When the on-chain action of an execution job fails, the worker
    appends to the execution history of the task a record with status
    'failed' and the error, and sets lastExecutedAt; the task keeps its
    status 'active', one-time or not, and its nextCheckAt, so that the
    poller selects it again. The job is one the worker executes: its task
    is stored and active, with its user and a session key, its type is
    'eth-transfer', and the store answers. *)
Theorem failed_execution_is_recorded :
  forall (job : Job) (w : World) (task : Task) (user : User)
         (r : ExecutionResult) (w1 : World),
    fault env (events w) = false ->
    find (fun t => (_id t =? taskId job)%string) (tasks w) = Some task ->
    status task = active ->
    fault env (S (events w)) = false ->
    find (fun u => (user_id u =? userId task)%string) (users w) = Some user ->
    truthy (sessionKeyId task) = true ->
    taskType job = "eth-transfer" ->
    executeETHTransfer env task user (tick (tick w)) = (Normal r, w1) ->
    success r = false ->
    fault env (S (S (events w1))) = false ->
    let res := executeTask env job w in
    let t := clock env (events w1) in
    let t' := clock env (S (events w1)) in
    let task' := executed task r t t' in
    fst res = Normal tt /\
    tasks (snd res) = saved task' (tasks w) /\
    In task' (tasks (snd res)) /\
    history task' =
      (history task ++
         [{| timestamp := t; action := "Execute eth-transfer";
             h_status := h_failed;
             transactionHash := r_transactionHash r;
             error := r_error r;
             details := r_details r |}])%list /\
    lastExecutedAt task' = Some t' /\
    status task' = active /\
    nextCheckAt task' = nextCheckAt task /\
    successes task' = successes task.
Proof.
  intros job w task user r w1 Hf Ht Hs Hf' Hu Hk Hty Hexec Hko Hsave.
  cbv zeta.
  pose proof (read_only_executeETHTransfer env task user (tick (tick w))) as Hro.
  rewrite Hexec in Hro. destruct Hro as (Htasks & _). cbn in Htasks.
  rewrite (executeTask_run env job w task user r w1 Hf Ht Hs Hf' Hu Hk Hty Hexec).
  unfold Task_save, call. cbn [events tick set_events]. rewrite Hsave.
  cbn [fst snd tasks tick set_tasks set_events]. rewrite Htasks.
  split; [reflexivity|]. split; [reflexivity|]. split.
  - apply find_some in Ht. destruct Ht as [Hin Hid]. apply String.eqb_eq in Hid.
    apply (saved_In _ task); [exact Hin|]. symmetry. apply executed_id.
  - unfold executed. rewrite Hko, andb_false_r. cbn.
    split; [reflexivity|]. split; [reflexivity|]. split; [exact Hs|].
    split; [reflexivity|].
    unfold successes, history. cbn. rewrite filter_app. cbn.
    rewrite app_nil_r. reflexivity.
Qed.

(** The failures [executeETHTransfer] reports before any transaction. *)
Lemma executeETHTransfer_results (task : Task) (user : User) (w : World)
    (r : ExecutionResult) :
  fst (executeETHTransfer env task user w) = Normal r ->
  r = failure "Session key not found or missing private key" \/
  r = failure "Missing required parameters: recipientAddress or amount" \/
  r = failure "ETH transfer executor address not configured" \/
  (success r = true /\ r_error r = None) \/
  (strict_eq (NODE_ENV env) "development" = false /\
   exists n key executor to_ amount_,
     r = chain_transfer env n key executor to_ amount_).
Proof.
  unfold executeETHTransfer, try_catch, bind, consult, ask, ret.
  destruct (session_keys env (events w) _) as [sk|]; cbn [fst];
    [|intros [= <-]; tauto].
  destruct (truthy (privateKey sk)); cbn [negb fst]; [|intros [= <-]; tauto].
  destruct (or_else (recipientAddress (configuration task))
              (recipient (configuration task))) as [to_|] eqn:Hto;
    [|intros [= <-]; tauto].
  destruct (amount (configuration task)) as [amount_|];
    [|intros [= <-]; tauto].
  destruct (negb (truthy (Some to_)) || negb (truthy (Some amount_)));
    [intros [= <-]; tauto|].
  destruct (truthy (agentId user));
    [destruct (ai_bridge env _ _ _ _ _) as [h|];
     [cbn; intros [= <-]; right; right; right; left; split; reflexivity|]|];
    (destruct (ETH_TRANSFER_EXECUTOR_ADDRESS env) as [ex|];
     [|cbn; intros [= <-]; tauto]);
    (destruct (negb (truthy (Some ex))); [cbn; intros [= <-]; tauto|]);
    (destruct (strict_eq (NODE_ENV env) "development") eqn:Hdev;
     cbn; intros [= <-];
     [ right; right; right; left; split; reflexivity
     | right; right; right; right; split; [reflexivity | eauto 10] ]).
Qed.

(** X16. In development mode [executeETHTransfer] never reports a failed
    transfer: its result is a success, or one of the three failures found
    before any transaction is sent (no usable session key, missing
    recipient or amount, executor address not configured). Once the direct
    transfer is reached, its outcome is discarded and a success with a
    random transaction hash is returned. *)
Theorem development_mode_never_reports_a_failed_transfer :
  forall (task : Task) (user : User) (w : World),
    strict_eq (NODE_ENV env) "development" = true ->
    (forall r,
        fst (executeETHTransfer env task user w) = Normal r ->
        success r = true \/
        r = failure "Session key not found or missing private key" \/
        r = failure "Missing required parameters: recipientAddress or amount" \/
        r = failure "ETH transfer executor address not configured") /\
    (forall sk key to_ amount_ executor,
        sessionKeyId task = Some key ->
        session_keys env (events w) key = Some sk ->
        truthy (privateKey sk) = true ->
        or_else (recipientAddress (configuration task))
                (recipient (configuration task)) = Some to_ ->
        truthy (Some to_) = true ->
        amount (configuration task) = Some amount_ ->
        truthy (Some amount_) = true ->
        truthy (agentId user) = false ->
        ETH_TRANSFER_EXECUTOR_ADDRESS env = Some executor ->
        truthy (Some executor) = true ->
        executeETHTransfer env task user w =
          (Normal {| success := true;
                     r_transactionHash :=
                       Some (String.append "0x" (random_hex env (S (S (events w)))));
                     r_error := None;
                     r_details :=
                       Some {| d_recipientAddress := to_; d_amount := amount_;
                               d_network := "sepolia" |} |},
           tick (tick (tick w)))).
Proof.
  intros task user w Hdev. split.
  - intros r Hr.
    destruct (executeETHTransfer_results task user w r Hr)
      as [H|[H|[H|[[H _]|[H _]]]]]; try tauto.
    rewrite Hdev in H. discriminate.
  - intros sk key to_ amount_ executor Hkey Hsk Hpk Hto Htot Ham Hamt Hag Hex Hext.
    unfold executeETHTransfer, try_catch, bind, consult, ask, ret.
    rewrite Hkey, Hsk, Hpk, Hto, Ham, Htot, Hamt, Hag, Hex, Hext, Hdev.
    reflexivity.
Qed.

(** X17. A job whose task is stored but cannot be executed leaves the store
    and the queue as they are and writes no history: for a task that is
    not active the worker returns normally after the one lookup; for an
    active task without its user, without a session key, or with a job type
    other than 'eth-transfer', it throws, naming the reason. *)
Theorem unexecutable_job_writes_nothing :
  forall (job : Job) (w : World) (task : Task),
    fault env (events w) = false ->
    find (fun t => (_id t =? taskId job)%string) (tasks w) = Some task ->
    (status task <> active ->
     executeTask env job w = (Normal tt, tick w)) /\
    (status task = active ->
     fault env (S (events w)) = false ->
     find (fun u => (user_id u =? userId task)%string) (users w) = None ->
     executeTask env job w =
       (Throw (Err (String.append "User for task "
                      (String.append (taskId job) " not found"))),
        tick (tick w))) /\
    (forall user,
        status task = active ->
        fault env (S (events w)) = false ->
        find (fun u => (user_id u =? userId task)%string) (users w) = Some user ->
        truthy (sessionKeyId task) = false ->
        executeTask env job w =
          (Throw (Err (String.append "Task "
                         (String.append (taskId job) " has no session key"))),
           tick (tick w))) /\
    (forall user,
        status task = active ->
        fault env (S (events w)) = false ->
        find (fun u => (user_id u =? userId task)%string) (users w) = Some user ->
        truthy (sessionKeyId task) = true ->
        taskType job <> "eth-transfer" ->
        executeTask env job w =
          (Throw (Err (String.append "Unsupported task type: " (taskType job))),
           tick (tick w))).
Proof.
  intros job w task Hf Ht.
  assert (Hfound : forall k : option Task -> Async World unit,
            bind (Task_findById env (taskId job)) k w = k (Some task) (tick w)).
  { intros k. unfold bind, Task_findById, call. rewrite Hf, Ht. reflexivity. }
  unfold executeTask. rewrite try_catch_rethrow, Hfound.
  split; [|split; [|split]].
  - intros Hs. destruct (TaskStatus_eqb (status task) active) eqn:E.
    + apply TaskStatus_eqb_eq in E. contradiction.
    + reflexivity.
  - intros Hs Hf' Hu. rewrite Hs. cbn [TaskStatus_eqb negb].
    unfold bind, User_findById, call, throw.
    cbn [events tick set_events users]. rewrite Hf', Hu. reflexivity.
  - intros user Hs Hf' Hu Hk. rewrite Hs. cbn [TaskStatus_eqb negb].
    unfold bind, User_findById, call, throw.
    cbn [events tick set_events users]. rewrite Hf', Hu, Hk. reflexivity.
  - intros user Hs Hf' Hu Hk Hty. rewrite Hs. cbn [TaskStatus_eqb negb].
    unfold bind at 1. unfold User_findById, call.
    cbn [events tick set_events users].
    rewrite Hf', Hu, Hk. cbn [negb].
    apply String.eqb_neq in Hty. rewrite Hty. reflexivity.
Qed.

End WorkerFacts.

Section EvaluatorFacts.

Variable env : Env.

(** X18. The two condition evaluators give the same answer, after the same
    interactions, on a gas price condition, and on a price condition whose
    reference price is absent, empty or an integer literal; the poller's
    evaluator is taken on a task with a session key, which it requires. On
    a price condition whose reference price is set and is not an integer
    literal (a price with decimals), [isETHTransferConditionMet] answers
    false whatever the price is, though it only logs the reference price. *)
Theorem evaluators_agree_on_gas_and_price :
  forall (task : Task) (id : string) (w : World),
    truthy (sessionKeyId task) = true ->
    (conditionType (conditions task) = Some "gas_price" ->
     isETHTransferConditionMet env id (conditionType (conditions task))
       (conditions task) w
     = handleETHTransferCondition env task w) /\
    (forall pc,
        conditionType (conditions task) = Some "price_threshold" ->
        priceCondition (conditions task) = Some pc ->
        (truthy (referencePrice pc) = false \/ BigInt (referencePrice pc) <> None ->
         isETHTransferConditionMet env id (conditionType (conditions task))
           (conditions task) w
         = handleETHTransferCondition env task w) /\
        (truthy (referencePrice pc) = true ->
         BigInt (referencePrice pc) = None ->
         fst (isETHTransferConditionMet env id (conditionType (conditions task))
                (conditions task) w) = Normal false)).
Proof.
  intros task id w Hk. split.
  - intros Hc.
    unfold isETHTransferConditionMet, handleETHTransferCondition, getGasPrice,
      toBigInt, ask, try_catch, bind, ret, throw.
    rewrite Hk, Hc. cbn -[BigInt].
    destruct (gasPriceCondition (conditions task)) as [gc|]; [|reflexivity].
    destruct (rpc_gasPrice env (events w)) as [cur|]; [|reflexivity].
    destruct (BigInt (Some cur)) as [c|];
      destruct (strict_eq (gas_type gc) "below");
      destruct (BigInt (gasPriceThreshold gc)) as [t|]; reflexivity.
  - intros pc Hc Hp. split.
    + intros Href.
      unfold isETHTransferConditionMet, handleETHTransferCondition, getETHPrice,
        toBigInt, ask, try_catch, bind, ret, throw.
      rewrite Hk, Hc, Hp. cbn -[BigInt].
      destruct (price_feed env (events w)) as [cur|]; [|reflexivity].
      destruct (BigInt (Some cur)) as [c|] eqn:Hcur.
      * destruct (truthy (referencePrice pc)) eqn:Ht.
        -- destruct Href as [Href|Href]; [discriminate|].
           destruct (BigInt (referencePrice pc)) as [rp|]; [|contradiction].
           destruct (strict_eq (price_type pc) "above");
             [|destruct (strict_eq (price_type pc) "below")];
             destruct (BigInt (priceThreshold pc)) as [t|]; reflexivity.
        -- destruct (strict_eq (price_type pc) "above");
             [|destruct (strict_eq (price_type pc) "below")];
             destruct (BigInt (priceThreshold pc)) as [t|]; reflexivity.
      * destruct (strict_eq (price_type pc) "above");
          [|destruct (strict_eq (price_type pc) "below")]; reflexivity.
    + intros Ht Hbad.
      unfold isETHTransferConditionMet, getETHPrice, toBigInt, ask, try_catch,
        bind, ret, throw.
      rewrite Hc, Hp. cbn -[BigInt].
      destruct (price_feed env (events w)) as [cur|]; [|reflexivity].
      destruct (BigInt (Some cur)) as [c|]; [|reflexivity].
      rewrite Ht, Hbad. reflexivity.
Qed.

End EvaluatorFacts.

Section ReschedulingFacts.

Variable env : Env.

Lemma due_query_set_lastCheckedAt (ty net : string) (date d : Date) (t : Task) :
  due_query ty net date (set_lastCheckedAt d t) = due_query ty net date t.
Proof. reflexivity. Qed.

Lemma due_query_later (ty net : string) (date date' : Date) (t : Task) :
  due_query ty net date t = true -> date <= date' ->
  due_query ty net date' t = true.
Proof.
  intros Hdue Hle. apply due_query_true in Hdue.
  destruct Hdue as (A & B & C & d & Hd & Hdd).
  apply due_query_true. repeat split; try assumption.
  exists d. split; [exact Hd | lia].
Qed.

Lemma due_query_set_nextCheckAt (ty net : string) (date date' n : Date) (t : Task) :
  due_query ty net date t = true ->
  due_query ty net date' (set_nextCheckAt n t) = (n <=? date').
Proof.
  intros Hdue. apply due_query_true in Hdue.
  destruct Hdue as (A & B & C & _).
  unfold due_query. cbn [type status network nextCheckAt set_nextCheckAt].
  rewrite A, B, C, !String.eqb_refl. reflexivity.
Qed.

(** X19. When a task selected by a poll is due again. If its condition is
    met and the job is enqueued, the stored task is due at once, at the
    date of the poll and at any later date, so the next poll selects it
    again. If the condition is not met, the task is due again
    exactly from five minutes after the check; if enqueueing the job is
    rejected, exactly from fifteen minutes after. *)
Theorem checked_task_is_due_again :
  forall (ty net : string) (task : Task) (w w1 : World) (date : Date),
    due_query ty net date task = true ->
    (handleETHTransferCondition env task w = (Normal true, w1) ->
     fault env (events w1) = false ->
     fault env (S (S (events w1))) = false ->
     exists task',
       tasks (snd (check_task env ty net task w)) = saved task' (tasks w) /\
       forall date', date <= date' -> due_query ty net date' task' = true) /\
    (handleETHTransferCondition env task w = (Normal false, w1) ->
     fault env (S (S (events w1))) = false ->
     exists task',
       tasks (snd (check_task env ty net task w)) = saved task' (tasks w) /\
       forall date',
         due_query ty net date' task'
           = (clock env (S (events w1)) + minutes 5 <=? date')) /\
    (handleETHTransferCondition env task w = (Normal true, w1) ->
     fault env (events w1) = true ->
     fault env (S (S (S (events w1)))) = false ->
     exists task',
       tasks (snd (check_task env ty net task w)) = saved task' (tasks w) /\
       forall date',
         due_query ty net date' task'
           = (clock env (S (S (events w1))) + minutes 15 <=? date')).
Proof.
  intros ty net task w w1 date Hdue.
  assert (Hsame : forall b, handleETHTransferCondition env task w = (Normal b, w1) ->
                            tasks w1 = tasks w).
  { intros b Hh. pose proof (read_only_handle env task w) as Hro.
    rewrite Hh in Hro. destruct Hro as (Ht & _). exact Ht. }
  split; [|split].
  - intros Hh Hf Hf'. eexists. split.
    + rewrite (check_task_met env ty net task w w1 Hh Hf Hf').
      cbn [snd tasks tick set_tasks set_events set_executionQueue].
      rewrite (Hsame _ Hh). reflexivity.
    + intros date' Hle. rewrite due_query_set_lastCheckedAt.
      exact (due_query_later ty net date date' task Hdue Hle).
  - intros Hh Hf. eexists. split.
    + rewrite (check_task_not_met env ty net task w w1 Hh Hf).
      cbn [snd tasks tick set_tasks set_events].
      rewrite (Hsame _ Hh). reflexivity.
    + intros date'. apply (due_query_set_nextCheckAt ty net date).
      rewrite due_query_set_lastCheckedAt. exact Hdue.
  - intros Hh Hf Hf'. eexists. split.
    + rewrite (check_task_enqueue_rejected env ty net task w w1 Hh Hf Hf').
      cbn [snd tasks tick set_tasks set_events].
      rewrite (Hsame _ Hh). reflexivity.
    + intros date'. apply (due_query_set_nextCheckAt ty net date).
      rewrite due_query_set_lastCheckedAt. exact Hdue.
Qed.

End ReschedulingFacts.

(** ** The statements on concrete tasks *)

(** A one-time task whose transfer reverts, in production mode. *)
Lemma failed_execution_is_recorded_witness :
  let t := Scenario.task_of "t1" active "one-time" Scenario.gas_below_20_gwei in
  let env := WorkerScenario.outside_reverting "production" in
  tasks (snd (executeTask env (Scenario.job_for "t1") (Scenario.store [t])))
    = [executed t WorkerScenario.reverted 2004 2005] /\
  status (executed t WorkerScenario.reverted 2004 2005) = active /\
  successes (executed t WorkerScenario.reverted 2004 2005) = 0%nat.
Proof.
  cbv zeta.
  pose (t := Scenario.task_of "t1" active "one-time" Scenario.gas_below_20_gwei).
  destruct (failed_execution_is_recorded
              (WorkerScenario.outside_reverting "production")
              (Scenario.job_for "t1") (Scenario.store [t]) t Scenario.delegator
              WorkerScenario.reverted (set_events 4 (Scenario.store [t]))
              eq_refl eq_refl eq_refl eq_refl eq_refl eq_refl eq_refl eq_refl eq_refl
              eq_refl)
    as (_ & Hsaved & _ & _ & _ & Hstatus & _ & Hsucc).
  split; [exact Hsaved|]. split; [exact Hstatus | exact Hsucc].
Defined.

(** The same transfer in development mode is reported as a success. *)
Lemma development_mode_never_reports_a_failed_transfer_witness :
  let t := Scenario.task_of "t1" active "one-time" Scenario.gas_below_20_gwei in
  let env := WorkerScenario.outside_reverting "development" in
  fst (executeETHTransfer env t Scenario.delegator (Scenario.store [t]))
    = Normal {| success := true;
                r_transactionHash := Some "0x8f3a";
                r_error := None;
                r_details :=
                  Some {| d_recipientAddress :=
                            "0x00000000000000000000000000000000000000a1";
                          d_amount := "10000000000000000";
                          d_network := "sepolia" |} |}.
Proof.
  cbv zeta.
  pose (t := Scenario.task_of "t1" active "one-time" Scenario.gas_below_20_gwei).
  destruct (development_mode_never_reports_a_failed_transfer
              (WorkerScenario.outside_reverting "development")
              t Scenario.delegator (Scenario.store [t]) eq_refl) as [_ Hrun].
  exact (f_equal fst
           (Hrun {| privateKey := Some "5e55104" |}
              "0x00000000000000000000000000000000000000c1"
              "0x00000000000000000000000000000000000000a1"
              "10000000000000000"
              "0x00000000000000000000000000000000000000e1"
              eq_refl eq_refl eq_refl eq_refl eq_refl eq_refl eq_refl eq_refl
              eq_refl eq_refl)).
Defined.

(** A job for a paused task, and a job of an unknown type for an active
    one. *)
Lemma unexecutable_job_writes_nothing_witness :
  executeTask (Scenario.outside None None None) (Scenario.job_for "t1")
    (Scenario.store [Scenario.task_of "t1" paused "recurring" Scenario.gas_below_20_gwei])
  = (Normal tt,
     tick (Scenario.store
             [Scenario.task_of "t1" paused "recurring" Scenario.gas_below_20_gwei])).
Proof.
  destruct (unexecutable_job_writes_nothing (Scenario.outside None None None)
              (Scenario.job_for "t1")
              (Scenario.store
                 [Scenario.task_of "t1" paused "recurring" Scenario.gas_below_20_gwei])
              (Scenario.task_of "t1" paused "recurring" Scenario.gas_below_20_gwei)
              eq_refl eq_refl) as [Hskip _].
  apply Hskip. discriminate.
Defined.

(** Gas at 15 gwei against the threshold of 20 gwei. *)
Lemma evaluators_agree_on_gas_and_price_witness :
  let t := Scenario.task_of "t1" active "recurring" Scenario.gas_below_20_gwei in
  let env := Scenario.outside None (Some "15000000000") None in
  isETHTransferConditionMet env "t1" (conditionType (conditions t)) (conditions t)
    (Scenario.store [t])
  = handleETHTransferCondition env t (Scenario.store [t]) /\
  fst (handleETHTransferCondition env t (Scenario.store [t])) = Normal true.
Proof.
  cbv zeta.
  pose (t := Scenario.task_of "t1" active "recurring" Scenario.gas_below_20_gwei).
  destruct (evaluators_agree_on_gas_and_price
              (Scenario.outside None (Some "15000000000") None) t "t1"
              (Scenario.store [t]) eq_refl) as [Hgas _].
  split; [exact (Hgas eq_refl) | reflexivity].
Defined.

(** The recurring task whose gas condition is met at the poll of time 2000
    is due at every later date. *)
Lemma checked_task_is_due_again_witness :
  let t := Scenario.task_of "t1" active "recurring" Scenario.gas_below_20_gwei in
  let env := Scenario.outside None (Some "15000000000") None in
  exists t',
    tasks (snd (check_task env "eth-transfer" "sepolia" t (Scenario.store [t])))
      = saved t' [t] /\
    due_query "eth-transfer" "sepolia" 3000 t' = true.
Proof.
  cbv zeta.
  pose (t := Scenario.task_of "t1" active "recurring" Scenario.gas_below_20_gwei).
  destruct (checked_task_is_due_again
              (Scenario.outside None (Some "15000000000") None)
              "eth-transfer" "sepolia" t (Scenario.store [t])
              (tick (Scenario.store [t])) 2000 eq_refl) as [Hmet _].
  destruct (Hmet eq_refl eq_refl eq_refl) as (t' & Hsaved & Hdue).
  exists t'. split.
  - exact Hsaved.
  - apply Hdue. lia.
Defined.

(* ===================================================================== *)
(** * The worker and the session key service together *)
(* ===================================================================== *)

(** X20. The worker does not look at the status of the session key:
    [getSessionKey] returns a revoked or expired delegation with its
    decrypted private key, and [executeETHTransfer], given a recipient, an
    amount and the executor address, then calls the transfer of the
    blockchain service with that key and returns its outcome (production
    mode, no AI agent). *)
Theorem revoked_session_key_still_executes :
  forall (senv : SessionKeys.Env) (sw : SessionKeys.World)
         (env : Env) (task : Task) (user : User) (w : World)
         (key : string) (d : SessionKeys.Delegation)
         (enc pk to_ amount_ executor : string),
    SessionKeys.fault senv (SessionKeys.events sw) = false ->
    SessionKeys.first_delegation key (SessionKeys.users sw) = Some d ->
    SessionKeys.status d <> SessionKeys.active ->
    SessionKeys.privateKey d = Some enc ->
    truthy (Some enc) = true ->
    SessionKeys.decryptPrivateKey senv enc = Some pk ->
    truthy (Some pk) = true ->
    sessionKeyId task = Some key ->
    session_keys env (events w) key = WorkerKeys.answered_by senv sw key ->
    or_else (recipientAddress (configuration task))
            (recipient (configuration task)) = Some to_ ->
    truthy (Some to_) = true ->
    amount (configuration task) = Some amount_ ->
    truthy (Some amount_) = true ->
    truthy (agentId user) = false ->
    ETH_TRANSFER_EXECUTOR_ADDRESS env = Some executor ->
    truthy (Some executor) = true ->
    strict_eq (NODE_ENV env) "development" = false ->
    fst (SessionKeys.getSessionKey senv key sw)
      = Normal (Some (SessionKeys.set_privateKey (Some pk) d)) /\
    executeETHTransfer env task user w =
      (Normal (chain_transfer env (S (events w)) key executor to_ amount_),
       tick (tick w)).
Proof.
  intros senv sw env task user w key d enc pk to_ amount_ executor
    Hf Hd Hst Henc Htenc Hdec Htpk Hkey Hans Hto Htot Ham Hamt Hag Hex Hext Hprod.
  assert (Hget : fst (SessionKeys.getSessionKey senv key sw)
                 = Normal (Some (SessionKeys.set_privateKey (Some pk) d))).
  { rewrite getSessionKey_run, Hf, Hd.
    assert (Hna : SessionKeys.is_active d = false).
    { unfold SessionKeys.is_active.
      destruct (SessionKeys.status d); [contradiction | reflexivity | reflexivity]. }
    rewrite Hna, andb_false_r. cbn [fst].
    unfold SessionKeys.with_decrypted_key. rewrite Henc.
    rewrite Htenc, Hdec. reflexivity. }
  split; [exact Hget|].
  unfold WorkerKeys.answered_by in Hans. rewrite Hget in Hans.
  unfold executeETHTransfer, try_catch, bind, consult, ask, ret.
  rewrite Hkey, Hans. cbn [privateKey WorkerKeys.session_key_of
                            SessionKeys.privateKey SessionKeys.set_privateKey].
  rewrite Htpk, Hto, Ham, Htot, Hamt, Hag, Hex, Hext, Hprod.
  reflexivity.
Qed.

(** The transfer of the task is handed on with the revoked key. *)
Lemma revoked_session_key_still_executes_witness :
  let t := Scenario.task_of "t1" active "one-time" Scenario.gas_below_20_gwei in
  fst (executeETHTransfer RevokedScenario.outside t Scenario.delegator
         (Scenario.store [t]))
  = Normal {| success := true; r_transactionHash := Some "0xfeed";
              r_error := None; r_details := None |}.
Proof.
  cbv zeta.
  pose (t := Scenario.task_of "t1" active "one-time" Scenario.gas_below_20_gwei).
  destruct (revoked_session_key_still_executes
              SessionScenario.outside SessionScenario.managed_store
              RevokedScenario.outside t Scenario.delegator (Scenario.store [t])
              "0x00000000000000000000000000000000000000c1"
              SessionScenario.revoked_managed_key
              "iv:5e55104" "5e55104"
              "0x00000000000000000000000000000000000000a1"
              "10000000000000000"
              "0x00000000000000000000000000000000000000e1"
              eq_refl eq_refl ltac:(discriminate) eq_refl eq_refl eq_refl eq_refl
              eq_refl eq_refl eq_refl eq_refl eq_refl eq_refl eq_refl eq_refl
              eq_refl eq_refl) as [_ Hrun].
  exact (f_equal fst Hrun).
Defined.

(* ===================================================================== *)
(** * Properties of signing and sending a transfer *)
(* ===================================================================== *)

Section SigningFacts.

Import Js.
Import SessionKeys.
Import Signing.

Variable env : Env.
Variable chain : Chain.

Lemma find_conj_first {A : Type} (p q : A -> bool) (l : list A) (x : A) :
  find p l = Some x -> q x = true ->
  find (fun y => p y && q y) l = Some x.
Proof.
  induction l as [|y l IH]; cbn [find]; [discriminate|].
  destruct (p y) eqn:Hp; cbn [andb].
  - intros [= ->] Hq. rewrite Hq. reflexivity.
  - exact IH.
Qed.

(** The run of [getSessionKey] on a delegation that is not active. *)
Lemma getSessionKey_not_active (key : string) (w : World) (d : Delegation) :
  fault env (events w) = false ->
  first_delegation key (users w) = Some d ->
  status d <> active ->
  getSessionKey env key w = (Normal (Some (with_decrypted_key env d)), tick (tick w)).
Proof.
  intros Hf Hd Hs. rewrite getSessionKey_run, Hf, Hd.
  assert (Hna : is_active d = false).
  { unfold is_active. destruct (status d); [contradiction | reflexivity | reflexivity]. }
  rewrite Hna, andb_false_r. reflexivity.
Qed.

Lemma getDelegator_run (key : string) (w : World) :
  getDelegatorFromSessionKey env key w =
    if fault env (events w) then (Normal None, tick w)
    else (Normal (option_map address (find (delegator_query key) (users w))), tick w).
Proof.
  unfold getDelegatorFromSessionKey, try_catch, bind, User_findOne, call, ret.
  destruct (fault env (events w)); [reflexivity|].
  destruct (find (delegator_query key) (users w)); reflexivity.
Qed.

(** X21. [executeETHTransfer] of the blockchain service checks the session
    key against the user, not against its own delegation. For the first
    user holding the key, whose delegation of the key is revoked (or
    expired) and carries a private key: if any delegation of that user is
    active, the transfer is signed with the private key of the revoked key
    and sent on behalf of the user, and its outcome is returned; if none is
    active and no other user holds the key, the answer is the failure to
    get the delegator, and nothing is sent. *)
Theorem revoked_key_signs_while_any_delegation_is_active :
  forall (key executor to_ amount_ : string) (w : World)
         (u : User) (d : Delegation) (enc pk : string),
    fault env (events w) = false ->
    fault env (S (S (events w))) = false ->
    find (fun v => existsb (has_key key) (delegations v)) (users w) = Some u ->
    find (has_key key) (delegations u) = Some d ->
    status d <> active ->
    privateKey d = Some enc ->
    truthy (Some enc) = true ->
    decryptPrivateKey env enc = Some pk ->
    truthy (Some pk) = true ->
    wallet chain pk = true ->
    truthy (Some (address u)) = true ->
    (existsb is_active (delegations u) = true ->
     executeETHTransfer env chain key executor to_ amount_ w =
       (Normal
          match executeTransfer chain (S (S (S (events w)))) pk executor
                  (address u) to_ amount_ with
          | inl hash => sent hash
          | inr msg => failure (message_or_unknown (Err msg))
          end,
        tick (tick (tick (tick w))))) /\
    (existsb is_active (delegations u) = false ->
     (forall v, In v (users w) ->
                existsb (has_key key) (delegations v) = true -> v = u) ->
     executeETHTransfer env chain key executor to_ amount_ w =
       (Normal (failure "Failed to get delegator address from session key"),
        tick (tick (tick w)))).
Proof.
  intros key executor to_ amount_ w u d enc pk
    Hf Hf2 Hu Hd Hs Henc Htenc Hdec Htpk Hwallet Haddr.
  assert (Hfirst : first_delegation key (users w) = Some d).
  { unfold first_delegation. rewrite Hu. exact Hd. }
  assert (Hsigner : getSessionKeySigner env chain key w
                    = (Normal (Some pk), tick (tick w))).
  { unfold getSessionKeySigner, try_catch, bind.
    rewrite (getSessionKey_not_active key w d Hf Hfirst Hs).
    unfold with_decrypted_key. rewrite Henc, Htenc, Hdec.
    cbn [privateKey set_privateKey]. rewrite Htpk. cbn [negb].
    rewrite Hwallet. reflexivity. }
  split.
  - intros Hact.
    unfold executeETHTransfer, try_catch, bind. rewrite Hsigner.
    rewrite getDelegator_run. cbn [events tick users]. rewrite Hf2.
    unfold delegator_query.
    rewrite (find_conj_first (fun v => existsb (has_key key) (delegations v))
               (fun v => existsb is_active (delegations v)) (users w) u Hu Hact).
    cbn [option_map]. rewrite Haddr. cbn [negb events tick].
    destruct (executeTransfer chain (S (S (S (events w)))) pk executor
                (address u) to_ amount_); reflexivity.
  - intros Hnone Honly.
    unfold executeETHTransfer, try_catch, bind. rewrite Hsigner.
    rewrite getDelegator_run. cbn [events tick users]. rewrite Hf2.
    rewrite find_none_all; [reflexivity|].
    intros v Hv. unfold delegator_query.
    destruct (existsb (has_key key) (delegations v)) eqn:Hk; [|reflexivity].
    rewrite (Honly v Hv Hk), Hnone. reflexivity.
Qed.

(** What [getSessionKey] returns, and on which store it leaves the next
    lookup. *)
Lemma getSessionKey_result (key : string) (w : World) (d' : Delegation) :
  fst (getSessionKey env key w) = Normal (Some d') ->
  exists d,
    first_delegation key (users w) = Some d /\
    (d' = with_decrypted_key env d \/
     d' = with_decrypted_key env (set_status expired d)) /\
    forall u', In u' (users (snd (getSessionKey env key w))) ->
      exists u, In u (users w) /\ address u' = address u /\
                existsb (has_key key) (delegations u')
                  = existsb (has_key key) (delegations u).
Proof.
  rewrite getSessionKey_run.
  assert (Hsame : forall u', In u' (users w) ->
            exists u, In u (users w) /\ address u' = address u /\
                      existsb (has_key key) (delegations u')
                        = existsb (has_key key) (delegations u))
    by (intros u' Hu'; exists u'; auto).
  destruct (fault env (events w)); [discriminate|].
  destruct (first_delegation key (users w)) as [d|]; [|discriminate].
  destruct ((expiresAt d <? clock env (S (events w))) && is_active d).
  - destruct (fault env (S (S (events w)))); [discriminate|].
    cbn [fst snd users tick set_users]. intros [= <-].
    exists d. split; [reflexivity|]. split; [right; reflexivity|].
    intros u' Hu'. apply In_update_first in Hu'.
    destruct Hu' as [Hu'|(v & Hv & ->)]; [exact (Hsame u' Hu')|].
    exists v. split; [exact Hv|]. split; [reflexivity|].
    cbn [delegations set_delegations]. apply existsb_update_first. reflexivity.
  - cbn [fst snd users tick]. intros [= <-].
    exists d. split; [reflexivity|]. split; [left; reflexivity | exact Hsame].
Qed.

Lemma with_decrypted_key_private (d : Delegation) (pk : string) :
  privateKey (with_decrypted_key env d) = Some pk ->
  truthy (Some pk) = true ->
  exists enc, privateKey d = Some enc /\ decryptPrivateKey env enc = Some pk.
Proof.
  unfold with_decrypted_key.
  destruct (privateKey d) as [enc|] eqn:Hp; [|rewrite Hp; discriminate].
  destruct (truthy (Some enc)) eqn:Ht.
  - cbn [privateKey set_privateKey]. intros Hdec _. exists enc. auto.
  - rewrite Hp. intros [= ->]. congruence.
Qed.

(** X22. [executeETHTransfer] of the blockchain service never throws, and
    it reports a success only for a transaction that was sent: signed with
    the decrypted private key stored with the first delegation of the
    session key, on behalf of a user who holds the session key, and
    confirmed with the hash that is returned. For a session key that no
    stored delegation has, it fails to get the signer. *)
Theorem transfer_succeeds_only_when_sent :
  forall (key executor to_ amount_ : string) (w : World),
    (exists r, fst (executeETHTransfer env chain key executor to_ amount_ w)
               = Normal r) /\
    (forall r,
        fst (executeETHTransfer env chain key executor to_ amount_ w) = Normal r ->
        success r = true ->
        exists d enc pk u n hash,
          first_delegation key (users w) = Some d /\
          privateKey d = Some enc /\
          decryptPrivateKey env enc = Some pk /\
          wallet chain pk = true /\
          In u (users w) /\
          existsb (has_key key) (delegations u) = true /\
          executeTransfer chain n pk executor (address u) to_ amount_ = inl hash /\
          r = sent hash) /\
    (key_unknown key (users w) ->
     fst (executeETHTransfer env chain key executor to_ amount_ w)
       = Normal (failure "Failed to get signer from session key")).
Proof.
  intros key executor to_ amount_ w.
  destruct (executeETHTransfer env chain key executor to_ amount_ w) as [c w']
    eqn:E.
  cbn [fst].
  unfold executeETHTransfer, getSessionKeySigner, try_catch, bind in E.
  pose proof (getSessionKey_result key w) as Hres.
  assert (Hunknown : key_unknown key (users w) ->
            getSessionKey env key w = (Normal None, tick w)).
  { intros Hno. rewrite getSessionKey_run, (first_delegation_unknown _ _ Hno).
    destruct (fault env (events w)); reflexivity. }
  assert (Hfail : forall msg,
            c = Normal (failure msg) ->
            (exists r, c = Normal r) /\
            (forall r, c = Normal r -> success r = true ->
               exists d enc pk u n hash,
                 first_delegation key (users w) = Some d /\
                 privateKey d = Some enc /\
                 decryptPrivateKey env enc = Some pk /\
                 wallet chain pk = true /\
                 In u (users w) /\
                 existsb (has_key key) (delegations u) = true /\
                 executeTransfer chain n pk executor (address u) to_ amount_
                   = inl hash /\
                 r = sent hash)).
  { intros msg ->. split; [eexists; reflexivity|].
    intros r [= <-]. discriminate. }
  destruct (getSessionKey env key w) as [[[d'|]|e] w1] eqn:Hget;
    cbn [fst snd] in Hres.
  2:{ cbn in E. injection E as <- <-.
      destruct (Hfail _ eq_refl) as [H1 H2]. split; [exact H1|].
      split; [exact H2 | reflexivity]. }
  2:{ cbn in E. injection E as <- <-.
      destruct (Hfail _ eq_refl) as [H1 H2]. split; [exact H1|].
      split; [exact H2 | reflexivity]. }
  destruct (Hres d' eq_refl) as (d & Hfirst & Hd' & Husers).
  assert (Hknown : ~ key_unknown key (users w)).
  { intros Hno. discriminate (Hunknown Hno). }
  assert (Hfail' : forall msg,
            c = Normal (failure msg) ->
            (exists r, c = Normal r) /\
            (forall r, c = Normal r -> success r = true ->
               exists d enc pk u n hash,
                 first_delegation key (users w) = Some d /\
                 privateKey d = Some enc /\
                 decryptPrivateKey env enc = Some pk /\
                 wallet chain pk = true /\
                 In u (users w) /\
                 existsb (has_key key) (delegations u) = true /\
                 executeTransfer chain n pk executor (address u) to_ amount_
                   = inl hash /\
                 r = sent hash) /\
            (key_unknown key (users w) ->
             c = Normal (failure "Failed to get signer from session key"))).
  { intros msg Hc. destruct (Hfail msg Hc) as [H1 H2].
    split; [exact H1|]. split; [exact H2 | contradiction]. }
  clear Hfail.
  destruct (privateKey d') as [pk|] eqn:Hpk;
    [|cbn in E; injection E as <- <-; exact (Hfail' _ eq_refl)].
  destruct (truthy (Some pk)) eqn:Htpk; cbn [negb] in E;
    [|cbn in E; injection E as <- <-; exact (Hfail' _ eq_refl)].
  destruct (wallet chain pk) eqn:Hwallet;
    [|cbn in E; injection E as <- <-; exact (Hfail' _ eq_refl)].
  unfold ret at 1 in E. rewrite getDelegator_run in E.
  destruct (fault env (events w1));
    [cbn in E; injection E as <- <-; exact (Hfail' _ eq_refl)|].
  destruct (find (delegator_query key) (users w1)) as [u1|] eqn:Hu1;
    cbn [option_map] in E;
    [|cbn in E; injection E as <- <-; exact (Hfail' _ eq_refl)].
  destruct (truthy (Some (address u1))); cbn [negb] in E;
    [|cbn in E; injection E as <- <-; exact (Hfail' _ eq_refl)].
  cbn [events tick] in E.
  destruct (executeTransfer chain (S (events w1)) pk executor (address u1)
              to_ amount_) as [hash|msg] eqn:Hsend;
    [|cbn in E; injection E as <- <-; exact (Hfail' _ eq_refl)].
  cbn in E. injection E as <- <-.
  split; [eexists; reflexivity|]. split; [|contradiction].
  intros r [= <-] _.
  assert (Hkey : exists enc, privateKey d = Some enc /\
                             decryptPrivateKey env enc = Some pk).
  { destruct Hd' as [->| ->].
    - exact (with_decrypted_key_private d pk Hpk Htpk).
    - destruct (with_decrypted_key_private (set_status expired d) pk Hpk Htpk)
        as (enc & He & Hdec).
      exists enc. split; [exact He | exact Hdec]. }
  destruct Hkey as (enc & Henc & Hdec).
  apply find_some in Hu1. destruct Hu1 as [Hin1 Hq].
  destruct (Husers u1 Hin1) as (u & Hu & Haddr & Hhas).
  unfold delegator_query in Hq. apply andb_true_iff in Hq. destruct Hq as [Hq _].
  exists d, enc, pk, u, (S (events w1)), hash.
  rewrite <- Haddr. rewrite <- Hhas. repeat split; assumption.
Qed.

End SigningFacts.

(** The transfer signed with the revoked managed key, for the delegator who
    also holds a live key, confirms. *)
Lemma revoked_key_signs_while_any_delegation_is_active_witness :
  fst (Signing.executeETHTransfer SessionScenario.outside SigningScenario.confirming
         "0x00000000000000000000000000000000000000c1"
         "0x00000000000000000000000000000000000000e1"
         "0x00000000000000000000000000000000000000a1" "10000000000000000"
         SessionScenario.managed_store)
  = Normal (Signing.sent "0xfeed").
Proof.
  destruct (revoked_key_signs_while_any_delegation_is_active
              SessionScenario.outside SigningScenario.confirming
              "0x00000000000000000000000000000000000000c1"
              "0x00000000000000000000000000000000000000e1"
              "0x00000000000000000000000000000000000000a1" "10000000000000000"
              SessionScenario.managed_store
              {| SessionKeys.address := "0x00000000000000000000000000000000000000d1";
                 SessionKeys.delegations :=
                   [SessionScenario.revoked_managed_key; SessionScenario.live_key] |}
              SessionScenario.revoked_managed_key "iv:5e55104" "5e55104"
              eq_refl eq_refl eq_refl eq_refl ltac:(discriminate) eq_refl eq_refl
              eq_refl eq_refl eq_refl eq_refl) as [Hsent _].
  exact (f_equal fst (Hsent eq_refl)).
Defined.

(* ===================================================================== *)
(** * Further properties of the multi-type scheduler *)
(* ===================================================================== *)

Section SchedulingFacts.

Variable env : MultiTask.Env.

(** Scheduling never throws. *)
Lemma scheduleTask_never_throws (task : MultiTask.Task) (w : MultiTask.World) :
  exists r, fst (MultiTask.scheduleTask env task w) = Normal r.
Proof.
  unfold MultiTask.scheduleTask.
  destruct (negb _); [eexists; reflexivity|].
  unfold try_catch, bind, MultiTask.enqueueTask, throw, ret, MultiTask.call.
  destruct (MultiTask.taskQueueMap (MultiTask.type task)); [|eexists; reflexivity].
  destruct (MultiTask.fault env (MultiTask.events w)); eexists; reflexivity.
Qed.

Lemma schedule_loop_never_throws (l : list MultiTask.Task) (w : MultiTask.World) :
  fst (for_of l (fun task =>
         bind (MultiTask.scheduleTask env task) (fun _ => ret tt)) w) = Normal tt.
Proof.
  revert w. induction l as [|t l IH]; intros w; [reflexivity|].
  cbn [for_of]. unfold bind at 1. unfold bind at 1.
  destruct (scheduleTask_never_throws t w) as [r Hr].
  destruct (MultiTask.scheduleTask env t w) as [c w1]. cbn [fst] in Hr. subst c.
  unfold ret at 1. apply IH.
Qed.

(** Scheduling one task when no call is rejected. *)
Lemma scheduleTask_accepted (task : MultiTask.Task) (w : MultiTask.World) :
  MultiTask.fault env (MultiTask.events w) = false ->
  MultiTask.queued (snd (MultiTask.scheduleTask env task w))
    = (MultiTask.queued w ++ Scheduling.scheduled_job task)%list /\
  (MultiTask.events w <= MultiTask.events (snd (MultiTask.scheduleTask env task w))
   <= S (MultiTask.events w))%nat.
Proof.
  intros Hf. unfold MultiTask.scheduleTask, Scheduling.scheduled_job.
  destruct (MultiTask.TaskStatus_eqb (MultiTask.status task) MultiTask.ACTIVE);
    cbn [negb].
  - unfold try_catch, bind, MultiTask.enqueueTask, throw, ret, MultiTask.call.
    destruct (MultiTask.taskQueueMap (MultiTask.type task)).
    + rewrite Hf. cbn. split; [reflexivity | lia].
    + cbn. rewrite app_nil_r. split; [reflexivity | lia].
  - cbn. rewrite app_nil_r. split; [reflexivity | lia].
Qed.

Lemma schedule_loop_accepted (l : list MultiTask.Task) (w : MultiTask.World) :
  (forall n, MultiTask.fault env n = false) ->
  MultiTask.queued
    (snd (for_of l (fun task =>
            bind (MultiTask.scheduleTask env task) (fun _ => ret tt)) w))
    = (MultiTask.queued w ++ flat_map Scheduling.scheduled_job l)%list.
Proof.
  intros Hf. revert w. induction l as [|t l IH]; intros w.
  - cbn. rewrite app_nil_r. reflexivity.
  - cbn [for_of flat_map]. unfold bind at 1. unfold bind at 1.
    destruct (scheduleTask_never_throws t w) as [r Hr].
    destruct (scheduleTask_accepted t w (Hf _)) as [Hq _].
    destruct (MultiTask.scheduleTask env t w) as [c w1].
    cbn [fst snd] in Hr, Hq. subst c. unfold ret at 1.
    rewrite IH, Hq, app_assoc. reflexivity.
Qed.

Lemma no_queue_no_jobs (ty : string) (l : list MultiTask.Task) :
  MultiTask.taskQueueMap ty = None ->
  flat_map Scheduling.scheduled_job
    (filter (fun t => (MultiTask.type t =? ty)%string
                      && MultiTask.TaskStatus_eqb (MultiTask.status t) MultiTask.ACTIVE)
            l) = [].
Proof.
  intros Hnone. induction l as [|t l IH]; [reflexivity|].
  cbn [filter]. destruct (MultiTask.type t =? ty)%string eqn:Hty; cbn [andb].
  - destruct (MultiTask.TaskStatus_eqb (MultiTask.status t) MultiTask.ACTIVE)
      eqn:Hact; [|exact IH].
    cbn [flat_map]. unfold Scheduling.scheduled_job at 1.
    apply String.eqb_eq in Hty. rewrite Hact, Hty, Hnone. exact IH.
  - exact IH.
Qed.

(** X23. [scheduleTasksByType] and [forceRecheckAllTasks] never throw, leave
    the tasks as they are, and report a failure exactly when the query for
    the tasks is rejected: a job that cannot be enqueued is skipped and the
    answer is still a success. When no call is rejected, the queues receive
    one job per selected task, in the order of the store, each with the
    identifier, wallet, user, rules, metadata and type of its task, and no
    job for a task whose type has no queue. *)
Theorem scheduling_enqueues_every_selected_task :
  forall (w : MultiTask.World),
    let selected_by (ty : string) :=
      filter (fun t => (MultiTask.type t =? ty)%string
                       && MultiTask.TaskStatus_eqb (MultiTask.status t) MultiTask.ACTIVE)
             (MultiTask.tasks w) in
    let active :=
      filter (fun t => MultiTask.TaskStatus_eqb (MultiTask.status t) MultiTask.ACTIVE)
             (MultiTask.tasks w) in
    (forall ty,
        fst (MultiTask.scheduleTasksByType env ty w)
          = Normal (negb (MultiTask.fault env (MultiTask.events w))) /\
        MultiTask.tasks (snd (MultiTask.scheduleTasksByType env ty w))
          = MultiTask.tasks w) /\
    (fst (MultiTask.forceRecheckAllTasks env w)
       = Normal (negb (MultiTask.fault env (MultiTask.events w))) /\
     MultiTask.tasks (snd (MultiTask.forceRecheckAllTasks env w))
       = MultiTask.tasks w) /\
    ((forall n, MultiTask.fault env n = false) ->
     (forall ty,
         MultiTask.queued (snd (MultiTask.scheduleTasksByType env ty w))
           = (MultiTask.queued w
              ++ flat_map Scheduling.scheduled_job (selected_by ty))%list) /\
     (forall ty,
         MultiTask.taskQueueMap ty = None ->
         MultiTask.queued (snd (MultiTask.scheduleTasksByType env ty w))
           = MultiTask.queued w) /\
     MultiTask.queued (snd (MultiTask.forceRecheckAllTasks env w))
       = (MultiTask.queued w ++ flat_map Scheduling.scheduled_job active)%list).
Proof.
  intros w selected_by active.
  assert (Hrun : forall q : MultiTask.Task -> bool,
    let res :=
      try_catch
        (bind (MultiTask.Task_find env q)
           (fun tasks =>
              bind (for_of tasks (fun task =>
                      bind (MultiTask.scheduleTask env task) (fun _ => ret tt)))
                   (fun _ => ret true)))
        (fun _ => ret false) w in
    fst res = Normal (negb (MultiTask.fault env (MultiTask.events w))) /\
    MultiTask.tasks (snd res) = MultiTask.tasks w /\
    ((forall n, MultiTask.fault env n = false) ->
     MultiTask.queued (snd res)
       = (MultiTask.queued w
          ++ flat_map Scheduling.scheduled_job (filter q (MultiTask.tasks w)))%list)).
  { intros q. cbv zeta.
    assert (E :
      try_catch
        (bind (MultiTask.Task_find env q)
           (fun tasks =>
              bind (for_of tasks (fun task =>
                      bind (MultiTask.scheduleTask env task) (fun _ => ret tt)))
                   (fun _ => ret true)))
        (fun _ => ret false) w
      = if MultiTask.fault env (MultiTask.events w)
        then (Normal false, MultiTask.tick w)
        else (Normal true,
              snd (for_of (filter q (MultiTask.tasks w))
                     (fun task =>
                        bind (MultiTask.scheduleTask env task) (fun _ => ret tt))
                     (MultiTask.tick w)))).
    { unfold try_catch, bind at 1. unfold MultiTask.Task_find, MultiTask.call.
      destruct (MultiTask.fault env (MultiTask.events w)); [reflexivity|].
      unfold bind at 1.
      pose proof (schedule_loop_never_throws (filter q (MultiTask.tasks w))
                    (MultiTask.tick w)) as Hok.
      destruct (for_of _ _ (MultiTask.tick w)) as [c w1].
      cbn [fst] in Hok. subst c. reflexivity. }
    rewrite E.
    destruct (MultiTask.fault env (MultiTask.events w)) eqn:Hf.
    - cbn. split; [reflexivity|]. split; [reflexivity|].
      intros Hall. rewrite Hall in Hf. discriminate.
    - cbn [fst snd negb].
      pose proof (schedule_loop_effect env (filter q (MultiTask.tasks w))
                    (MultiTask.tick w)) as [Htasks _].
      split; [reflexivity|]. split; [exact Htasks|].
      intros Hall.
      exact (schedule_loop_accepted (filter q (MultiTask.tasks w))
               (MultiTask.tick w) Hall). }
  split; [|split].
  - intros ty. destruct (Hrun (fun t => (MultiTask.type t =? ty)%string
                && MultiTask.TaskStatus_eqb (MultiTask.status t) MultiTask.ACTIVE))
      as (H1 & H2 & _).
    split; [exact H1 | exact H2].
  - destruct (Hrun (fun t => MultiTask.TaskStatus_eqb (MultiTask.status t)
                               MultiTask.ACTIVE)) as (H1 & H2 & _).
    split; [exact H1 | exact H2].
  - intros Hall.
    assert (Hby : forall ty,
              MultiTask.queued (snd (MultiTask.scheduleTasksByType env ty w))
              = (MultiTask.queued w
                 ++ flat_map Scheduling.scheduled_job (selected_by ty))%list).
    { intros ty. destruct (Hrun (fun t => (MultiTask.type t =? ty)%string
                && MultiTask.TaskStatus_eqb (MultiTask.status t) MultiTask.ACTIVE))
        as (_ & _ & H3).
      exact (H3 Hall). }
    split; [exact Hby|]. split.
    + intros ty Hnone. rewrite Hby. unfold selected_by.
      rewrite (no_queue_no_jobs ty (MultiTask.tasks w) Hnone).
      apply app_nil_r.
    + destruct (Hrun (fun t => MultiTask.TaskStatus_eqb (MultiTask.status t)
                                 MultiTask.ACTIVE)) as (_ & _ & H3).
      exact (H3 Hall).
Qed.

End SchedulingFacts.

(* ===================================================================== *)
(** * Properties of the placeholder processors *)
(* ===================================================================== *)

Section SimulationFacts.

Import MultiTask.
Import Placeholders.

Variable env : Env.
Variable random_hex : nat -> string.

Lemma ran_refl (t : Task) : ran [] t t.
Proof. unfold ran. rewrite app_nil_r. tauto. Qed.

Lemma ran_push (more : list ExecutionRecord) (r : ExecutionRecord) (d : Date)
    (t t' : Task) :
  ran more t t' -> ran (more ++ [r]) t (set_lastExecuted d (push_record r t')).
Proof.
  unfold ran. cbn. intros (A & B & C & D & E & F & G & H).
  rewrite H, app_assoc. tauto.
Qed.

(** X24. A run of a placeholder processor on an active task that is
    reported as failed still leaves a successful execution in the history:
    the task object carries the 'SUCCESSFUL' record, with its transaction
    hash, when the error handler appends the 'FAILED' record and saves.
    This is so when the first save is rejected, and when the task is saved
    and recording the activity is rejected. When both calls are accepted
    the result is 'SUCCESSFUL' and the history grows by that one record. In
    every case the status of the task stays 'ACTIVE'. *)
Theorem failed_simulation_records_a_success :
  forall (id name : string) (w : World) (task : Task),
    fault env (events w) = false ->
    find (fun t => (taskId t =? id)%string) (tasks w) = Some task ->
    status task = ACTIVE ->
    let e := events w in
    let hash := String.append "0x" (random_hex (S e)) in
    let succeeded :=
      {| timestamp := clock env (S e); exec_status := EXEC_SUCCESSFUL;
         details := Some (String.append "Simulated "
                            (String.append name " task execution"));
         txHash := Some hash; errorMessage := None |} in
    let failed_at (n : nat) :=
      {| timestamp := clock env n; exec_status := EXEC_FAILED;
         details := Some (String.append "Failed to process "
                            (String.append name " task"));
         txHash := None; errorMessage := Some "connection error" |} in
    let res := simulateTaskExecution env random_hex id name w in
    (fault env (3 + e) = false -> fault env (4 + e) = false ->
     fst res = Normal {| out_status := EXEC_SUCCESSFUL;
                         out_message := String.append "Simulated "
                                          (String.append name " task execution");
                         out_txHash := Some hash |} /\
     exists task',
       tasks (snd res) = saved task' (tasks w) /\
       ran [succeeded] task task' /\ status task' = ACTIVE) /\
    (fault env (3 + e) = true ->
     fault env (6 + e) = false -> fault env (7 + e) = false ->
     fst res = Normal {| out_status := EXEC_FAILED;
                         out_message := "Error processing task: connection error";
                         out_txHash := None |} /\
     exists task',
       tasks (snd res) = saved task' (tasks w) /\
       ran [succeeded; failed_at (4 + e)%nat] task task' /\
       status task' = ACTIVE) /\
    (fault env (3 + e) = false -> fault env (4 + e) = true ->
     fault env (7 + e) = false -> fault env (8 + e) = false ->
     fst res = Normal {| out_status := EXEC_FAILED;
                         out_message := "Error processing task: connection error";
                         out_txHash := None |} /\
     exists task1 task',
       tasks (snd res) = saved task' (saved task1 (tasks w)) /\
       ran [succeeded] task task1 /\
       ran [succeeded; failed_at (5 + e)%nat] task task' /\
       status task' = ACTIVE).
Proof.
  intros id name w task Hf Ht Hs. cbv zeta.
  unfold simulateTaskExecution, Task_findOne, call.
  rewrite Hf, Ht. cbn [fst snd]. rewrite Hs. cbn [TaskStatus_eqb negb].
  unfold simulation_failed, try_catch, bind, now, Task_save, createActivity,
    call, ret.
  cbn [events tick tasks set_tasks set_activities fst snd plus].
  split; [|split].
  - intros F3 F4. rewrite F3. cbn [events tick tasks set_tasks set_activities].
    rewrite F4. cbn [fst snd events tick tasks set_tasks set_activities].
    split; [reflexivity|]. eexists. split; [reflexivity|].
    split; [apply (ran_push [] _ _ task task (ran_refl task)) | exact Hs].
  - intros F3 F6 F7. rewrite F3.
    cbn [fst snd events tick tasks set_tasks set_activities message].
    rewrite F6. cbn [fst snd events tick tasks set_tasks set_activities].
    rewrite F7. cbn [fst snd events tick tasks set_tasks set_activities].
    split; [reflexivity|]. eexists. split; [reflexivity|].
    split; [|exact Hs].
    apply (ran_push [_]). apply (ran_push [] _ _ task task (ran_refl task)).
  - intros F3 F4 F7 F8. rewrite F3.
    cbn [fst snd events tick tasks set_tasks set_activities].
    rewrite F4. cbn [fst snd events tick tasks set_tasks set_activities message].
    rewrite F7. cbn [fst snd events tick tasks set_tasks set_activities].
    rewrite F8. cbn [fst snd events tick tasks set_tasks set_activities].
    split; [reflexivity|]. eexists. eexists. split; [reflexivity|].
    split; [apply (ran_push [] _ _ task task (ran_refl task))|].
    split; [|exact Hs].
    apply (ran_push [_]). apply (ran_push [] _ _ task task (ran_refl task)).
Qed.

Lemma In_saved (x t' : Task) (l : list Task) :
  In t' (saved x l) -> t' = x \/ In t' l.
Proof.
  unfold saved. intros Hin. apply in_map_iff in Hin.
  destruct Hin as (d & Hd & Hin).
  destruct (taskId d =? taskId x)%string; [left; auto | right; subst; exact Hin].
Qed.

(** X25. A placeholder processor never changes the status of a task, nor
    anything but its history and its date of last execution, and enqueues
    nothing: after a run every stored task is a task stored before with at
    most two records appended, so an active task stays active and is run
    again at the next scheduling. For a task that is missing or not active
    nothing is written at all. *)
Theorem simulation_never_changes_status :
  forall (id name : string) (w : World),
    let w' := snd (simulateTaskExecution env random_hex id name w) in
    queued w' = queued w /\
    (forall t', In t' (tasks w') ->
       exists t more,
         In t (tasks w) /\ ran more t t' /\ (List.length more <= 2)%nat) /\
    (find (fun t => (taskId t =? id)%string) (tasks w) = None \/
     (exists task, find (fun t => (taskId t =? id)%string) (tasks w) = Some task /\
                   status task <> ACTIVE) ->
     w' = tick w).
Proof.
  intros id name w. cbv zeta.
  assert (Hold : forall t', In t' (tasks w) ->
            exists t more,
              In t (tasks w) /\ ran more t t' /\ (List.length more <= 2)%nat).
  { intros t' Hin. exists t', []. split; [exact Hin|].
    split; [apply ran_refl | cbn; lia]. }
  unfold simulateTaskExecution, Task_findOne, call.
  destruct (fault env (events w)) eqn:Hf.
  { cbn. split; [reflexivity|]. split; [exact Hold | reflexivity]. }
  destruct (find (fun t => (taskId t =? id)%string) (tasks w)) as [task|] eqn:Ht.
  2:{ cbn. split; [reflexivity|]. split; [exact Hold | reflexivity]. }
  cbn [fst snd].
  destruct (TaskStatus_eqb (status task) ACTIVE) eqn:Hs; cbn [negb].
  2:{ cbn. split; [reflexivity|]. split; [exact Hold | reflexivity]. }
  apply MultiTask_status_eqb_eq in Hs.
  pose proof (find_some _ _ Ht) as [Hin _].
  assert (Hnot : Some task = None \/
            (exists task0, Some task = Some task0 /\ status task0 <> ACTIVE) ->
            False).
  { intros [H|(task0 & [= <-] & H)]; [discriminate | contradiction]. }
  clear Ht.
  set (succeeded := {| timestamp := clock env (S (events w));
                       exec_status := EXEC_SUCCESSFUL;
                       details := Some (String.append "Simulated "
                                          (String.append name " task execution"));
                       txHash := Some (String.append "0x" (random_hex (S (events w))));
                       errorMessage := None |}).
  assert (H1 : forall d, ran [succeeded] task
                           (set_lastExecuted d (push_record succeeded task))).
  { intros d. apply (ran_push [] _ _ task task (ran_refl task)). }
  assert (H2 : forall d d' r,
            ran [succeeded; r] task
              (set_lastExecuted d'
                 (push_record r (set_lastExecuted d (push_record succeeded task))))).
  { intros d d' r. apply (ran_push [succeeded]). apply H1. }
  assert (Hsaved1 : forall d t',
            In t' (saved (set_lastExecuted d (push_record succeeded task)) (tasks w)) ->
            exists t more,
              In t (tasks w) /\ ran more t t' /\ (List.length more <= 2)%nat).
  { intros d t' Ht'. apply In_saved in Ht'. destruct Ht' as [->|Ht'].
    - exists task, [succeeded]. split; [exact Hin|]. split; [apply H1 | cbn; lia].
    - exact (Hold t' Ht'). }
  assert (Hsaved2 : forall d d' r l t',
            (forall x, In x l ->
               exists t more,
                 In t (tasks w) /\ ran more t x /\ (List.length more <= 2)%nat) ->
            In t' (saved (set_lastExecuted d'
                            (push_record r
                               (set_lastExecuted d (push_record succeeded task)))) l) ->
            exists t more,
              In t (tasks w) /\ ran more t t' /\ (List.length more <= 2)%nat).
  { intros d d' r l t' Hl Ht'. apply In_saved in Ht'. destruct Ht' as [->|Ht'].
    - exists task, [succeeded; r]. split; [exact Hin|].
      split; [apply H2 | cbn; lia].
    - exact (Hl t' Ht'). }
  unfold simulation_failed, try_catch, bind, now, Task_save, createActivity,
    call, ret.
  cbn [events tick tasks set_tasks set_activities fst snd].
  fold succeeded.
  repeat match goal with
         | |- context [if fault env ?n then _ else _] => destruct (fault env n)
         end;
    cbn [fst snd events tick tasks queued set_tasks set_activities];
    (split; [reflexivity|]); (split; [|intros H; destruct (Hnot H)]);
    first [ exact Hold
          | apply Hsaved1
          | intros t'; apply Hsaved2; first [exact Hold | apply Hsaved1] ].
Qed.

End SimulationFacts.

(** The swap task when its save is rejected: the run is reported as failed
    and the stored history holds the successful and the failed record. *)
Lemma failed_simulation_records_a_success_witness :
  let res := Placeholders.processTokenSwapTask (PlaceholderScenario.rejecting 3)
               PlaceholderScenario.hex "s1"
               (Scenario.multi_store [PlaceholderScenario.active_swap]) in
  fst res
    = Normal {| Placeholders.out_status := MultiTask.EXEC_FAILED;
                Placeholders.out_message := "Error processing task: connection error";
                Placeholders.out_txHash := None |} /\
  map (fun t => map MultiTask.exec_status (MultiTask.executionHistory t))
      (MultiTask.tasks (snd res))
    = [[MultiTask.EXEC_SUCCESSFUL; MultiTask.EXEC_FAILED]].
Proof.
  cbv zeta.
  destruct (failed_simulation_records_a_success
              (PlaceholderScenario.rejecting 3) PlaceholderScenario.hex
              "s1" "token swap"
              (Scenario.multi_store [PlaceholderScenario.active_swap])
              PlaceholderScenario.active_swap eq_refl eq_refl eq_refl)
    as (_ & Hrejected & _).
  destruct (Hrejected eq_refl eq_refl eq_refl) as (Hres & _).
  split; [exact Hres | reflexivity].
Defined.

(* ===================================================================== *)
(** * Properties of the API key service *)
(* ===================================================================== *)

Section ApiKeyFacts.

Import ApiKeys.

Variable env : Env.

Lemma ApiKeyStatus_eqb_eq (a b : ApiKeyStatus) :
  ApiKeyStatus_eqb a b = true <-> a = b.
Proof. destruct a, b; cbn; split; congruence. Qed.

(** The run of [isValid]. *)
Lemma isValid_run (k : ApiKey) (w : World) :
  isValid env k w =
    match status k, expiresAt k with
    | ACTIVE, Some d => (Normal (negb (d <? clock env (events w))), tick w)
    | ACTIVE, None => (Normal true, w)
    | _, _ => (Normal false, w)
    end.
Proof.
  unfold isValid, bind, now, ret.
  destruct (status k); cbn [ApiKeyStatus_eqb negb]; try reflexivity.
  destruct (expiresAt k) as [d|]; [|reflexivity].
  destruct (d <? clock env (events w)); reflexivity.
Qed.

(** The rate limiting and what follows it never throw. *)
Lemma counted_run (k : ApiKey) (w : World) :
  exists v w',
    count_request env k w = (Normal v, w') /\ v_keyId v = Some (keyId k).
Proof.
  unfold count_request. unfold bind at 1. unfold increment, bind at 1. unfold now.
  destruct (RateLimiter.increment _ _ _ _ _) as [exceeded r].
  destruct exceeded.
  - unfold bind, getRetryAfter, now, ret.
    cbn [rateLimitCache set_rateLimitCache tick].
    destruct (RateLimiter.Map_get _ _); do 2 eexists; split; reflexivity.
  - unfold updateLastUsed, try_catch, bind, now, ApiKey_save, call, ret.
    cbn [events set_rateLimitCache tick].
    destruct (fault env _); do 2 eexists; split; reflexivity.
Qed.

(** X26. [validateApiKey] never throws, and it accepts a key only if a
    stored document has that key, is active, has no expiry or one that has
    not passed when it is checked, and allows the caller's address (an empty
    whitelist allows every address); the answer names that document. A
    revoked key is refused as 'revoked', an unknown key as 'invalid_key'. *)
Theorem validateApiKey_accepts_only_usable_keys :
  forall (key_ ip : string) (w : World),
    (exists v, fst (validateApiKey env key_ ip w) = Normal v) /\
    (forall v,
        fst (validateApiKey env key_ ip w) = Normal v ->
        valid v = true ->
        exists k,
          find (fun k => (key k =? key_)%string) (apiKeys w) = Some k /\
          status k = ACTIVE /\
          (forall d, expiresAt k = Some d -> clock env (S (events w)) <= d) /\
          (ipWhitelist k = [] \/ In ip (ipWhitelist k)) /\
          v_keyId v = Some (keyId k)) /\
    (fault env (events w) = false ->
     (forall k,
         find (fun k => (key k =? key_)%string) (apiKeys w) = Some k ->
         status k = REVOKED ->
         validateApiKey env key_ ip w
           = (Normal (refused "revoked" (Some (keyId k))), tick w)) /\
     (find (fun k => (key k =? key_)%string) (apiKeys w) = None ->
      validateApiKey env key_ ip w = (Normal (refused "invalid_key" None), tick w))).
Proof.
  intros key_ ip w.
  destruct (validateApiKey env key_ ip w) as [c w'] eqn:E. cbn [fst].
  unfold validateApiKey, try_catch in E. unfold bind at 1 in E.
  unfold ApiKey_findOne, call in E.
  destruct (fault env (events w)) eqn:Hf.
  { cbn in E. injection E as <- <-. split; [eexists; reflexivity|].
    split; [intros v [= <-]; discriminate | discriminate]. }
  destruct (find (fun k => (key k =? key_)%string) (apiKeys w)) as [k|] eqn:Hk.
  2:{ cbn in E. injection E as <- <-. split; [eexists; reflexivity|].
      split; [intros v [= <-]; discriminate|].
      intros _. split; [discriminate | reflexivity]. }
  cbn [fst snd] in E. unfold bind at 1 in E. rewrite isValid_run in E.
  cbn [events tick] in E.
  assert (Hallowed : isIpAllowed ip k = true ->
                     ipWhitelist k = [] \/ In ip (ipWhitelist k)).
  { unfold isIpAllowed. destruct (ipWhitelist k) as [|x l]; [auto|].
    intros Hex. right. apply existsb_exists in Hex.
    destruct Hex as (y & Hy & Heq). apply String.eqb_eq in Heq. subst y.
    exact Hy. }
  destruct (status k) eqn:Hs.
  - (* active *)
    assert (Hrest : forall w0 (Hexp : forall d, expiresAt k = Some d ->
                                                clock env (S (events w)) <= d),
      exists v w1,
      (if negb (isIpAllowed ip k)
       then ret (refused "ip_restricted" (Some (keyId k)))
       else count_request env k) w0
      = (Normal v, w1) /\
      (valid v = true ->
       exists k0,
         Some k = Some k0 /\ status k0 = ACTIVE /\
         (forall d, expiresAt k0 = Some d -> clock env (S (events w)) <= d) /\
         (ipWhitelist k0 = [] \/ In ip (ipWhitelist k0)) /\
         v_keyId v = Some (keyId k0))).
    { intros w0 Hexp.
      destruct (isIpAllowed ip k) eqn:Hip; cbn [negb].
      - destruct (counted_run k w0) as (v & w1 & Hv & Hid).
        exists v, w1. split; [exact Hv|].
        intros _. exists k. split; [reflexivity|].
        split; [exact Hs|]. split; [exact Hexp|].
        split; [exact (Hallowed eq_refl) | exact Hid].
      - do 2 eexists. split; [reflexivity|]. discriminate. }
    destruct (expiresAt k) as [d|] eqn:Hd.
    + destruct (d <? clock env (S (events w))) eqn:Hlt; cbn [negb] in E.
      * cbn in E. injection E as <- <-. split; [eexists; reflexivity|].
        split; [intros v [= <-]; discriminate|].
        intros _. split; [intros k0 [= <-] Hr; congruence | discriminate].
      * apply Z.ltb_ge in Hlt.
        destruct (Hrest (tick (tick w)) ltac:(intros d0 [= <-]; exact Hlt))
          as (v & w1 & Hm & Hp).
        rewrite Hm in E. injection E as <- <-.
        split; [eexists; reflexivity|].
        split; [intros v0 [= <-]; exact Hp|].
        intros _. split; [intros k0 [= <-] Hr; congruence | discriminate].
    + cbn [negb] in E.
      destruct (Hrest (tick w) ltac:(intros d0; discriminate))
        as (v & w1 & Hm & Hp).
      rewrite Hm in E. injection E as <- <-.
      split; [eexists; reflexivity|].
      split; [intros v0 [= <-]; exact Hp|].
      intros _. split; [intros k0 [= <-] Hr; congruence | discriminate].
  - (* revoked *)
    cbn in E. injection E as <- <-. split; [eexists; reflexivity|].
    split; [intros v [= <-]; discriminate|].
    intros _. split; [|discriminate].
    intros k0 [= <-] _. reflexivity.
  - (* expired *)
    cbn in E. injection E as <- <-. split; [eexists; reflexivity|].
    split; [intros v [= <-]; discriminate|].
    intros _. split; [|discriminate].
    intros k0 [= <-] Hrev. congruence.
Qed.

(** The run of [validateApiKey] up to the rate limiter, for a usable key
    without expiry. *)
Lemma validateApiKey_counted (key_ ip : string) (w : World) (k : ApiKey) :
  fault env (events w) = false ->
  find (fun k => (key k =? key_)%string) (apiKeys w) = Some k ->
  status k = ACTIVE ->
  expiresAt k = None ->
  isIpAllowed ip k = true ->
  validateApiKey env key_ ip w = count_request env k (tick w).
Proof.
  intros Hf Hk Hs He Hip.
  unfold validateApiKey, try_catch. unfold bind at 1.
  unfold ApiKey_findOne, call. rewrite Hf, Hk. cbn [fst snd].
  unfold bind at 1. rewrite isValid_run, Hs, He. cbn [negb]. rewrite Hip.
  cbn [negb]. destruct (counted_run k (tick w)) as (v & w' & -> & _).
  reflexivity.
Qed.

(** A counted request when the counter of the key is absent or past its
    reset. *)
Lemma count_request_fresh (k : ApiKey) (w : World) :
  (RateLimiter.Map_get (minuteRateKey k) (RateLimiter.limits (rateLimitCache w))
     = None \/
   exists c,
     RateLimiter.Map_get (minuteRateKey k) (RateLimiter.limits (rateLimitCache w))
       = Some c /\
     RateLimiter.resetAt c < clock env (events w)) ->
  RateLimiter.Map_get (minuteRateKey k)
    (RateLimiter.limits (rateLimitCache (snd (count_request env k w))))
    = Some {| RateLimiter.count := 1;
              RateLimiter.resetAt := clock env (events w) + 60 |} /\
  (1 <= requestsPerMinute (limits_of k) ->
   fst (count_request env k w)
     = Normal {| valid := true; reason := None;
                 v_keyId := Some (keyId k); retryAfter := None |}).
Proof.
  intros Hfresh.
  destruct (count_request env k w) as [c w'] eqn:E. cbn [fst snd].
  unfold count_request in E. unfold bind at 1 in E.
  unfold increment, bind at 1 in E. unfold now in E.
  cbn [rateLimitCache tick] in E.
  rewrite (increment_fresh _ _ _ _ _ Hfresh) in E.
  cbn [RateLimiter.or_default] in E.
  destruct (1 >? requestsPerMinute (limits_of k)) eqn:Hex.
  - unfold bind, getRetryAfter, now, ret in E.
    cbn [rateLimitCache set_rateLimitCache tick RateLimiter.limits
         RateLimiter.set_limits] in E.
    rewrite Map_get_set_same in E. injection E as <- <-.
    cbn [rateLimitCache set_rateLimitCache tick RateLimiter.limits
         RateLimiter.set_limits].
    rewrite Map_get_set_same.
    split; [reflexivity|]. intros Hle. apply Z.gtb_lt in Hex. lia.
  - unfold updateLastUsed, try_catch, bind, now, ApiKey_save, call, ret in E.
    cbn [events set_rateLimitCache tick] in E.
    destruct (fault env _); injection E as <- <-;
      cbn [fst snd rateLimitCache set_rateLimitCache set_apiKeys tick
           RateLimiter.limits RateLimiter.set_limits];
      rewrite Map_get_set_same; (split; [reflexivity|]); reflexivity.
Qed.

(** A counted request beyond the allowance in an open window. *)
Lemma count_request_exceeded (k : ApiKey) (w : World) (c : RateLimiter.Counter) :
  RateLimiter.Map_get (minuteRateKey k) (RateLimiter.limits (rateLimitCache w))
    = Some c ->
  clock env (events w) <= RateLimiter.resetAt c ->
  requestsPerMinute (limits_of k) < RateLimiter.count c + 1 ->
  fst (count_request env k w)
    = Normal {| valid := false; reason := Some "rate_limit_exceeded";
                v_keyId := Some (keyId k);
                retryAfter :=
                  Some (Z.max 0 (RateLimiter.ceil_seconds
                                   (RateLimiter.resetAt c
                                    - clock env (S (events w))))) |}.
Proof.
  intros Hc Hopen Hover.
  unfold count_request. unfold bind at 1.
  unfold increment, bind at 1. unfold now.
  cbn [rateLimitCache tick].
  rewrite (increment_open _ _ _ _ _ c Hc Hopen).
  cbn [RateLimiter.or_default].
  replace (RateLimiter.count c + 1 >? requestsPerMinute (limits_of k)) with true
    by (symmetry; apply Z.gtb_lt; lia).
  unfold bind, getRetryAfter, now, ret.
  cbn [rateLimitCache set_rateLimitCache tick RateLimiter.limits
       RateLimiter.set_limits events].
  rewrite Map_get_set_same. cbn [fst snd].
  unfold RateLimiter.getRetryAfter.
  cbn [RateLimiter.limits RateLimiter.set_limits].
  rewrite Map_get_set_same. reflexivity.
Qed.

(** X27. The 'minute' limit of an API key is counted in windows of 60
    milliseconds, the window length that [validateApiKey] passes to the rate
    limiter. For a usable key without expiry: a request whose counter is
    absent or past its reset opens a window ending 60 milliseconds later
    and is accepted when at least one request per minute is allowed; a
    request beyond the allowance in an open window is refused with the
    reason 'rate_limit_exceeded' and a retry delay of at most one second. *)
Theorem minute_window_lasts_60_milliseconds :
  forall (key_ ip : string) (w : World) (k : ApiKey),
    fault env (events w) = false ->
    find (fun k => (key k =? key_)%string) (apiKeys w) = Some k ->
    status k = ACTIVE ->
    expiresAt k = None ->
    isIpAllowed ip k = true ->
    let t := clock env (S (events w)) in
    let allowed := requestsPerMinute (limits_of k) in
    let cache := RateLimiter.limits (rateLimitCache w) in
    let res := validateApiKey env key_ ip w in
    ((RateLimiter.Map_get (minuteRateKey k) cache = None \/
      exists c, RateLimiter.Map_get (minuteRateKey k) cache = Some c /\
                RateLimiter.resetAt c < t) ->
     RateLimiter.Map_get (minuteRateKey k)
       (RateLimiter.limits (rateLimitCache (snd res)))
       = Some {| RateLimiter.count := 1; RateLimiter.resetAt := t + 60 |} /\
     (1 <= allowed ->
      fst res = Normal {| valid := true; reason := None;
                          v_keyId := Some (keyId k); retryAfter := None |})) /\
    (forall c,
        RateLimiter.Map_get (minuteRateKey k) cache = Some c ->
        t <= RateLimiter.resetAt c <= t + 60 ->
        allowed < RateLimiter.count c + 1 ->
        t <= clock env (S (S (events w))) ->
        exists s,
          fst res = Normal {| valid := false; reason := Some "rate_limit_exceeded";
                              v_keyId := Some (keyId k); retryAfter := Some s |} /\
          0 <= s <= 1).
Proof.
  intros key_ ip w k Hf Hk Hs He Hip. cbv zeta.
  rewrite (validateApiKey_counted key_ ip w k Hf Hk Hs He Hip).
  split.
  - intros Hfresh. exact (count_request_fresh k (tick w) Hfresh).
  - intros c Hc [Hopen Hshort] Hover Hmono.
    rewrite (count_request_exceeded k (tick w) c Hc Hopen Hover).
    eexists. split; [reflexivity|].
    cbn [events tick]. unfold RateLimiter.ceil_seconds.
    set (x := RateLimiter.resetAt c - clock env (S (S (events w)))).
    assert (Hx : x <= 60) by (unfold x; lia).
    pose proof (Z.div_mod (- x) 1000 ltac:(lia)) as Hdm.
    pose proof (Z.mod_pos_bound (- x) 1000 ltac:(lia)) as Hb.
    lia.
Qed.

Lemma find_saved_by_key (k k' : ApiKey) (l : list ApiKey) :
  NoDup (map key l) ->
  In k l ->
  key k' = key k ->
  keyId k' = keyId k ->
  find (fun d => (key d =? key k)%string) (saved k' l) = Some k'.
Proof.
  intros Hnd Hin Hkey Hid. unfold saved.
  induction l as [|d l IH]; [destruct Hin|].
  cbn [map find]. rewrite Hid.
  destruct (keyId d =? keyId k)%string eqn:Hd.
  - rewrite Hkey, String.eqb_refl. reflexivity.
  - cbn [map] in Hnd. apply NoDup_cons_iff in Hnd. destruct Hnd as [Hnot Hnd].
    destruct Hin as [->|Hin]; [rewrite String.eqb_refl in Hd; discriminate|].
    destruct (key d =? key k)%string eqn:Hdk.
    + exfalso. apply Hnot. apply String.eqb_eq in Hdk. rewrite Hdk.
      apply in_map. exact Hin.
    + rewrite <- Hid. apply IH; assumption.
Qed.

(** X28. After [revokeApiKey] has answered true for a key id, the document
    of that id is stored as revoked, the minute counter of the key is gone
    from the rate limit cache, and [validateApiKey] refuses the key as
    'revoked' after the one lookup, whatever the caller's address (keys
    being unique in the collection and in the cache). [revokeApiKey] answers
    true or throws an error that starts with 'Failed to revoke API key: '. *)
Theorem revoked_api_key_is_refused :
  forall (keyId_ : string) (userId_ : option string) (w : World),
    NoDup (map key (apiKeys w)) ->
    NoDup (map fst (RateLimiter.limits (rateLimitCache w))) ->
    let res := revokeApiKey env keyId_ userId_ w in
    (fst res = Normal true \/
     exists msg,
       fst res = Throw (Err (String.append "Failed to revoke API key: " msg)) /\
       apiKeys (snd res) = apiKeys w) /\
    (fst res = Normal true ->
     exists k,
       In k (apiKeys w) /\ keyId k = keyId_ /\
       In (set_status REVOKED k) (apiKeys (snd res)) /\
       RateLimiter.Map_get (String.append keyId_ "_minute")
         (RateLimiter.limits (rateLimitCache (snd res))) = None /\
       forall ip w',
         apiKeys w' = apiKeys (snd res) ->
         fault env (events w') = false ->
         validateApiKey env (key k) ip w'
           = (Normal (refused "revoked" (Some keyId_)), tick w')).
Proof.
  intros keyId_ userId_ w Hkeys Hcache. cbv zeta.
  destruct (revokeApiKey env keyId_ userId_ w) as [c w1] eqn:E. cbn [fst snd].
  unfold revokeApiKey, try_catch in E. unfold bind at 1 in E.
  unfold ApiKey_findOne, call in E.
  destruct (fault env (events w)).
  { cbn in E. injection E as <- <-.
    split; [right; eexists; split; reflexivity | discriminate]. }
  destruct (find _ (apiKeys w)) as [k|] eqn:Hk.
  2:{ cbn in E. injection E as <- <-.
      split; [right; eexists; split; reflexivity | discriminate]. }
  cbn [fst snd] in E.
  unfold bind, ApiKey_save, call, throw, ret in E. cbn [events tick] in E.
  destruct (fault env (S (events w))).
  { cbn in E. injection E as <- <-.
    split; [right; eexists; split; reflexivity | discriminate]. }
  cbn in E. injection E as <- <-.
  split; [left; reflexivity|]. intros _.
  apply find_some in Hk. destruct Hk as [Hin Hq].
  apply andb_true_iff in Hq. destruct Hq as [Hid _].
  apply String.eqb_eq in Hid.
  exists k. split; [exact Hin|]. split; [exact Hid|].
  cbn [apiKeys rateLimitCache set_rateLimitCache set_apiKeys tick].
  split; [|split].
  - unfold saved. apply in_map_iff. exists k. split; [|exact Hin].
    cbn [keyId set_status]. rewrite String.eqb_refl. reflexivity.
  - apply Map_get_delete_same. exact Hcache.
  - intros ip w' Hw' Hf'.
    unfold validateApiKey, try_catch. unfold bind at 1.
    unfold ApiKey_findOne, call. rewrite Hf', Hw'.
    change (map (fun d : ApiKey =>
                   if (keyId d =? keyId k)%string then set_status REVOKED k else d)
                (apiKeys w))
      with (saved (set_status REVOKED k) (apiKeys w)).
    rewrite (find_saved_by_key k (set_status REVOKED k) (apiKeys w) Hkeys Hin
               eq_refl eq_refl).
    cbn [fst snd]. unfold bind at 1. rewrite isValid_run.
    cbn [status set_status keyId]. rewrite Hid. reflexivity.
Qed.

End ApiKeyFacts.

Section ApiKeyExamples.

Import ApiKeys.
Import ApiKeyScenario.

(** The first request of the service key, counted at time 1010, opens a
    window that ends at 1070. *)
Lemma minute_window_lasts_60_milliseconds_witness :
  RateLimiter.Map_get "key_1_minute"
    (RateLimiter.limits
       (rateLimitCache (snd (validateApiKey outside "sk_3f9a" "10.0.0.7" store))))
    = Some {| RateLimiter.count := 1; RateLimiter.resetAt := 1070 |} /\
  fst (validateApiKey outside "sk_3f9a" "10.0.0.7" store)
    = Normal {| valid := true; reason := None;
                v_keyId := Some "key_1"; retryAfter := None |}.
Proof.
  destruct (minute_window_lasts_60_milliseconds outside "sk_3f9a" "10.0.0.7"
              store service_key eq_refl eq_refl eq_refl eq_refl eq_refl)
    as [Hfresh _].
  destruct (Hfresh (or_introl eq_refl)) as [Hcounter Hvalid].
  split; [exact Hcounter|]. apply Hvalid. cbn. lia.
Defined.

(** The service key after its revocation. *)
Lemma revoked_api_key_is_refused_witness :
  fst (revokeApiKey outside "key_1" None store) = Normal true /\
  fst (validateApiKey outside "sk_3f9a" "10.0.0.7"
         (snd (revokeApiKey outside "key_1" None store)))
    = Normal (refused "revoked" (Some "key_1")).
Proof.
  destruct (revoked_api_key_is_refused outside "key_1" None store)
    as [_ Hrevoked].
  - cbn. repeat constructor. intros [].
  - cbn. constructor.
  - assert (Htrue : fst (revokeApiKey outside "key_1" None store) = Normal true)
      by reflexivity.
    split; [exact Htrue|].
    destruct (Hrevoked Htrue) as (k & _ & _ & _ & _ & Hrefused).
    reflexivity.
Defined.

End ApiKeyExamples.
